(** * Leader-detection heuristics of smart-Strategy: a shallow embedding

    The four detectors of the repository are embedded one module per
    source file:
    - [SmartMoney]  : smart_money_detector.py (co-occurrence groups, voting,
                      cooldown);
    - [FastSell]    : strategy2.py (streaming fast buy-then-sell detector);
    - [KillFollow]  : clickhouseDB/killFollowStrategy.py (batch round trips);
    - [Sequence]    : clickhouseDB/sequenceStrategy.py (batch buy sequences).

    Conventions.  A [datetime] is an integer number of microseconds (the
    resolution of Python's datetime); [timedelta.total_seconds()] compared
    with a whole number of seconds is the comparison of the microsecond
    difference with that number times 10^6.  A [frozenset] / [set] of
    strings is a [gset string]; a dict whose iteration order is observable
    (a vote tally, a [Counter], a result dict) is an association list in
    insertion order; a dict that is only looked up is a [gmap]. *)

From Stdlib Require Import ZArith QArith Lia List Sorted Permutation.
From stdpp Require Import gmap strings list fin_maps sorting.

Local Open Scope string_scope.
Local Open Scope list_scope.
Local Open Scope Z_scope.

(** ** Time *)

Module Time.
(** [timedelta(seconds=s)] and [timedelta(minutes=m)], in microseconds. *)
Definition seconds (s : Z) : Z := s * 1000000.
Definition minutes (m : Z) : Z := m * 60000000.
End Time.

(** ** The flat window buffer shared by the streaming detectors

    Both streaming files keep a [deque] of events in arrival order and prune
    it with the same loop:
    [while buf and buf[0].timestamp < cutoff: buf.popleft()]. *)

Section WindowBuffer.
Context {T : Type} (ts : T -> Z).

Fixpoint popleft_while_older (cutoff : Z) (buf : list T) : list T :=
  match buf with
  | [] => []
  | e :: rest =>
      if ts e <? cutoff then popleft_while_older cutoff rest else buf
  end.





End WindowBuffer.

(** ** defaultdict(list) *)

Section DefaultDict.
Context {K : Type} `{Countable K} {V : Type}.

(** [d[k]] on a [defaultdict(list)]: a missing key is created empty. *)
Definition dd_get (k : K) (d : gmap K (list V)) : list V * gmap K (list V) :=
  match d !! k with
  | Some l => (l, d)
  | None => ([], <[k := []]> d)
  end.

(** [d[k].append(v)]. *)
Definition dd_append (k : K) (v : V) (d : gmap K (list V)) : gmap K (list V) :=
  <[k := default [] (d !! k) ++ [v]]> d.
End DefaultDict.

(** ** Dicts in insertion order

    Python dicts iterate in insertion order; where that order (or the
    existence of a key) is observable, the dict is an association list in
    which a key occurs once, new keys being added at the end. *)

Section OrderedDict.
Context {K : Type} `{EqDecision K} {V : Type}.

(** [d[k] = f(d[k])] on a [defaultdict] whose factory gives [dflt]. *)
Fixpoint od_alter (f : V -> V) (dflt : V) (k : K) (d : list (K * V))
    : list (K * V) :=
  match d with
  | [] => [(k, f dflt)]
  | (k', v) :: rest =>
      if decide (k' = k) then (k', f v) :: rest
      else (k', v) :: od_alter f dflt k rest
  end.

Fixpoint od_lookup (k : K) (d : list (K * V)) : option V :=
  match d with
  | [] => None
  | (k', v) :: rest => if decide (k' = k) then Some v else od_lookup k rest
  end.
End OrderedDict.

(** [d[k].append(v)] on a [defaultdict(list)] in insertion order. *)
Definition od_append {K : Type} `{EqDecision K} {V : Type} (k : K) (v : V)
    (d : list (K * list V)) : list (K * list V) :=
  od_alter (fun l => l ++ [v]) [] k d.

(** ** Vote counting

    [defaultdict(int)] incremented once per vote, and [Counter(votes)]:
    both count in first-appearance order. *)

Definition tally (votes : list string) : list (string * Z) :=
  foldl (fun counts v => od_alter (fun n => n + 1) 0 v counts) [] votes.

(** [max(items, key=lambda x: x[1])], which is also what
    [Counter.most_common(1)] computes: the first item of maximal count.
    [None] stands for the empty sequence ([ValueError], or an empty
    [most_common] list). *)
Definition max_by_count (items : list (string * Z)) : option (string * Z) :=
  match items with
  | [] => None
  | x :: rest =>
      Some (foldl (fun best y => if snd y >? snd best then y else best) x rest)
  end.

Definition sum_counts (items : list (string * Z)) : Z :=
  foldr (fun kv acc => snd kv + acc) 0 items.

(** ** smart_money_detector.py *)

Module SmartMoney.

Record BuyEvent : Type := mkBuyEvent {
  timestamp : Z;
  buyer : string;
  token_mint : string;
  amount : Z;
  market : string
}.

Definition TIME_WINDOW_SECONDS : Z := 30.
Definition MIN_GROUP_SIZE : Z := 3.
Definition MIN_GROUP_SIGHTINGS : Z := 2.
Definition HISTORY_MINUTES : Z := 10.
Definition LEADER_LOG_COOLDOWN_SECONDS : Z := 300.

(** The module-level data stores. *)
Record state : Type := mkState {
  recent_buys : list BuyEvent;
  group_sightings : gmap (gset string) (list string);
  group_first_buyer : gmap (gset string) (list string);
  last_logged_leader : gmap string Z
}.

Definition initial : state := mkState [] ∅ ∅ ∅.

(** What the logging block of [analyze_group] prints. *)
Record alert : Type := mkAlert {
  leader : string;
  members : gset string;
  tokens_seen_count : nat;
  leader_votes : Z;
  total_votes : Z;
  logged_at : Z
}.

Definition prune_old_events (now : Z) (buys : list BuyEvent) : list BuyEvent :=
  popleft_while_older timestamp (now - Time.minutes HISTORY_MINUTES) buys.

(** The [for event in reversed(recent_buys)] loop of [find_groups], over
    the buffer already reversed. *)
Fixpoint scan_recent (window_start : Z) (new_event : BuyEvent)
    (newest_first : list BuyEvent) : list string :=
  match newest_first with
  | [] => []
  | event :: older =>
      if timestamp event <? window_start then []
      else if bool_decide (token_mint event = token_mint new_event)
              && negb (bool_decide (buyer event = buyer new_event))
      then buyer event :: scan_recent window_start new_event older
      else scan_recent window_start new_event older
  end.

Definition matched_buyers (now : Z) (new_event : BuyEvent)
    (buys : list BuyEvent) : list string :=
  scan_recent (now - Time.seconds TIME_WINDOW_SECONDS) new_event (rev buys).

(** [analyze_group]; [clock] is the value of [datetime.now] read inside.
    The result is [None] when the call raises, and otherwise the new
    stores with the alert logged, if any. *)
Definition analyze_group (clock : Z) (group : gset string) (st : state)
    : option (state * option alert) :=
  let '(sightings, gs) := dd_get group (group_sightings st) in
  let tokens_seen : gset string := list_to_set sightings in
  let st1 := mkState (recent_buys st) gs (group_first_buyer st)
                     (last_logged_leader st) in
  if bool_decide (MIN_GROUP_SIGHTINGS <= Z.of_nat (size tokens_seen)) then
    let '(first_buyers, gf) := dd_get group (group_first_buyer st) in
    let st2 := mkState (recent_buys st) gs gf (last_logged_leader st) in
    let buyer_count := tally first_buyers in
    match max_by_count buyer_count with
    | None => None
    | Some (ldr, votes) =>
        let total := sum_counts buyer_count in
        if 2 * votes >? total then
          let now := clock in
          let emit :=
            Some (mkState (recent_buys st) gs gf
                          (<[ldr := now]> (last_logged_leader st)),
                  Some (mkAlert ldr group (size tokens_seen) votes total now)) in
          match last_logged_leader st !! ldr with
          | None => emit
          | Some last_log =>
              if now - last_log >? Time.seconds LEADER_LOG_COOLDOWN_SECONDS
              then emit else Some (st2, None)
          end
        else Some (st2, None)
    end
  else Some (st1, None).

(** [find_groups]. *)
Definition find_groups (clock now : Z) (new_event : BuyEvent) (st : state)
    : option (state * option alert) :=
  let matched := matched_buyers now new_event (recent_buys st) in
  if bool_decide (MIN_GROUP_SIZE - 1 <= Z.of_nat (length matched)) then
    let group : gset string := list_to_set (matched ++ [buyer new_event]) in
    let st' :=
      mkState (recent_buys st)
              (dd_append group (token_mint new_event) (group_sightings st))
              (dd_append group (buyer new_event) (group_first_buyer st))
              (last_logged_leader st) in
    analyze_group clock group st'
  else Some (st, None).

(** Whether [find_groups] takes the branch that forms a group. *)
Definition forms_group (now : Z) (new_event : BuyEvent) (st : state) : bool :=
  bool_decide (MIN_GROUP_SIZE - 1
               <= Z.of_nat (length (matched_buyers now new_event (recent_buys st)))).

(** The body of the [for buyer, mint, amount in buys] loop of [run]. *)
Definition process_buy (now_utc clock : Z) (b mint : string) (amt : Z)
    (mkt : string) (st : state) : option (state * option alert) :=
  let event := mkBuyEvent now_utc b mint amt mkt in
  let appended := recent_buys st ++ [event] in
  let st' := mkState (prune_old_events now_utc appended) (group_sightings st)
                     (group_first_buyer st) (last_logged_leader st) in
  find_groups clock now_utc event st'.

End SmartMoney.

(** ** strategy2.py *)

Module FastSell.

(** [BuySellEvent = (timestamp, buyer, mint, amount, is_sell)]. *)
Record BuySellEvent : Type := mkEvent {
  timestamp : Z;
  buyer : string;
  mint : string;
  amount : Z;
  is_sell : bool
}.

Definition TIME_WINDOW_SECONDS : Z := 30.
Definition HISTORY_MINUTES : Z := 10.
Definition MARKET_CAP_THRESHOLD : Q := 500000 # 1.

(** *** The Dexscreener request, as [fetch_market_cap] sees it *)

(** [pairs[0].get('fdv')]. *)
Inductive fdv_field : Type :=
| fdv_none                 (* key absent, or null *)
| fdv_number (v : Q)       (* [float(fdv)] succeeds *)
| fdv_unconvertible.       (* [float(fdv)] raises *)

(** [data.get('pairs', [])]. *)
Inductive pairs_field : Type :=
| pairs_empty              (* key absent, null, or an empty list *)
| pairs_first (f : fdv_field)
| pairs_malformed.         (* indexing or [.get] on the first pair raises *)

Inductive response_body : Type :=
| body_not_json            (* [resp.json()] raises ValueError *)
| body_not_object          (* [data.get] raises *)
| body_object (p : pairs_field).

Inductive http_result : Type :=
| request_exception        (* requests.RequestException: network error, timeout *)
| response (status_code : Z) (body : response_body).

(** [fetch_market_cap], given what [requests.get] did. *)
Definition fetch_market_cap (r : http_result) : Q :=
  match r with
  | request_exception => 0
  | response status_code body =>
      if negb (status_code =? 200) then 0
      else match body with
           | body_not_json => 0
           | body_not_object => 0
           | body_object pairs_empty => 0
           | body_object pairs_malformed => 0
           | body_object (pairs_first fdv_none) => 0
           | body_object (pairs_first fdv_unconvertible) => 0
           | body_object (pairs_first (fdv_number v)) => v
           end
  end.

(** The fetch fails or yields no value. *)
Definition fetch_fails (r : http_result) : bool :=
  match r with
  | response 200 (body_object (pairs_first (fdv_number _))) => false
  | _ => true
  end.

Record state : Type := mkState {
  recent_events : list BuySellEvent;
  buyer_histories : gmap string (list BuySellEvent);
  token_market_caps : gmap string Q
}.

Definition initial : state := mkState [] ∅ ∅.

(** The [Fast Sell Detected] log lines. *)
Record alert : Type := mkAlert {
  alert_buyer : string;
  alert_mint : string;
  alert_time_diff : Z;
  alert_cap : Q
}.

Definition prune_old_events (now : Z) (events : list BuySellEvent)
    : list BuySellEvent :=
  popleft_while_older timestamp (now - Time.minutes HISTORY_MINUTES) events.

(** The [for past_event in relevant_events] loop of
    [analyze_fast_traders]; [net] answers the HTTP request for a mint. *)
Fixpoint scan_history (net : string -> http_result) (event : BuySellEvent)
    (relevant_events : list BuySellEvent) (caps : gmap string Q)
    : gmap string Q * option alert :=
  match relevant_events with
  | [] => (caps, None)
  | past_event :: rest =>
      if negb (is_sell past_event) && is_sell event then
        let time_diff := timestamp event - timestamp past_event in
        if (0 <? time_diff) && (time_diff <=? Time.seconds TIME_WINDOW_SECONDS) then
          let cached := default (0 : Q) (caps !! mint event) in
          let '(cap, caps') :=
            if Qeq_bool cached 0 then
              let fetched := fetch_market_cap (net (mint event)) in
              (fetched, <[mint event := fetched]> caps)
            else (cached, caps) in
          (caps',
           if Qle_bool cap MARKET_CAP_THRESHOLD
           then Some (mkAlert (buyer event) (mint event) time_diff cap)
           else None)
        else scan_history net event rest caps
      else scan_history net event rest caps
  end.

Definition analyze_fast_traders (net : string -> http_result) (now : Z)
    (event : BuySellEvent) (st : state) : state * option alert :=
  let '(history, histories) := dd_get (buyer event) (buyer_histories st) in
  let relevant_events :=
    filter (fun e => mint e = mint event) history in
  if bool_decide (length relevant_events < 2)%nat then
    (mkState (recent_events st) histories (token_market_caps st), None)
  else
    let '(caps, out) :=
      scan_history net event relevant_events (token_market_caps st) in
    (mkState (recent_events st) histories caps, out).

(** The body of the [for buyer, mint, amount, is_sell in buys_sells] loop
    of [run]. *)
Definition process_event (net : string -> http_result) (now_utc : Z)
    (b m : string) (amt : Z) (sell : bool) (st : state)
    : state * option alert :=
  let event := mkEvent now_utc b m amt sell in
  let st' :=
    mkState (prune_old_events now_utc (recent_events st ++ [event]))
            (dd_append b event (buyer_histories st))
            (token_market_caps st) in
  if sell then analyze_fast_traders net now_utc event st' else (st', None).

(** A run of the loop over a list of arrivals, collecting the alerts. *)
Record arrival : Type := mkArrival {
  arr_now : Z; arr_buyer : string; arr_mint : string; arr_amount : Z;
  arr_is_sell : bool
}.

Fixpoint run_events (net : string -> http_result) (arrivals : list arrival)
    (st : state) : state * list alert :=
  match arrivals with
  | [] => (st, [])
  | a :: rest =>
      let '(st1, out) :=
        process_event net (arr_now a) (arr_buyer a) (arr_mint a)
                      (arr_amount a) (arr_is_sell a) st in
      let '(st2, outs) := run_events net rest st1 in
      (st2, match out with Some x => x :: outs | None => outs end)
  end.

End FastSell.

(** ** clickhouseDB/killFollowStrategy.py *)

Module KillFollow.

(** A row of the query: [(ts, mint, traderPublicKey, txType, marketCapSol)]. *)
Record row : Type := mkRow {
  ts : Z;
  mint : string;
  trader : string;
  tx_type : string;
  cap : Q
}.

(** An entry of [trades[trader][mint]]: [(ts, tx_type)]. *)
Definition action : Type := Z * string.

(** Python's order on the tuples [(ts, tx_type)]. *)
Definition action_le (a b : action) : Prop :=
  fst a < fst b \/ (fst a = fst b /\ String.le (snd a) (snd b)).

#[export] Instance action_le_dec : RelDecision action_le.
Proof. intros a b. unfold action_le. apply _. Defined.

(** The first loop: [trades[trader][mint].append((ts, tx_type))]. *)
Definition collect_trades (rows : list row)
    : list (string * list (string * list action)) :=
  foldl (fun trades r =>
           od_alter (od_append (mint r) (ts r, tx_type r)) [] (trader r) trades)
        [] rows.

(** The [for j in range(i + 1, len(actions))] loop: whether it reaches
    the [append] and [break]. *)
Fixpoint first_sell_within (max_hold_time_sec ts_i : Z) (later : list action)
    : bool :=
  match later with
  | [] => false
  | (ts_j, type_j) :: rest =>
      if negb (bool_decide (type_j = "sell")) then
        first_sell_within max_hold_time_sec ts_i rest
      else
        let delta := ts_j - ts_i in
        if (0 <? delta) && (delta <=? Time.seconds max_hold_time_sec) then true
        else first_sell_within max_hold_time_sec ts_i rest
  end.

(** The [for i, (ts_i, type_i) in enumerate(actions)] loop. *)
Fixpoint scan_actions (max_hold_time_sec : Z) (trd mnt : string)
    (actions : list action) (suspicious : list (string * list string))
    : list (string * list string) :=
  match actions with
  | [] => suspicious
  | (ts_i, type_i) :: later =>
      if negb (bool_decide (type_i = "buy")) then
        scan_actions max_hold_time_sec trd mnt later suspicious
      else if first_sell_within max_hold_time_sec ts_i later then
        scan_actions max_hold_time_sec trd mnt later
                     (od_append trd mnt suspicious)
      else scan_actions max_hold_time_sec trd mnt later suspicious
  end.

Definition scan_mints (max_hold_time_sec : Z) (trd : string)
    (mint_dict : list (string * list action))
    (suspicious : list (string * list string)) : list (string * list string) :=
  foldl (fun susp '(mnt, actions) =>
           scan_actions max_hold_time_sec trd mnt
                        (merge_sort action_le actions) susp)
        suspicious mint_dict.

Definition scan_trades (max_hold_time_sec : Z)
    (trades : list (string * list (string * list action)))
    : list (string * list string) :=
  foldl (fun susp '(trd, mint_dict) =>
           scan_mints max_hold_time_sec trd mint_dict susp)
        [] trades.

(** [detect_leader], on the rows the query returned.  [list(set(tokens))]
    is given as the elements of the set in one order; the code leaves that
    order open, and the properties of the result speak of the tokens as a
    set, or up to a permutation. *)
Definition detect_leader (max_hold_time_sec : Z) (rows : list row)
    : list (string * list string) :=
  let suspicious := scan_trades max_hold_time_sec (collect_trades rows) in
  omap (fun '(addr, tokens) =>
          let distinct : gset string := list_to_set tokens in
          if bool_decide (2 <= size distinct)%nat
          then Some (addr, elements distinct) else None)
       suspicious.

End KillFollow.

(** ** clickhouseDB/sequenceStrategy.py *)

Module Sequence.

(** A row of [fetch_buy_events]: [(ts, mint, traderPublicKey, tokenAmount)]. *)
Record row : Type := mkRow {
  ts : Z;
  mint : string;
  trader : string;
  amount : Z
}.

(** An entry of [mint_clusters[mint]]: [(ts, trader, amount)]. *)
Record event : Type := mkEvent {
  ev_ts : Z;
  ev_trader : string;
  ev_amount : Z
}.

(** Python's order on the tuples [(ts, trader, amount)]. *)
Definition event_le (a b : event) : Prop :=
  ev_ts a < ev_ts b \/
  (ev_ts a = ev_ts b /\
   ((ev_trader a <> ev_trader b /\ String.le (ev_trader a) (ev_trader b)) \/
    (ev_trader a = ev_trader b /\ ev_amount a <= ev_amount b))).

#[export] Instance event_le_dec : RelDecision event_le.
Proof. intros a b. unfold event_le. apply _. Defined.

(** A value of [combo_tracker]: [(mint, cluster)]. *)
Definition mint_cluster : Type := string * list event.

(** The first loop: [mint_clusters[mint].append((ts, trader, amount))]. *)
Definition collect_events (rows : list row) : list (string * list event) :=
  foldl (fun mint_clusters r =>
           od_append (mint r) (mkEvent (ts r) (trader r) (amount r))
                     mint_clusters)
        [] rows.

(** The [for j in range(i + 1, len(events))] loop: what it appends to
    the cluster seeded by [(ts1, _, a1)]. *)
Fixpoint extend_cluster (time_window_sec ts1 a1 : Z) (later : list event)
    : list event :=
  match later with
  | [] => []
  | e2 :: rest =>
      if ev_ts e2 - ts1 <=? Time.seconds time_window_sec then
        if negb (a1 =? ev_amount e2)
        then e2 :: extend_cluster time_window_sec ts1 a1 rest
        else extend_cluster time_window_sec ts1 a1 rest
      else []
  end.

Definition cluster_at (time_window_sec : Z) (seed : event)
    (later : list event) : list event :=
  seed :: extend_cluster time_window_sec (ev_ts seed) (ev_amount seed) later.

(** [tuple(sorted([x[1] for x in cluster]))]. *)
Definition participants_key (cluster : list event) : list string :=
  merge_sort String.le (map ev_trader cluster).

(** The [for i in range(len(events))] loop over the sorted events of
    one mint. *)
Fixpoint scan_seeds (time_window_sec : Z) (mnt : string)
    (events : list event) (combo_tracker : list (list string * list mint_cluster))
    : list (list string * list mint_cluster) :=
  match events with
  | [] => combo_tracker
  | seed :: later =>
      let cluster := cluster_at time_window_sec seed later in
      scan_seeds time_window_sec mnt later
        (if bool_decide (3 <= length cluster)%nat
         then od_append (participants_key cluster) (mnt, cluster) combo_tracker
         else combo_tracker)
  end.

Definition find_clusters (rows : list row) (time_window_sec : Z)
    : list (list string * list mint_cluster) :=
  foldl (fun combo_tracker '(mnt, events) =>
           scan_seeds time_window_sec mnt (merge_sort event_le events)
                      combo_tracker)
        [] (collect_events rows).

(** The dict appended to [leader_candidates[common_first]]. *)
Record evidence : Type := mkEvidence {
  mints : list string;
  participants : list string;
  sequences : list (list string)
}.

(** [tuple(x[1][i][1] for i in range(len(x[1])))] for each cluster. *)
Definition sequences_of (mint_clusters : list mint_cluster)
    : list (list string) :=
  map (fun x => map ev_trader (snd x)) mint_clusters.

(** [Counter(firsts).most_common(1)[0][0]]. *)
Definition most_common_first (firsts : list string) : option string :=
  fst <$> max_by_count (tally firsts).

(** One iteration of the loop of [detect_following_patterns]; [None] is
    an [IndexError] ([seq[0]] on an empty sequence). *)
Definition analyze_combo (combo : list string)
    (mint_clusters : list mint_cluster)
    (leader_candidates : list (string * list evidence))
    : option (list (string * list evidence)) :=
  if bool_decide (length mint_clusters < 2)%nat then Some leader_candidates
  else
    let seqs := sequences_of mint_clusters in
    if bool_decide (1 < size (list_to_set seqs : gset (list string)))%nat then
      firsts ← mapM head seqs;
      common_first ← most_common_first firsts;
      Some (od_append common_first
                      (mkEvidence (map fst mint_clusters) combo seqs)
                      leader_candidates)
    else Some leader_candidates.

(** The [for combo, mint_clusters in combo_tracker.items()] loop. *)
Fixpoint analyze_combos
    (combo_tracker : list (list string * list mint_cluster))
    (leader_candidates : list (string * list evidence))
    : option (list (string * list evidence)) :=
  match combo_tracker with
  | [] => Some leader_candidates
  | (combo, mint_clusters) :: rest =>
      lc ← analyze_combo combo mint_clusters leader_candidates;
      analyze_combos rest lc
  end.

Definition detect_following_patterns
    (combo_tracker : list (list string * list mint_cluster))
    : option (list (string * list evidence)) :=
  analyze_combos combo_tracker [].

(** [detect_leader], on the rows [fetch_buy_events] returned. *)
Definition detect_leader (rows : list row)
    : option (list (string * list evidence)) :=
  detect_following_patterns (find_clusters rows 10).

End Sequence.

(** ** Transaction decoding shared by the two streaming files

    [parse_balance_changes] is the same code in smart_money_detector.py and
    in strategy2.py; [detect_buyers] and [find_market] are of the former,
    [detect_buys_sells] of the latter. *)

Module Decode.

Definition WSOL_MINT : string := "So11111111111111111111111111111111111111112".
Definition USDC_MINT : string := "EPjFWdd5AufqSSqeM2qN1xzybapC8G4wEGGkZwyTDt1v".
Definition PUMP_FUN_PROGRAM_ID : string :=
  "6EF8rrecthR5Dkzon8Nwu78hRvfCKubJ14M5uBEwF6P".
Definition RAYDIUM_AMM_V4_PROGRAM_ID : string :=
  "675kPX9MHTjS2zt1qfr1NYHuzeLXfQM9H24wFSUt1Mp8".

(** An entry of [meta.pre_token_balances] or [meta.post_token_balances]:
    [str(b.owner)], [str(b.mint)] and the integer read from
    [b.ui_token_amount.amount] (0 when the field is absent). *)
Record token_balance : Type := mkBalance {
  owner : string;
  mint : string;
  amount : Z
}.

Record meta : Type := mkMeta {
  pre_token_balances : list token_balance;
  post_token_balances : list token_balance
}.

(** [{owner: {mint: (pre_amount, post_amount)}}], both levels in insertion
    order. *)
Definition balance_changes : Type := list (string * list (string * (Z * Z))).

(** [changes[owner][mint] = (amount, 0)]. *)
Definition set_pre (changes : balance_changes) (b : token_balance)
    : balance_changes :=
  od_alter (od_alter (fun _ => (amount b, 0)) (0, 0) (mint b)) [] (owner b)
           changes.

(** [pre_amount = changes[owner][mint][0];
     changes[owner][mint] = (pre_amount, post_amount)]. *)
Definition set_post (changes : balance_changes) (b : token_balance)
    : balance_changes :=
  od_alter (od_alter (fun p => (fst p, amount b)) (0, 0) (mint b)) [] (owner b)
           changes.

Definition parse_balance_changes (m : meta) : balance_changes :=
  foldl set_post (foldl set_pre [] (pre_token_balances m))
        (post_token_balances m).

(** [quote_mint in tokens and tokens[quote_mint][1] < tokens[quote_mint][0]]. *)
Definition quote_spent (tokens : list (string * (Z * Z))) (quote_mint : string)
    : bool :=
  match od_lookup quote_mint tokens with
  | Some (pre, post) => post <? pre
  | None => false
  end.

(** The [for quote_mint in [WSOL_MINT, USDC_MINT]] loop of [detect_buyers]:
    what it appends before its [break]. *)
Fixpoint first_quote_spent (owner0 mint0 : string) (pre post : Z)
    (tokens : list (string * (Z * Z))) (quote_mints : list string)
    : list (string * string * Z) :=
  match quote_mints with
  | [] => []
  | quote_mint :: rest =>
      if quote_spent tokens quote_mint then [(owner0, mint0, post - pre)]
      else first_quote_spent owner0 mint0 pre post tokens rest
  end.

Definition detect_buyers (changes : balance_changes)
    : list (string * string * Z) :=
  flat_map
    (fun '(owner0, tokens) =>
       flat_map
         (fun '(mint0, (pre, post)) =>
            if (post >? pre) && negb (bool_decide (mint0 = WSOL_MINT))
            then first_quote_spent owner0 mint0 pre post tokens
                                   [WSOL_MINT; USDC_MINT]
            else [])
         tokens)
    changes.

(** [detect_buys_sells]: [(owner, mint, amount, is_sell)]. *)
Definition detect_buys_sells (changes : balance_changes)
    : list (string * string * Z * bool) :=
  flat_map
    (fun '(owner0, tokens) =>
       flat_map
         (fun '(mint0, (pre, post)) =>
            if bool_decide (mint0 = WSOL_MINT) then []
            else if post >? pre then [(owner0, mint0, post - pre, false)]
            else if pre >? post then [(owner0, mint0, pre - post, true)]
            else [])
         tokens)
    changes.

(** The [for inst in instructions] loop of [find_market].  An instruction
    is its [program_id_index], [None] when it has no such attribute. *)
Fixpoint scan_instructions (pubkeys : list string)
    (instructions : list (option nat)) : string :=
  match instructions with
  | [] => "Unknown"
  | None :: rest => scan_instructions pubkeys rest
  | Some idx :: rest =>
      match pubkeys !! idx with
      | Some program_id =>
          if bool_decide (program_id = PUMP_FUN_PROGRAM_ID) then "PumpFun"
          else if bool_decide (program_id = RAYDIUM_AMM_V4_PROGRAM_ID)
          then "Raydium"
          else scan_instructions pubkeys rest
      | None => scan_instructions pubkeys rest
      end
  end.

(** [find_market].  An account key is what [str(Pubkey(key))] gives, [None]
    when [Pubkey(key)] raises; the exception is caught and answered with
    ["Unknown"]. *)
Definition find_market (account_keys : list (option string))
    (instructions : list (option nat)) : string :=
  match mapM id account_keys with
  | Some pubkeys => scan_instructions pubkeys instructions
  | None => "Unknown"
  end.

End Decode.

(** ** The event loops of the two streaming files, one transaction at a
    time *)

Module SmartMoneyRun.

(** A buy as the loop of [run] meets it: the clock read for the
    transaction, the clock read inside [analyze_group], and the row of
    [detect_buyers]. *)
Record arrival : Type := mkArrival {
  arr_now : Z;
  arr_clock : Z;
  arr_buyer : string;
  arr_mint : string;
  arr_amount : Z;
  arr_market : string
}.

(** The buys of a run of the loop, in order; [None] when a call raises. *)
Fixpoint run_buys (arrivals : list arrival) (st : SmartMoney.state)
    : option (SmartMoney.state * list SmartMoney.alert) :=
  match arrivals with
  | [] => Some (st, [])
  | a :: rest =>
      match SmartMoney.process_buy (arr_now a) (arr_clock a) (arr_buyer a)
                                   (arr_mint a) (arr_amount a) (arr_market a) st with
      | None => None
      | Some (st1, out) =>
          match run_buys rest st1 with
          | None => None
          | Some (st2, outs) =>
              Some (st2, match out with Some x => x :: outs | None => outs end)
          end
      end
  end.

End SmartMoneyRun.

(** * Specification predicates *)

Section WindowBufferSpec.
Context {T : Type} (ts : T -> Z).


End WindowBufferSpec.



(** Number of votes cast for [w]. *)
Definition votes_for (w : string) (votes : list string) : Z :=
  Z.of_nat (length (filter (fun v => v = w) votes)).

Module SmartMoneySpec.
Import SmartMoney.

(** The alert logged by a call, if it returned and logged one. *)
Definition emitted (r : option (state * option alert)) : option alert :=
  match r with
  | Some (_, Some a) => Some a
  | _ => None
  end.

Definition sightings_of (st : state) (group : gset string) : list string :=
  default [] (group_sightings st !! group).

Definition first_buyers_of (st : state) (group : gset string) : list string :=
  default [] (group_first_buyer st !! group).

(** The group has been seen on at least [MIN_GROUP_SIGHTINGS] tokens. *)
Definition reached_min_sightings (st : state) (group : gset string) : Prop :=
  MIN_GROUP_SIGHTINGS
  <= Z.of_nat (size (list_to_set (sightings_of st group) : gset string)).

(** [w] holds a strict majority of the group's first-buyer votes: the
    evaluation of the group promotes [w], cooldown apart. *)
Definition qualifying_promotion (st : state) (group : gset string)
    (w : string) : Prop :=
  reached_min_sightings st group /\
  2 * votes_for w (first_buyers_of st group)
  > Z.of_nat (length (first_buyers_of st group)).

(** The cooldown gate lets an alert for [w] through at time [clock]:
    [w] was never logged, or was logged more than the cooldown ago. *)
Definition cooldown_elapsed (clock : Z) (w : string) (st : state) : Prop :=
  match last_logged_leader st !! w with
  | None => True
  | Some last_log =>
      clock - last_log > Time.seconds LEADER_LOG_COOLDOWN_SECONDS
  end.

(** The last alert for [w] is younger than the cooldown period. *)
Definition last_alert_younger (clock : Z) (w : string) (st : state) : Prop :=
  exists last_log,
    last_logged_leader st !! w = Some last_log /\
    clock - last_log < Time.seconds LEADER_LOG_COOLDOWN_SECONDS.

(** The gate as the specification words it: suppress when the last alert
    is younger than the cooldown, otherwise emit and stamp. *)
Definition gate_as_specified : Prop :=
  forall (clock : Z) (group : gset string) (st : state) (w : string),
    qualifying_promotion st group w ->
    (last_alert_younger clock w st ->
     emitted (analyze_group clock group st) = None) /\
    (~ last_alert_younger clock w st ->
     exists st' a,
       analyze_group clock group st = Some (st', Some a) /\
       leader a = w /\ last_logged_leader st' !! w = Some clock).

(** Wallets other than the buyer of [e] with a buy on the mint of [e]
    whose timestamp lies in [[now - window, now]]. *)
Definition wallets_in_window (now : Z) (e : BuyEvent) (buys : list BuyEvent)
    : gset string :=
  list_to_set
    (map buyer
       (filter (fun x =>
                  token_mint x = token_mint e /\ buyer x <> buyer e /\
                  now - Time.seconds TIME_WINDOW_SECONDS <= timestamp x <= now)
               buys)).

(** The stores after an evaluation that logs [w] at [clock]. *)
Definition stamped (clock : Z) (group : gset string) (w : string)
    (st : state) : state :=
  mkState (recent_buys st)
          (snd (dd_get group (group_sightings st)))
          (snd (dd_get group (group_first_buyer st)))
          (<[w := clock]> (last_logged_leader st)).

(** The stores after an evaluation that logs nothing. *)
Definition unstamped (group : gset string) (st : state) : state :=
  mkState (recent_buys st)
          (snd (dd_get group (group_sightings st)))
          (snd (dd_get group (group_first_buyer st)))
          (last_logged_leader st).

Definition alert_for (clock : Z) (group : gset string) (w : string)
    (st : state) : alert :=
  mkAlert w group
          (size (list_to_set (sightings_of st group) : gset string))
          (votes_for w (first_buyers_of st group))
          (Z.of_nat (length (first_buyers_of st group)))
          clock.

(** A group seen on two tokens, with the given first-buyer votes and
    cooldown map. *)
Definition sample_group : gset string := {[ "A"; "B"; "C" ]}.

Definition sample_state (votes : list string) (logged : gmap string Z)
    : state :=
  mkState [] {[ sample_group := ["MintX"; "MintY"] ]}
          {[ sample_group := votes ]} logged.
(** The last alert for [w] is at most the cooldown period old. *)
Definition last_alert_within (clock : Z) (w : string) (st : state) : Prop :=
  exists last_log,
    last_logged_leader st !! w = Some last_log /\
    clock - last_log <= Time.seconds LEADER_LOG_COOLDOWN_SECONDS.
End SmartMoneySpec.

Module FastSellSpec.
Import FastSell.

(** The market cap the filter of [analyze_fast_traders] compares with the
    threshold: the cached value, or, when none is cached (or a zero is),
    the value fetched now. *)
Definition market_cap_seen (net : string -> http_result) (m : string)
    (caps : gmap string Q) : Q :=
  let cached := default (0 : Q) (caps !! m) in
  if Qeq_bool cached 0 then fetch_market_cap (net m) else cached.

(** The ways the market-cap fetch fails or yields no value: a network
    error or timeout, an HTTP error status, a body that is not JSON, no
    pairs, no FDV. *)
Definition failure_modes : list http_result :=
  [ request_exception;
    response 500 body_not_json;
    response 429 (body_object (pairs_first (fdv_number (1000 # 1))));
    response 200 body_not_json;
    response 200 (body_object pairs_empty);
    response 200 (body_object (pairs_first fdv_none)) ].

(** Wallet X buys MintY and sells it 20 seconds later. *)
Definition one_round_trip : list arrival :=
  [ mkArrival 0 "X" "MintY" 100 false;
    mkArrival (Time.seconds 20) "X" "MintY" 100 true ].

(** Wallet X buys and sells MintY twice, all within 20 seconds. *)
Definition two_round_trips : list arrival :=
  [ mkArrival 0 "X" "MintY" 100 false;
    mkArrival (Time.seconds 10) "X" "MintY" 100 true;
    mkArrival (Time.seconds 12) "X" "MintY" 50 false;
    mkArrival (Time.seconds 20) "X" "MintY" 50 true ].

(** A Dexscreener that answers with an FDV of 100000 dollars. *)
Definition small_cap_net (m : string) : http_result :=
  response 200 (body_object (pairs_first (fdv_number (100000 # 1)))).

(** The stores after wallet X bought MintY at time 0. *)
Definition after_first_buy : state :=
  mkState [mkEvent 0 "X" "MintY" 100 false]
          {[ "X" := [mkEvent 0 "X" "MintY" 100 false] ]} ∅.
End FastSellSpec.

Module KillFollowSpec.
Import KillFollow.

(** The [(ts, tx_type)] entries of the rows of one trader on one mint, in
    row order. *)
Definition actions_of (rows : list row) (trd mnt : string) : list action :=
  map (fun r => (ts r, tx_type r))
      (filter (fun r => trader r = trd /\ mint r = mnt) rows).

(** [suspicious[trd]], empty when the key is absent. *)
Definition tokens_of (trd : string) (suspicious : list (string * list string))
    : list string :=
  default [] (od_lookup trd suspicious).

(** The number of buys of the list at which the inner loop finds a sell
    and appends: each buy counts once or not at all. *)
Fixpoint round_trips (max_hold_time_sec : Z) (actions : list action) : nat :=
  match actions with
  | [] => 0
  | (ts_i, type_i) :: later =>
      ((if bool_decide (type_i = "buy")
           && first_sell_within max_hold_time_sec ts_i later
        then 1 else 0)
       + round_trips max_hold_time_sec later)%nat
  end.

Definition buys (actions : list action) : list action :=
  filter (fun a => snd a = "buy") actions.

(** The wallet bought the mint and sold it [k] later, with
    [0 < k <= maxHoldTime]. *)
Definition round_trip (max_hold_time_sec : Z) (rows : list row)
    (trd mnt : string) : Prop :=
  exists t0 k,
    (t0, "buy") ∈ actions_of rows trd mnt /\
    (t0 + k, "sell") ∈ actions_of rows trd mnt /\
    0 < k <= Time.seconds max_hold_time_sec.

(** Wallet X trades MintY and MintZ in and out within 20 seconds, and
    MintW only once, too slowly. *)
Definition sample_rows : list row :=
  [ mkRow 0 "MintY" "X" "buy" 30;
    mkRow (Time.seconds 20) "MintY" "X" "sell" 31;
    mkRow (Time.seconds 40) "MintZ" "X" "buy" 10;
    mkRow (Time.seconds 45) "MintZ" "X" "sell" 10;
    mkRow (Time.seconds 50) "MintW" "X" "buy" 10;
    mkRow (Time.seconds 90) "MintW" "X" "sell" 10;
    mkRow (Time.seconds 50) "MintY" "V" "buy" 30;
    mkRow (Time.seconds 60) "MintY" "V" "sell" 30 ].
End KillFollowSpec.

Module SequenceSpec.
Import Sequence.

(** The [(ts, trader, amount)] entries of the rows of one mint, in row
    order. *)
Definition events_of (rows : list row) (mnt : string) : list event :=
  map (fun r => mkEvent (ts r) (trader r) (amount r))
      (filter (fun r => mint r = mnt) rows).

(** [combo_tracker[key]], empty when the key is absent. *)
Definition clusters_of (key : list string)
    (combo_tracker : list (list string * list mint_cluster))
    : list mint_cluster :=
  default [] (od_lookup key combo_tracker).

(** [e] is within the time window anchored at [seed] and its amount
    differs from the amount of [seed]. *)
Definition joins (time_window_sec : Z) (seed e : event) : Prop :=
  ev_ts e - ev_ts seed <= Time.seconds time_window_sec /\
  ev_amount e <> ev_amount seed.

(** The wallets of every retained cluster are distinct. *)
Definition clusters_have_distinct_wallets : Prop :=
  forall rows time_window_sec key mnt cluster,
    (mnt, cluster) ∈ clusters_of key (find_clusters rows time_window_sec) ->
    NoDup (map ev_trader cluster).

(** Wallet A buys MintX three times within two seconds, a different
    amount each time. *)
Definition one_wallet_rows : list row :=
  [ mkRow 0 "MintX" "A" 100;
    mkRow (Time.seconds 1) "MintX" "A" 200;
    mkRow (Time.seconds 2) "MintX" "A" 300 ].

(** Wallets A, B and C buy MintX within two seconds, different amounts. *)
Definition three_wallet_rows : list row :=
  [ mkRow (Time.seconds 1) "MintX" "B" 200;
    mkRow 0 "MintX" "A" 100;
    mkRow (Time.seconds 2) "MintX" "C" 300 ].

(** All the candidates of [leader_candidates], each with the leader it
    is filed under. *)
Definition candidates (leader_candidates : list (string * list evidence))
    : list (string * evidence) :=
  flat_map (fun kv => map (pair (fst kv)) (snd kv)) leader_candidates.

(** The candidates whose evidence names the participant key [combo]. *)
Definition candidates_for (combo : list string)
    (leader_candidates : list (string * list evidence))
    : list (string * evidence) :=
  filter (fun c => participants (snd c) = combo) (candidates leader_candidates).

Definition all_identical (seqs : list (list string)) : Prop :=
  forall s1 s2, s1 ∈ seqs -> s2 ∈ seqs -> s1 = s2.

(** Every cluster of the tracker has a member; the clusters retained by
    [find_clusters] have at least three. *)
Definition clusters_nonempty
    (combo_tracker : list (list string * list mint_cluster)) : Prop :=
  Forall (fun kv => Forall (fun mc : mint_cluster => snd mc <> []) (snd kv))
         combo_tracker.

(** The candidate one key of the tracker contributes, if any. *)
Definition candidate_of (entry : list string * list mint_cluster)
    : list (string * evidence) :=
  let '(combo, mint_clusters) := entry in
  let seqs := sequences_of mint_clusters in
  if bool_decide (2 <= length mint_clusters)%nat
     && bool_decide (1 < size (list_to_set seqs : gset (list string)))%nat
  then match mapM head seqs ≫= most_common_first with
       | Some leader =>
           [(leader, mkEvidence (map fst mint_clusters) combo seqs)]
       | None => []
       end
  else [].

(** A tracker with three keys: A leads B and C on two tokens out of
    three; D, E, F always buy in the same order; G, H, I meet once. *)
Definition abc_clusters : list mint_cluster :=
  [ ("Mint1", [mkEvent 0 "A" 1; mkEvent 1 "B" 2; mkEvent 2 "C" 3]);
    ("Mint2", [mkEvent 5 "B" 1; mkEvent 6 "A" 2; mkEvent 7 "C" 3]);
    ("Mint3", [mkEvent 8 "A" 1; mkEvent 9 "C" 2; mkEvent 10 "B" 3]) ].

Definition def_clusters : list mint_cluster :=
  [ ("Mint1", [mkEvent 0 "D" 1; mkEvent 1 "E" 2; mkEvent 2 "F" 3]);
    ("Mint2", [mkEvent 5 "D" 1; mkEvent 6 "E" 2; mkEvent 7 "F" 3]) ].

Definition ghi_clusters : list mint_cluster :=
  [ ("Mint4", [mkEvent 0 "G" 1; mkEvent 1 "H" 2; mkEvent 2 "I" 3]) ].

Definition sample_tracker : list (list string * list mint_cluster) :=
  [ (["A"; "B"; "C"], abc_clusters);
    (["D"; "E"; "F"], def_clusters);
    (["G"; "H"; "I"], ghi_clusters) ].
End SequenceSpec.

Module DecodeSpec.
Import Decode.

(** The amount of the last entry of the list for an owner and a mint. *)
Definition last_amount (o mt : string) (bs : list token_balance) : option Z :=
  foldl (fun acc b =>
           if decide (owner b = o /\ mint b = mt) then Some (amount b) else acc)
        None bs.

(** [changes[o][mt]], when both keys are present. *)
Definition change_of (changes : balance_changes) (o mt : string)
    : option (Z * Z) :=
  od_lookup mt (default [] (od_lookup o changes)).

(** The balance of [o] in the quote mint [q] went down. *)
Definition spent (changes : balance_changes) (o q : string) : Prop :=
  exists pre post, change_of changes o q = Some (pre, post) /\ post < pre.

(** The program an instruction names is one of the two DEXes. *)
Definition names_dex (pubkeys : list string) (inst : option nat) : Prop :=
  exists idx, inst = Some idx /\
    (pubkeys !! idx = Some PUMP_FUN_PROGRAM_ID \/
     pubkeys !! idx = Some RAYDIUM_AMM_V4_PROGRAM_ID).

(** Both levels of the dict have distinct keys. *)
Definition well_keyed (changes : balance_changes) : Prop :=
  NoDup changes.*1 /\ Forall (fun kv => NoDup (snd kv).*1) changes.

(** A swap of 5 SOL for 1000 tokens of mint T by wallet W. *)
Definition swap_meta : meta :=
  mkMeta [ mkBalance "W" WSOL_MINT 9; mkBalance "W" "T" 0 ]
         [ mkBalance "W" WSOL_MINT 4; mkBalance "W" "T" 1000 ].
End DecodeSpec.

Module SmartMoneyRunSpec.
Import SmartMoney SmartMoneyRun.

(** The alerts logged over a run of the loop. *)
Definition alerts_of (arrivals : list arrival) (st : state) : list alert :=
  from_option snd [] (run_buys arrivals st).

(** Every vote recorded for a group was cast for one of its members. *)
Definition members_vote (first_buyer : gmap (gset string) (list string))
    : Prop :=
  forall group votes,
    first_buyer !! group = Some votes -> Forall (fun w => w ∈ group) votes.

(** The buys on the mint of [ev] by other wallets since the start of the
    window. *)
Definition window_buy (now : Z) (ev : BuyEvent) (buys : list BuyEvent)
    (w : string) : Prop :=
  exists e,
    e ∈ buys /\ buyer e = w /\ token_mint e = token_mint ev /\
    buyer e <> buyer ev /\
    now - Time.seconds TIME_WINDOW_SECONDS <= timestamp e.

(** A, B and C buy MintX within 8 seconds, and MintY a minute later. *)
Definition sample_run : list arrival :=
  [ mkArrival 0 0 "A" "MintX" 10 "PumpFun";
    mkArrival (Time.seconds 5) (Time.seconds 5) "B" "MintX" 10 "PumpFun";
    mkArrival (Time.seconds 8) (Time.seconds 8) "C" "MintX" 10 "PumpFun";
    mkArrival (Time.seconds 60) (Time.seconds 60) "A" "MintY" 10 "Raydium";
    mkArrival (Time.seconds 65) (Time.seconds 65) "B" "MintY" 10 "Raydium";
    mkArrival (Time.seconds 68) (Time.seconds 68) "C" "MintY" 10 "Raydium" ].
End SmartMoneyRunSpec.

Module FastSellRunSpec.
Import FastSell.

(** The event the loop of [run] builds for an arrival. *)
Definition to_event (a : arrival) : BuySellEvent :=
  mkEvent (arr_now a) (arr_buyer a) (arr_mint a) (arr_amount a)
          (arr_is_sell a).

Definition history_of (st : state) (w : string) : list BuySellEvent :=
  default [] (buyer_histories st !! w).

(** The stores after wallet X bought MintY at time 0, with a market cap of
    100000 dollars cached for MintY. *)
Definition after_first_buy_cached : state :=
  mkState [mkEvent 0 "X" "MintY" 100 false]
          {[ "X" := [mkEvent 0 "X" "MintY" 100 false] ]}
          {[ "MintY" := 100000 # 1 ]}.
End FastSellRunSpec.

Module SequenceRunSpec.
Import Sequence.

(** A, B and C buy Mint1 in that order, and Mint2 in the order B, A, C,
    each time within two seconds and with different amounts. *)
Definition two_mint_rows : list row :=
  [ mkRow 0 "Mint1" "A" 100;
    mkRow (Time.seconds 1) "Mint1" "B" 200;
    mkRow (Time.seconds 2) "Mint1" "C" 300;
    mkRow (Time.seconds 60) "Mint2" "B" 100;
    mkRow (Time.seconds 61) "Mint2" "A" 200;
    mkRow (Time.seconds 62) "Mint2" "C" 300 ].

Definition two_mint_evidence : evidence :=
  mkEvidence ["Mint1"; "Mint2"] ["A"; "B"; "C"]
             [["A"; "B"; "C"]; ["B"; "A"; "C"]].

(** A buys MintX at 0 s, 1 s and 3 s and B buys it at 2 s: two wallets and
    one mint. *)
Definition one_mint_rows : list row :=
  [ mkRow 0 "MintX" "A" 1;
    mkRow (Time.seconds 1) "MintX" "A" 2;
    mkRow (Time.seconds 2) "MintX" "B" 3;
    mkRow (Time.seconds 3) "MintX" "A" 1 ].

Definition one_mint_evidence : evidence :=
  mkEvidence ["MintX"; "MintX"] ["A"; "A"; "B"]
             [["A"; "A"; "B"]; ["A"; "B"; "A"]].
End SequenceRunSpec.

Module SmartMoneyStoresSpec.
Import SmartMoney SmartMoneyRun.

(** The stores after a run of the loop (the stores before it, should a
    call raise). *)
Definition final_state (arrivals : list arrival) (st : state) : state :=
  from_option fst st (run_buys arrivals st).

(** The arrival with another amount and another market. *)
Definition relabel (amt : arrival -> Z) (mkt : arrival -> string)
    (a : arrival) : arrival :=
  mkArrival (arr_now a) (arr_clock a) (arr_buyer a) (arr_mint a)
            (amt a) (mkt a).

(** Two buys agree on all but the amount and the market. *)
Definition same_trade (e1 e2 : BuyEvent) : Prop :=
  timestamp e1 = timestamp e2 /\ buyer e1 = buyer e2 /\
  token_mint e1 = token_mint e2.

(** The stores with another buffer of recent buys. *)
Definition with_buys (buys : list BuyEvent) (st : state) : state :=
  mkState buys (group_sightings st) (group_first_buyer st)
          (last_logged_leader st).
End SmartMoneyStoresSpec.

(** * Properties *)

(** ** Shared tactics and lemmas *)

(** Decide the integer comparisons of the goal by linear arithmetic, after
    unfolding the time constants. *)
Ltac unfold_time :=
  cbv [Time.seconds Time.minutes
       SmartMoney.HISTORY_MINUTES SmartMoney.TIME_WINDOW_SECONDS
       SmartMoney.LEADER_LOG_COOLDOWN_SECONDS SmartMoney.MIN_GROUP_SIZE
       SmartMoney.MIN_GROUP_SIGHTINGS
       FastSell.HISTORY_MINUTES FastSell.TIME_WINDOW_SECONDS] in *.

Ltac ltb_lia :=
  repeat match goal with
  | |- context [?a <? ?b] =>
      first [ rewrite (proj2 (Z.ltb_lt a b)) by (unfold_time; lia)
            | rewrite (proj2 (Z.ltb_ge a b)) by (unfold_time; lia) ]
  end.

(** Close a closed, decidable side condition by evaluation. *)
Ltac by_evaluation :=
  vm_compute;
  first [ exact I | reflexivity | (intros; discriminate) | done ].

(** Decide the equalities between string literals of the goal. *)
Ltac str_dec :=
  repeat match goal with
  | |- context [bool_decide (?a = ?b)] =>
      first [ rewrite (bool_decide_eq_true_2 (a = b)) by reflexivity
            | rewrite (bool_decide_eq_false_2 (a = b)) by discriminate ]
  end.

Section DefaultDictFacts.
Context {K : Type} `{Countable K} {V : Type}.
Implicit Types (d : gmap K (list V)).

Lemma dd_append_lookup k v d :
  dd_append k v d !! k = Some (default [] (d !! k) ++ [v]).
Proof. unfold dd_append. apply lookup_insert_eq. Qed.

Lemma dd_get_dd_append k v d :
  dd_get k (dd_append k v d)
  = (default [] (d !! k) ++ [v], dd_append k v d).
Proof. unfold dd_get. by rewrite dd_append_lookup. Qed.

Lemma dd_get_fst k d : fst (dd_get k d) = default [] (d !! k).
Proof. unfold dd_get. by destruct (d !! k). Qed.
End DefaultDictFacts.

(** ** The window buffer *)

Section WindowBufferFacts.
Context {T : Type} (ts : T -> Z).





End WindowBufferFacts.

Section WindowBufferRuns.
Context {T : Type} (ts : T -> Z).




End WindowBufferRuns.




(** ** Dicts in insertion order and vote counting *)

Section OrderedDictFacts.
Context {K : Type} `{EqDecision K} {V : Type}.
Implicit Types (d : list (K * V)).

Lemma od_lookup_alter (f : V -> V) dflt k k' d :
  od_lookup k' (od_alter f dflt k d)
  = if decide (k = k') then Some (f (default dflt (od_lookup k d)))
    else od_lookup k' d.
Proof.
  induction d as [|[k0 v0] rest IH]; simpl.
  - destruct (decide (k = k')); [done|]. reflexivity.
  - destruct (decide (k0 = k)) as [->|Hne]; simpl.
    + destruct (decide (k = k')); done.
    + destruct (decide (k0 = k')) as [->|Hne'].
      * destruct (decide (k = k')); [congruence | done].
      * exact IH.
Qed.

Lemma od_alter_keys (f : V -> V) dflt k d :
  (od_alter f dflt k d).*1
  = if decide (k ∈ d.*1) then d.*1 else d.*1 ++ [k].
Proof.
  induction d as [|[k0 v0] rest IH]; csimpl.
  - done.
  - destruct (decide (k0 = k)) as [->|Hne]; csimpl.
    + rewrite decide_True; [done | apply list_elem_of_here].
    + rewrite IH. destruct (decide (k ∈ rest.*1)) as [Hin|Hnin].
      * rewrite decide_True; [done | by apply list_elem_of_further].
      * rewrite decide_False; [done|].
        apply not_elem_of_cons. split; [congruence | done].
Qed.

Lemma od_alter_NoDup (f : V -> V) dflt k d :
  NoDup d.*1 -> NoDup (od_alter f dflt k d).*1.
Proof.
  intros Hnd. rewrite od_alter_keys. destruct (decide (k ∈ d.*1)); [done|].
  apply NoDup_app. split_and!; [done| |apply NoDup_singleton].
  intros x Hx Hx'. apply list_elem_of_singleton in Hx' as ->. done.
Qed.

Lemma od_lookup_Some_elem k v d : od_lookup k d = Some v -> (k, v) ∈ d.
Proof.
  induction d as [|[k0 v0] rest IH]; simpl; [done|].
  destruct (decide (k0 = k)) as [->|Hne].
  - intros [= ->]. apply list_elem_of_here.
  - intros Hl. apply list_elem_of_further. by apply IH.
Qed.

Lemma od_elem_lookup k v d : NoDup d.*1 -> (k, v) ∈ d -> od_lookup k d = Some v.
Proof.
  induction d as [|[k0 v0] rest IH]; simpl; intros Hnd Hin;
    [by apply elem_of_nil in Hin|].
  apply NoDup_cons in Hnd as [Hk0 Hnd].
  destruct (decide (k0 = k)) as [->|Hne].
  - apply elem_of_cons in Hin as [[= ->]|Hin]; [done|]. exfalso. apply Hk0.
    apply list_elem_of_fmap. by exists (k, v).
  - apply elem_of_cons in Hin as [[= -> ->]|Hin]; [congruence|]. by apply IH.
Qed.
End OrderedDictFacts.

Lemma tally_snoc (votes : list string) (v : string) :
  tally (votes ++ [v]) = od_alter (fun n => n + 1) 0 v (tally votes).
Proof. unfold tally. by rewrite foldl_snoc. Qed.

Lemma votes_for_snoc (w v : string) (votes : list string) :
  votes_for w (votes ++ [v])
  = votes_for w votes + (if decide (v = w) then 1 else 0).
Proof.
  unfold votes_for. rewrite filter_app, length_app.
  rewrite Nat2Z.inj_add. f_equal.
  destruct (decide (v = w)) as [->|Hne].
  - by rewrite filter_cons_True.
  - by rewrite filter_cons_False.
Qed.

Lemma votes_for_nonneg (w : string) (votes : list string) : 0 <= votes_for w votes.
Proof. unfold votes_for. lia. Qed.

(** The tally holds, for each wallet that received a vote, its number
    of votes. *)
Lemma tally_lookup (w : string) (votes : list string) :
  od_lookup w (tally votes)
  = if decide (votes_for w votes = 0) then None else Some (votes_for w votes).
Proof.
  induction votes as [|v votes IH] using rev_ind; [done|].
  rewrite tally_snoc, od_lookup_alter, votes_for_snoc.
  pose proof (votes_for_nonneg w votes) as Hnn.
  destruct (decide (v = w)) as [->|Hne].
  - rewrite IH. destruct (decide (votes_for w votes = 0)) as [->|Hnz]; simpl.
    + reflexivity.
    + destruct (decide (votes_for w votes + 1 = 0)); [lia|done].
  - rewrite IH, Z.add_0_r. done.
Qed.

Lemma tally_NoDup (votes : list string) : NoDup (tally votes).*1.
Proof.
  induction votes as [|v votes IH] using rev_ind; [constructor|].
  rewrite tally_snoc. by apply od_alter_NoDup.
Qed.

Lemma tally_elem (w : string) (n : Z) (votes : list string) :
  (w, n) ∈ tally votes <-> n = votes_for w votes /\ 0 < n.
Proof.
  pose proof (votes_for_nonneg w votes) as Hnn. split.
  - intros Hin. apply od_elem_lookup in Hin; [|apply tally_NoDup].
    rewrite tally_lookup in Hin.
    destruct (decide (votes_for w votes = 0)); [done|].
    injection Hin as <-. lia.
  - intros [-> Hpos]. apply od_lookup_Some_elem. rewrite tally_lookup.
    destruct (decide (votes_for w votes = 0)); [lia|done].
Qed.

Lemma sum_counts_alter (k : string) (d : list (string * Z)) :
  sum_counts (od_alter (fun n => n + 1) 0 k d) = sum_counts d + 1.
Proof.
  induction d as [|[k0 n0] rest IH]; simpl; [done|].
  destruct (decide (k0 = k)); simpl; [lia|].
  change (n0 + sum_counts (od_alter (fun n => n + 1) 0 k rest)
          = n0 + sum_counts rest + 1).
  rewrite IH. lia.
Qed.

Lemma sum_counts_tally (votes : list string) :
  sum_counts (tally votes) = Z.of_nat (length votes).
Proof.
  induction votes as [|v votes IH] using rev_ind; [done|].
  rewrite tally_snoc, sum_counts_alter, IH, length_app. simpl. lia.
Qed.

(** [max_by_count] returns an item of the list whose count no other item
    exceeds. *)
Lemma max_by_count_fold (best : string * Z) (rest : list (string * Z)) :
  let m := foldl (fun b y => if snd y >? snd b then y else b) best rest in
  (m = best \/ m ∈ rest) /\ snd best <= snd m /\
  Forall (fun y => snd y <= snd m) rest.
Proof.
  revert best. induction rest as [|y rest IH]; intros best; simpl.
  - split_and!; [by left|lia|constructor].
  - destruct (Z.gtb_spec (snd y) (snd best)) as [Hgt|Hle].
    + destruct (IH y) as (Hm & Hy & Hall). split_and!.
      * right. destruct Hm as [->|Hm];
          [apply list_elem_of_here | by apply list_elem_of_further].
      * lia.
      * by constructor.
    + destruct (IH best) as (Hm & Hb & Hall). split_and!.
      * destruct Hm as [Hm|Hm]; [by left | right; by apply list_elem_of_further].
      * done.
      * constructor; [lia|done].
Qed.

Lemma max_by_count_Some (items : list (string * Z)) (k : string) (n : Z) :
  max_by_count items = Some (k, n) ->
  (k, n) ∈ items /\ Forall (fun y => snd y <= n) items.
Proof.
  destruct items as [|x rest]; simpl; [done|]. intros [= Hm].
  destruct (max_by_count_fold x rest) as (Hin & Hx & Hall).
  rewrite Hm in *. simpl in *. split.
  - destruct Hin as [<-|Hin]; [apply list_elem_of_here | by apply list_elem_of_further].
  - by constructor.
Qed.

Lemma max_by_count_is_Some (items : list (string * Z)) :
  items <> [] -> is_Some (max_by_count items).
Proof. destruct items; [done|]. intros _. simpl. eauto. Qed.

Lemma votes_for_two (w1 w2 : string) (votes : list string) :
  w1 <> w2 ->
  votes_for w1 votes + votes_for w2 votes <= Z.of_nat (length votes).
Proof.
  intros Hne. induction votes as [|v votes IH] using rev_ind; [done|].
  rewrite !votes_for_snoc, length_app. simpl.
  destruct (decide (v = w1)), (decide (v = w2)); subst; try done; lia.
Qed.

(** A wallet with a strict majority of the votes is the maximum of the
    tally. *)
Lemma majority_is_max (c : string) (votes : list string) :
  2 * votes_for c votes > Z.of_nat (length votes) ->
  max_by_count (tally votes) = Some (c, votes_for c votes).
Proof.
  intros Hmaj.
  assert (Hc : (c, votes_for c votes) ∈ tally votes).
  { apply tally_elem. split; [done|lia]. }
  destruct (max_by_count_is_Some (tally votes)) as [[k n] Hmax].
  { intros Hnil. rewrite Hnil in Hc. by apply elem_of_nil in Hc. }
  rewrite Hmax. apply max_by_count_Some in Hmax as [Hin Hall].
  apply tally_elem in Hin as [-> Hpos].
  destruct (decide (k = c)) as [->|Hne]; [done|]. exfalso.
  pose proof (votes_for_two k c votes Hne).
  pose proof (proj1 (Forall_forall _ _) Hall _ Hc) as Hle. simpl in Hle. lia.
Qed.

(** Conversely, a maximum above half the total is a strict majority, and
    then no other wallet reaches half of the votes. *)
Lemma max_above_half (k : string) (n : Z) (votes : list string) :
  max_by_count (tally votes) = Some (k, n) ->
  n = votes_for k votes /\
  (2 * n > sum_counts (tally votes) ->
   forall c, c <> k -> 2 * votes_for c votes < Z.of_nat (length votes)).
Proof.
  intros Hmax. apply max_by_count_Some in Hmax as [Hin _].
  apply tally_elem in Hin as [-> _]. split; [done|].
  rewrite sum_counts_tally. intros Hgt c Hne.
  pose proof (votes_for_two c k votes Hne). lia.
Qed.

(** ** smart_money_detector.py: attribution, voting and cooldown *)

Module SmartMoneyVoting.
Import SmartMoney SmartMoneySpec.

(** What [analyze_group] does when [w] holds a strict majority. *)
Lemma analyze_group_majority clock group st w :
  qualifying_promotion st group w ->
  analyze_group clock group st
  = match last_logged_leader st !! w with
    | None => Some (stamped clock group w st, Some (alert_for clock group w st))
    | Some last_log =>
        if clock - last_log >? Time.seconds LEADER_LOG_COOLDOWN_SECONDS
        then Some (stamped clock group w st, Some (alert_for clock group w st))
        else Some (unstamped group st, None)
    end.
Proof.
  intros [Hreached Hmaj].
  unfold analyze_group, stamped, unstamped, alert_for, reached_min_sightings,
    sightings_of, first_buyers_of in *.
  pose proof (dd_get_fst group (group_sightings st)) as Hs.
  pose proof (dd_get_fst group (group_first_buyer st)) as Hf.
  destruct (dd_get group (group_sightings st)) as [sightings gs].
  destruct (dd_get group (group_first_buyer st)) as [first_buyers gf].
  simpl in Hs, Hf. subst sightings first_buyers. simpl.
  rewrite bool_decide_eq_true_2 by done.
  rewrite (majority_is_max w _ Hmaj), sum_counts_tally.
  rewrite (proj2 (Z.gtb_gt _ _)) by lia.
  reflexivity.
Qed.

(** An alert is only ever logged for a wallet with a strict majority,
    and only when the cooldown gate lets it through. *)
Lemma analyze_group_emitted clock group st a :
  emitted (analyze_group clock group st) = Some a ->
  qualifying_promotion st group (leader a) /\
  cooldown_elapsed clock (leader a) st.
Proof.
  unfold analyze_group, qualifying_promotion, reached_min_sightings,
    cooldown_elapsed, sightings_of, first_buyers_of.
  pose proof (dd_get_fst group (group_sightings st)) as Hs.
  pose proof (dd_get_fst group (group_first_buyer st)) as Hf.
  destruct (dd_get group (group_sightings st)) as [sightings gs].
  destruct (dd_get group (group_first_buyer st)) as [first_buyers gf].
  simpl in Hs, Hf. subst sightings first_buyers.
  case_bool_decide as Hreached; [|done].
  destruct (max_by_count _) as [[k n]|] eqn:Hmax; [|done].
  destruct (max_above_half _ _ _ Hmax) as [-> _].
  rewrite sum_counts_tally.
  destruct (Z.gtb_spec (2 * votes_for k (default [] (group_first_buyer st !! group)))
              (Z.of_nat (length (default [] (group_first_buyer st !! group)))))
    as [Hgt|Hle]; [|done].
  destruct (last_logged_leader st !! k) as [last_log|] eqn:Hlast.
  - destruct (Z.gtb_spec (clock - last_log)
                (Time.seconds LEADER_LOG_COOLDOWN_SECONDS)) as [Hc|Hc];
      [|done].
    simpl. intros [= <-]. simpl. rewrite Hlast. split_and!; [done|lia|lia].
  - simpl. intros [= <-]. simpl. rewrite Hlast. split_and!; [done|lia|done].
Qed.

(** C4.  A group that has reached the minimum number of sightings is
    evaluated.  A candidate holding exactly half of the first-buyer votes
    is not promoted: no alert logged by the evaluation names it.  A
    candidate holding strictly more than half of the votes is promoted
    whenever the cooldown gate does not suppress it: the evaluation logs
    an alert naming it, with its vote count and the total. *)
Theorem strict_majority_promotion clock group st c :
  reached_min_sightings st group ->
  let votes := first_buyers_of st group in
  (2 * votes_for c votes = Z.of_nat (length votes) ->
   forall a, emitted (analyze_group clock group st) = Some a -> leader a <> c)
  /\
  (2 * votes_for c votes > Z.of_nat (length votes) ->
   cooldown_elapsed clock c st ->
   exists a,
     emitted (analyze_group clock group st) = Some a /\
     leader a = c /\ leader_votes a = votes_for c votes /\
     total_votes a = Z.of_nat (length votes)).
Proof.
  intros Hreached votes. split.
  - intros Hhalf a Ha <-.
    apply analyze_group_emitted in Ha as [[_ Hmaj] _].
    fold votes in Hmaj. lia.
  - intros Hmaj Hcool.
    rewrite (analyze_group_majority clock group st c) by done.
    unfold cooldown_elapsed in Hcool.
    destruct (last_logged_leader st !! c) as [last_log|].
    + rewrite (proj2 (Z.gtb_gt _ _)) by lia.
      by exists (alert_for clock group c st).
    + by exists (alert_for clock group c st).
Qed.

Lemma strict_majority_promotion_witness :
  (forall a,
     emitted (analyze_group 0 sample_group
                (sample_state ["C"; "A"; "C"; "A"] ∅)) = Some a ->
     leader a <> "C") /\
  (exists a,
     emitted (analyze_group 0 sample_group
                (sample_state ["C"; "A"; "C"] ∅)) = Some a /\
     leader a = "C" /\ leader_votes a = 2 /\ total_votes a = 3).
Proof.
  split.
  - apply (strict_majority_promotion 0 sample_group
             (sample_state ["C"; "A"; "C"; "A"] ∅) "C"); by_evaluation.
  - apply (strict_majority_promotion 0 sample_group
             (sample_state ["C"; "A"; "C"] ∅) "C"); by_evaluation.
Defined.

End SmartMoneyVoting.

Module SmartMoneyCooldown.
Import SmartMoney SmartMoneySpec SmartMoneyVoting.

Lemma not_elapsed_within clock w st :
  ~ cooldown_elapsed clock w st <-> last_alert_within clock w st.
Proof.
  unfold cooldown_elapsed, last_alert_within.
  destruct (last_logged_leader st !! w) as [last_log|]; split.
  - intros Hn. exists last_log. split; [done|lia].
  - intros (l & [= <-] & Hle). lia.
  - intros Hn. by destruct Hn.
  - by intros (l & Hl & _).
Qed.

(** At the boundary the gate of the code and the gate of the
    specification differ: a last alert exactly [cooldownPeriod] old is not
    younger than [cooldownPeriod], yet the alert is suppressed. *)
Lemma gate_boundary_suppressed : ~ gate_as_specified.
Proof.
  intros Hgate.
  destruct (Hgate (Time.seconds 300) sample_group
              (sample_state ["C"; "A"; "C"] {[ "C" := 0 ]}) "C")
    as [_ Hemit].
  { split; by_evaluation. }
  destruct Hemit as (st' & a & Hrun & _).
  - intros (last_log & Hlast & Hyoung).
    change (({[ "C" := 0 ]} : gmap string Z) !! "C" = Some last_log) in Hlast.
    rewrite lookup_singleton_eq in Hlast. injection Hlast as <-.
    unfold_time. lia.
  - rewrite (analyze_group_majority _ _ _ "C") in Hrun
      by (split; by_evaluation).
    change (last_logged_leader (sample_state ["C"; "A"; "C"] {[ "C" := 0 ]}))
      with ({[ "C" := 0 ]} : gmap string Z) in Hrun.
    rewrite lookup_singleton_eq in Hrun.
    change (Time.seconds 300 - 0 >? Time.seconds LEADER_LOG_COOLDOWN_SECONDS)
      with false in Hrun.
    discriminate.
Qed.

(** C5, as the code has it.  When a wallet [w] qualifies for promotion:
    the alert is suppressed, and the gate left as it is, if the last alert
    for [w] is at most [cooldownPeriod] old; otherwise ([w] never alerted,
    or alerted strictly more than [cooldownPeriod] ago) the alert is
    emitted and the gate stamped with the current time.  Hence of two
    qualifying promotions of [w] at most [cooldownPeriod] apart, the first
    of which is emitted, exactly one is emitted: the second is
    suppressed. *)
Theorem cooldown_gate clock group st w :
  qualifying_promotion st group w ->
  (last_alert_within clock w st ->
   exists st',
     analyze_group clock group st = Some (st', None) /\
     last_logged_leader st' = last_logged_leader st)
  /\
  (~ last_alert_within clock w st ->
   exists st' a,
     analyze_group clock group st = Some (st', Some a) /\
     leader a = w /\ logged_at a = clock /\
     last_logged_leader st' !! w = Some clock /\
     forall clock2 group2,
       qualifying_promotion st' group2 w ->
       clock2 - clock <= Time.seconds LEADER_LOG_COOLDOWN_SECONDS ->
       exists st'',
         analyze_group clock2 group2 st' = Some (st'', None) /\
         last_logged_leader st'' !! w = Some clock).
Proof.
  intros Hq.
  assert (Hsuppress : forall clock0 group0 st0,
    qualifying_promotion st0 group0 w -> last_alert_within clock0 w st0 ->
    analyze_group clock0 group0 st0 = Some (unstamped group0 st0, None)).
  { intros clock0 group0 st0 Hq0 (last_log & Hlast & Hle).
    rewrite (analyze_group_majority clock0 group0 st0 w Hq0), Hlast.
    destruct (Z.gtb_spec (clock0 - last_log)
                (Time.seconds LEADER_LOG_COOLDOWN_SECONDS)); [lia|done]. }
  split.
  - intros Hwithin. exists (unstamped group st). split; [by apply Hsuppress|done].
  - intros Hnot.
    assert (Hel : cooldown_elapsed clock w st).
    { unfold cooldown_elapsed, last_alert_within in *.
      destruct (last_logged_leader st !! w) as [last_log|]; [|done].
      destruct (Z.le_gt_cases (clock - last_log)
                  (Time.seconds LEADER_LOG_COOLDOWN_SECONDS)); [|lia].
      exfalso. apply Hnot. by exists last_log. }
    exists (stamped clock group w st), (alert_for clock group w st).
    assert (Hstamp : last_logged_leader (stamped clock group w st) !! w
                     = Some clock) by apply lookup_insert_eq.
    split_and!; [|done|done|done|].
    + rewrite (analyze_group_majority clock group st w Hq).
      unfold cooldown_elapsed in Hel.
      destruct (last_logged_leader st !! w) as [last_log|]; [|done].
      by rewrite (proj2 (Z.gtb_gt _ _)) by lia.
    + intros clock2 group2 Hq2 Hle.
      exists (unstamped group2 (stamped clock group w st)).
      split; [|done]. apply Hsuppress; [done|].
      exists clock. done.
Qed.

Lemma cooldown_gate_witness :
  (exists st',
     analyze_group (Time.seconds 300) sample_group
       (sample_state ["C"; "A"; "C"] {[ "C" := 0 ]}) = Some (st', None) /\
     last_logged_leader st'
     = last_logged_leader (sample_state ["C"; "A"; "C"] {[ "C" := 0 ]})) /\
  (exists st' a,
     analyze_group (Time.seconds 301) sample_group
       (sample_state ["C"; "A"; "C"] {[ "C" := 0 ]}) = Some (st', Some a) /\
     leader a = "C" /\ logged_at a = Time.seconds 301 /\
     last_logged_leader st' !! "C" = Some (Time.seconds 301) /\
     forall clock2 group2,
       qualifying_promotion st' group2 "C" ->
       clock2 - Time.seconds 301 <= Time.seconds LEADER_LOG_COOLDOWN_SECONDS ->
       exists st'',
         analyze_group clock2 group2 st' = Some (st'', None) /\
         last_logged_leader st'' !! "C" = Some (Time.seconds 301)).
Proof.
  split.
  - apply (cooldown_gate (Time.seconds 300) sample_group
             (sample_state ["C"; "A"; "C"] {[ "C" := 0 ]}) "C").
    + split; by_evaluation.
    + exists 0. split; [apply lookup_singleton_eq | by_evaluation].
  - apply (cooldown_gate (Time.seconds 301) sample_group
             (sample_state ["C"; "A"; "C"] {[ "C" := 0 ]}) "C").
    + split; by_evaluation.
    + intros (last_log & Hlast & Hle).
      change (({[ "C" := 0 ]} : gmap string Z) !! "C" = Some last_log) in Hlast.
      rewrite lookup_singleton_eq in Hlast. injection Hlast as <-.
      unfold_time. lia.
Defined.

End SmartMoneyCooldown.

(** ** smart_money_detector.py: group formation *)

Lemma filter_none {A : Type} (P : A -> Prop) `{forall x, Decision (P x)}
    (l : list A) :
  Forall (fun x => ~ P x) l -> filter P l = [].
Proof.
  induction 1 as [|x l Hx Hl IH]; [done|]. by rewrite filter_cons_False.
Qed.

Lemma filter_all {A : Type} (P : A -> Prop) `{forall x, Decision (P x)}
    (l : list A) :
  Forall P l -> filter P l = l.
Proof.
  induction 1 as [|x l Hx Hl IH]; [done|].
  rewrite filter_cons_True by done. by f_equal.
Qed.

Module SmartMoneyGroups.
Import SmartMoney SmartMoneySpec.

(** An evaluation of a group not yet seen on [MIN_GROUP_SIGHTINGS]
    tokens changes nothing and logs nothing. *)
Lemma analyze_group_below clock group st sightings :
  group_sightings st !! group = Some sightings ->
  Z.of_nat (size (list_to_set sightings : gset string)) < MIN_GROUP_SIGHTINGS ->
  analyze_group clock group st = Some (st, None).
Proof.
  intros Hs Hlt. unfold analyze_group, dd_get. rewrite Hs.
  rewrite bool_decide_eq_false_2 by lia. by destruct st.
Qed.

(** Every wallet the scan collects bought the same mint as the new
    event, is not the new event's buyer, and bought no earlier than the
    start of the window: a buy on another mint is never counted. *)
Lemma scan_recent_sound window_start new_event newest_first w :
  w ∈ scan_recent window_start new_event newest_first ->
  exists ev,
    ev ∈ newest_first /\ buyer ev = w /\
    token_mint ev = token_mint new_event /\
    buyer ev <> buyer new_event /\ window_start <= timestamp ev.
Proof.
  induction newest_first as [|ev older IH]; simpl;
    [by intros ?%elem_of_nil|].
  destruct (Z.ltb_spec (timestamp ev) window_start) as [|Hge];
    [by intros ?%elem_of_nil|].
  assert (Hrec : w ∈ scan_recent window_start new_event older ->
                 exists ev0, ev0 ∈ ev :: older /\ buyer ev0 = w /\
                   token_mint ev0 = token_mint new_event /\
                   buyer ev0 <> buyer new_event /\
                   window_start <= timestamp ev0).
  { intros Hin. destruct (IH Hin) as (ev0 & Hev0 & Hrest).
    exists ev0. split; [by apply list_elem_of_further | done]. }
  case_bool_decide as Hmint; simpl; [|done].
  case_bool_decide as Hbuyer; simpl; [done|].
  intros [->|Hin]%elem_of_cons; [|by apply Hrec].
  exists ev. split_and!; [apply list_elem_of_here|done..].
Qed.

(** The scan counts buy events, one entry per event: on a buffer in
    arrival order, the number of collected entries is the number of
    buys on the mint by other wallets since the start of the window. *)
Lemma scan_recent_length window_start new_event newest_first :
  StronglySorted (fun a b => timestamp b <= timestamp a) newest_first ->
  scan_recent window_start new_event newest_first
  = map buyer
      (filter (fun x => token_mint x = token_mint new_event /\
                        buyer x <> buyer new_event /\
                        window_start <= timestamp x) newest_first).
Proof.
  induction newest_first as [|ev older IH]; simpl; intros Hs; [done|].
  apply StronglySorted_inv in Hs as [Hs Hall].
  destruct (Z.ltb_spec (timestamp ev) window_start) as [Hlt|Hge].
  - rewrite filter_cons_False by lia.
    rewrite filter_none; [done|].
    eapply Forall_impl; [exact Hall|]. simpl. intros; lia.
  - rewrite (IH Hs).
    case_bool_decide as Hmint; simpl.
    + case_bool_decide as Hbuyer; simpl.
      * by rewrite filter_cons_False by naive_solver.
      * by rewrite filter_cons_True by done.
    + by rewrite filter_cons_False by naive_solver.
Qed.

(** C1 (the code departs from it).  Wallet A buys MintX twice, 5 seconds
    apart, and wallet C buys MintX 3 seconds later.  Only one wallet other
    than C bought MintX within the window, fewer than
    [MIN_GROUP_SIZE - 1 = 2]; yet on C's event [find_groups] collects the
    two buys of A, forms the group [{A, C}] of two addresses and records
    a sighting and a vote for it. *)
Theorem find_groups_counts_buys_not_wallets :
  let a1 := mkBuyEvent 0 "A" "MintX" 10 "PumpFun" in
  let a2 := mkBuyEvent (Time.seconds 5) "A" "MintX" 20 "PumpFun" in
  let c := mkBuyEvent (Time.seconds 8) "C" "MintX" 30 "PumpFun" in
  let st := mkState [a1; a2; c] ∅ ∅ ∅ in
  let now := Time.seconds 8 in
  size (wallets_in_window now c (recent_buys st)) = 1%nat /\
  matched_buyers now c (recent_buys st) = ["A"; "A"] /\
  forms_group now c st = true /\
  exists st',
    find_groups now now c st = Some (st', None) /\
    group_sightings st' !! ({[ "A"; "C" ]} : gset string) = Some ["MintX"] /\
    group_first_buyer st' !! ({[ "A"; "C" ]} : gset string) = Some ["C"].
Proof.
  intros a1 a2 c st now.
  split_and!; [by vm_compute..|].
  assert (Hrun :
    match find_groups now now c st with
    | Some (st', None) =>
        bool_decide
          (group_sightings st' !! ({[ "A"; "C" ]} : gset string)
           = Some ["MintX"]) &&
        bool_decide
          (group_first_buyer st' !! ({[ "A"; "C" ]} : gset string)
           = Some ["C"])
    | _ => false
    end = true) by (vm_compute; reflexivity).
  destruct (find_groups now now c st) as [[st' [a|]]|]; [done| |done].
  apply andb_true_iff in Hrun as [H1 H2].
  exists st'. split_and!; [done|by apply bool_decide_eq_true in H1
                          |by apply bool_decide_eq_true in H2].
Qed.

(** C10.  Scenario: A, B and C buy MintX at [t0], [t0 + 5s] and
    [t0 + 8s].  Processing A's and B's events forms no group; processing
    C's event forms the group [{A, B, C}], recorded with the sighting
    MintX and the first-buyer vote C, the wallet of the triggering event
    (not A, the earliest buyer). *)
Theorem scenario_group_on_third_buyer
    (t0 clockA clockB clockC amtA amtB amtC : Z) (mktA mktB mktC : string) :
  exists s1 s2 s3,
    process_buy t0 clockA "A" "MintX" amtA mktA initial = Some (s1, None) /\
    group_sightings s1 = ∅ /\ group_first_buyer s1 = ∅ /\
    process_buy (t0 + Time.seconds 5) clockB "B" "MintX" amtB mktB s1
    = Some (s2, None) /\
    group_sightings s2 = ∅ /\ group_first_buyer s2 = ∅ /\
    process_buy (t0 + Time.seconds 8) clockC "C" "MintX" amtC mktC s2
    = Some (s3, None) /\
    group_sightings s3
    = {[ ({[ "A"; "B"; "C" ]} : gset string) := ["MintX"] ]} /\
    group_first_buyer s3
    = {[ ({[ "A"; "B"; "C" ]} : gset string) := ["C"] ]}.
Proof.
  set (eA := mkBuyEvent t0 "A" "MintX" amtA mktA).
  set (eB := mkBuyEvent (t0 + Time.seconds 5) "B" "MintX" amtB mktB).
  set (eC := mkBuyEvent (t0 + Time.seconds 8) "C" "MintX" amtC mktC).
  set (G := ({[ "A"; "B"; "C" ]} : gset string)).
  exists (mkState [eA] ∅ ∅ ∅), (mkState [eA; eB] ∅ ∅ ∅),
    (mkState [eA; eB; eC] {[ G := ["MintX"] ]} {[ G := ["C"] ]} ∅).
  split_and!; try reflexivity.
  - unfold process_buy, find_groups, matched_buyers, prune_old_events, initial.
    simpl. ltb_lia. simpl. ltb_lia. str_dec. simpl. reflexivity.
  - unfold process_buy, find_groups, matched_buyers, prune_old_events.
    simpl. ltb_lia. simpl. ltb_lia. str_dec. simpl. ltb_lia. str_dec. simpl.
    reflexivity.
  - unfold process_buy, find_groups, matched_buyers, prune_old_events.
    simpl. ltb_lia. simpl. ltb_lia. str_dec. simpl. ltb_lia. str_dec. simpl.
    ltb_lia. str_dec. simpl.
    assert (HG : ({["B"]} ∪ ({["A"]} ∪ ({["C"]} ∪ ∅)) : gset string) = G)
      by (by vm_compute).
    rewrite HG.
    erewrite analyze_group_below;
      [|simpl; apply dd_append_lookup|by vm_compute].
    reflexivity.
Qed.

End SmartMoneyGroups.

(** ** strategy2.py: the fast-sell detector *)

Module FastSellFacts.
Import FastSell FastSellSpec.

(** [fetch_market_cap] always returns, and returns 0 whenever the fetch
    fails or yields no value. *)
Lemma fetch_failure_yields_zero (r : http_result) :
  fetch_fails r = true -> fetch_market_cap r = 0%Q.
Proof.
  destruct r as [|status_code body]; [done|]. simpl.
  destruct (Z.eqb_spec status_code 200) as [->|Hne]; [|done]. simpl.
  destruct body as [| |[|[|v|]|]]; done.
Qed.

(** The scan stops at the first buy of the history that the sell
    follows within the window, and what it logs there is decided by the
    market-cap filter alone. *)
Lemma scan_history_first_match net event relevant caps past :
  is_sell event = true ->
  past ∈ relevant -> is_sell past = false ->
  0 < timestamp event - timestamp past <= Time.seconds TIME_WINDOW_SECONDS ->
  exists caps' time_diff,
    scan_history net event relevant caps
    = (caps',
       if Qle_bool (market_cap_seen net (mint event) caps) MARKET_CAP_THRESHOLD
       then Some (mkAlert (buyer event) (mint event) time_diff
                          (market_cap_seen net (mint event) caps))
       else None).
Proof.
  intros Hsell Hin Hbuy Hdiff.
  induction relevant as [|e rest IH]; [by apply elem_of_nil in Hin|].
  simpl. rewrite Hsell, andb_true_r.
  destruct (is_sell e) eqn:He; simpl.
  - apply IH. apply elem_of_cons in Hin as [->|Hin]; [congruence|done].
  - destruct ((0 <? timestamp event - timestamp e)
              && (timestamp event - timestamp e
                  <=? Time.seconds TIME_WINDOW_SECONDS)) eqn:Hwin.
    + unfold market_cap_seen.
      destruct (Qeq_bool (default (0 : Q) (caps !! mint event)) 0); eauto.
    + apply IH. apply elem_of_cons in Hin as [->|Hin]; [|done].
      apply andb_false_iff in Hwin as [Hlo%Z.ltb_ge|Hhi%Z.leb_gt]; lia.
Qed.

(** C2 (the code departs from it).  Wallet X buys MintY and sells it 20
    seconds later, and the market-cap fetch fails: by a network error or
    timeout, an HTTP error status, a body that is not JSON, no pairs, or
    no FDV.  In each case [fetch_market_cap] returns 0 without raising,
    and the detector emits the alert, with market cap 0: the filter
    [cap <= MARKET_CAP_THRESHOLD] lets the unknown market cap through. *)
Theorem failed_fetch_alerts_anyway :
  Forall (fun r =>
            fetch_fails r = true /\
            fetch_market_cap r = 0%Q /\
            snd (run_events (fun _ => r) one_round_trip initial)
            = [mkAlert "X" "MintY" (Time.seconds 20) 0%Q])
         failure_modes.
Proof. repeat constructor. Qed.

End FastSellFacts.

Module FastSellRepeats.
Import FastSell FastSellSpec FastSellFacts.

(** Two fast round trips of the same wallet within 20 seconds: the
    detector emits an alert at each of the two sells. *)
Lemma fast_sell_alerts_twice :
  snd (run_events small_cap_net two_round_trips initial)
  = [ mkAlert "X" "MintY" (Time.seconds 10) (100000 # 1);
      mkAlert "X" "MintY" (Time.seconds 20) (100000 # 1) ].
Proof. reflexivity. Qed.

Lemma filter_length_elem {A : Type} (P : A -> Prop)
    `{forall x, Decision (P x)} (l : list A) (x : A) :
  x ∈ l -> P x -> (1 <= length (filter P l))%nat.
Proof.
  intros Hin HP.
  assert (Hf : x ∈ filter P l) by (by apply list_elem_of_filter).
  destruct (filter P l); [by apply elem_of_nil in Hf | simpl; lia].
Qed.

(** C9, as the code has it.  Of the streaming detectors only the
    co-occurrence detector suppresses repeat alerts: there a qualifying
    promotion is suppressed while the wallet's last alert is at most the
    cooldown old.  The fast-sell detector keeps no record of its alerts:
    whatever its stores hold, a sell that follows a buy of the same
    wallet and mint by more than 0 and at most [TIME_WINDOW_SECONDS]
    emits an alert whenever the market cap seen is at most the
    threshold, so a wallet just alerted is alerted again. *)
Theorem only_cooccurrence_suppresses_repeats :
  (forall clock group st w,
     SmartMoneySpec.qualifying_promotion st group w ->
     SmartMoneySpec.last_alert_within clock w st ->
     SmartMoneySpec.emitted (SmartMoney.analyze_group clock group st) = None)
  /\
  (forall net now b m amt st past,
     past ∈ default [] (buyer_histories st !! b) ->
     mint past = m -> is_sell past = false ->
     0 < now - timestamp past <= Time.seconds TIME_WINDOW_SECONDS ->
     Qle_bool (market_cap_seen net m (token_market_caps st))
              MARKET_CAP_THRESHOLD = true ->
     exists st' a,
       process_event net now b m amt true st = (st', Some a) /\
       alert_buyer a = b /\ alert_mint a = m /\
       alert_cap a = market_cap_seen net m (token_market_caps st)).
Proof.
  split.
  - intros clock group st w Hq (last_log & Hlast & Hle).
    rewrite (SmartMoneyVoting.analyze_group_majority clock group st w Hq).
    rewrite Hlast.
    destruct (Z.gtb_spec (clock - last_log)
                (Time.seconds SmartMoney.LEADER_LOG_COOLDOWN_SECONDS));
      [lia|done].
  - intros net now b m amt st past Hin Hmint Hbuy Hdiff Hcap.
    unfold process_event, analyze_fast_traders.
    cbn [buyer mint buyer_histories token_market_caps recent_events].
    rewrite dd_get_dd_append.
    set (event := mkEvent now b m amt true).
    set (history := default [] (buyer_histories st !! b) ++ [event]).
    assert (Hpast : past ∈ filter (fun e => mint e = m) history).
    { apply list_elem_of_filter. split; [done|].
      apply elem_of_app. by left. }
    assert (Hlen : (2 <= length (filter (fun e => mint e = m) history))%nat).
    { unfold history. rewrite filter_app, length_app.
      rewrite (filter_cons_True _ event []) by done. simpl.
      pose proof (filter_length_elem (fun e => mint e = m) _ past Hin Hmint).
      lia. }
    rewrite bool_decide_eq_false_2 by lia.
    destruct (scan_history_first_match net event
                (filter (fun e => mint e = m) history)
                (token_market_caps st) past)
      as (caps' & time_diff & Hscan); [done|done|done|done|].
    rewrite Hscan. cbn [mint buyer event] in *. rewrite Hcap.
    eexists _, _. split; [reflexivity|]. done.
Qed.

Lemma only_cooccurrence_suppresses_repeats_witness :
  SmartMoneySpec.emitted
    (SmartMoney.analyze_group (Time.seconds 300) SmartMoneySpec.sample_group
       (SmartMoneySpec.sample_state ["C"; "A"; "C"] {[ "C" := 0 ]})) = None /\
  exists st' a,
    process_event small_cap_net (Time.seconds 20) "X" "MintY" 100 true
                  after_first_buy = (st', Some a) /\
    alert_buyer a = "X" /\ alert_mint a = "MintY" /\
    alert_cap a
    = market_cap_seen small_cap_net "MintY" (token_market_caps after_first_buy).
Proof.
  split.
  - apply (proj1 only_cooccurrence_suppresses_repeats (Time.seconds 300)
             SmartMoneySpec.sample_group
             (SmartMoneySpec.sample_state ["C"; "A"; "C"] {[ "C" := 0 ]}) "C").
    + split; by_evaluation.
    + exists 0. split; [apply lookup_singleton_eq | by_evaluation].
  - apply (proj2 only_cooccurrence_suppresses_repeats small_cap_net
             (Time.seconds 20) "X" "MintY" 100 after_first_buy
             (mkEvent 0 "X" "MintY" 100 false)).
    + unfold after_first_buy. cbn [buyer_histories].
      rewrite lookup_singleton_eq. apply list_elem_of_here.
    + reflexivity.
    + reflexivity.
    + by_evaluation.
    + by_evaluation.
Defined.

End FastSellRepeats.

(** ** clickhouseDB/killFollowStrategy.py *)

Section OrderedDictInvariants.
Context {K : Type} `{EqDecision K} {V : Type}.

Lemma od_alter_Forall (P : V -> Prop) (f : V -> V) dflt (k : K)
    (d : list (K * V)) :
  P (f dflt) -> (forall v, P v -> P (f v)) ->
  Forall (fun kv => P (snd kv)) d ->
  Forall (fun kv => P (snd kv)) (od_alter f dflt k d).
Proof.
  intros Hd Hf. induction 1 as [|[k0 v0] rest Hv Hrest IH]; simpl.
  - by repeat constructor.
  - destruct (decide (k0 = k)); constructor; simpl in *; auto.
Qed.

Lemma od_lookup_None_keys (k : K) (d : list (K * V)) :
  od_lookup k d = None <-> k ∉ d.*1.
Proof.
  induction d as [|[k0 v0] rest IH]; csimpl.
  - split; [intros _; apply not_elem_of_nil | done].
  - rewrite not_elem_of_cons. destruct (decide (k0 = k)) as [->|Hne].
    + split; [done | by intros [? _]].
    + rewrite IH. split; [by intros ?; split; [congruence|] | by intros [_ ?]].
Qed.
End OrderedDictInvariants.

Module KillFollowFacts.
Import KillFollow KillFollowSpec.

Lemma collect_trades_snoc rows r :
  collect_trades (rows ++ [r])
  = od_alter (od_append (mint r) (ts r, tx_type r)) [] (trader r)
             (collect_trades rows).
Proof. unfold collect_trades. by rewrite foldl_snoc. Qed.

Lemma actions_of_snoc rows r trd mnt :
  actions_of (rows ++ [r]) trd mnt
  = actions_of rows trd mnt
    ++ (if decide (trader r = trd /\ mint r = mnt)
        then [(ts r, tx_type r)] else []).
Proof.
  unfold actions_of. rewrite filter_app, map_app. f_equal.
  destruct (decide (trader r = trd /\ mint r = mnt)).
  - by rewrite filter_cons_True.
  - by rewrite filter_cons_False.
Qed.

(** [trades[trd][mnt]] is the list of the trader's actions on the mint. *)
Lemma collect_trades_lookup rows trd mnt :
  default [] (od_lookup mnt (default [] (od_lookup trd (collect_trades rows))))
  = actions_of rows trd mnt.
Proof.
  induction rows as [|r rows IH] using rev_ind; [done|].
  rewrite collect_trades_snoc, actions_of_snoc, <- IH. clear IH.
  rewrite od_lookup_alter.
  destruct (decide (trader r = trd)) as [<-|Ht].
  - change (default [] (Some ?x)) with x. unfold od_append.
    rewrite od_lookup_alter.
    destruct (decide (mint r = mnt)) as [<-|Hm].
    + by rewrite decide_True.
    + rewrite decide_False by naive_solver. by rewrite app_nil_r.
  - rewrite decide_False by naive_solver. by rewrite app_nil_r.
Qed.

Lemma collect_trades_NoDup rows :
  NoDup (collect_trades rows).*1 /\
  Forall (fun kv => NoDup (snd kv).*1) (collect_trades rows).
Proof.
  induction rows as [|r rows [IH1 IH2]] using rev_ind.
  - split; constructor.
  - rewrite collect_trades_snoc. split; [by apply od_alter_NoDup|].
    apply (od_alter_Forall (fun md : list (string * list action) => NoDup md.*1));
      [| |done].
    + apply NoDup_singleton.
    + intros md Hmd. by apply od_alter_NoDup.
Qed.

(** Every entry of [trades] holds exactly the trader's actions on that
    mint, and every pair with an action has an entry. *)
Lemma collect_trades_entry rows trd mint_dict mnt actions :
  (trd, mint_dict) ∈ collect_trades rows -> (mnt, actions) ∈ mint_dict ->
  actions = actions_of rows trd mnt.
Proof.
  intros Ht Hm. destruct (collect_trades_NoDup rows) as [Hnd Hall].
  pose proof (proj1 (Forall_forall _ _) Hall _ Ht) as Hnd'. simpl in Hnd'.
  rewrite <- collect_trades_lookup.
  rewrite (od_elem_lookup _ _ _ Hnd Ht). simpl.
  by rewrite (od_elem_lookup _ _ _ Hnd' Hm).
Qed.

Lemma collect_trades_has_entry rows trd mnt :
  actions_of rows trd mnt <> [] ->
  exists mint_dict,
    (trd, mint_dict) ∈ collect_trades rows /\
    (mnt, actions_of rows trd mnt) ∈ mint_dict.
Proof.
  intros Hne. rewrite <- collect_trades_lookup in Hne |- *.
  destruct (od_lookup trd (collect_trades rows)) as [md|] eqn:Ht; [|done].
  simpl in *. exists md. split; [by apply od_lookup_Some_elem|].
  destruct (od_lookup mnt md) as [acts|] eqn:Hm; [|done].
  simpl. by apply od_lookup_Some_elem.
Qed.

End KillFollowFacts.

(** In a list sorted for an order that refines the order of a key, what
    stands before an item has a key at most its key, and what stands after
    has a key at least its key. *)
Lemma sorted_by_key_split {A : Type} (R : relation A) (key : A -> Z)
    (l before later : list A) (x : A) :
  (forall a b, R a b -> key a <= key b) ->
  Sorted R l -> l = before ++ x :: later ->
  Forall (fun a => key a <= key x) before /\
  Forall (fun a => key x <= key a) later.
Proof.
  intros HR Hs ->.
  apply (Sorted_fmap key R Z.le _ HR) in Hs.
  apply (Sorted_StronglySorted Z.le _) in Hs.
  rewrite fmap_app, fmap_cons in Hs.
  apply StronglySorted_app in Hs as (Hcross & _ & Hright).
  apply StronglySorted_inv in Hright as [_ Hlater].
  split.
  - apply Forall_forall. intros a Ha. apply Hcross.
    + apply list_elem_of_fmap. by exists a.
    + apply list_elem_of_here.
  - apply Forall_forall. intros a Ha.
    apply (proj1 (Forall_forall _ _) Hlater).
    apply list_elem_of_fmap. by exists a.
Qed.

Module KillFollowScan.
Import KillFollow KillFollowSpec KillFollowFacts.

Lemma tokens_of_append trd' trd mnt susp :
  tokens_of trd' (od_append trd mnt susp)
  = tokens_of trd' susp ++ (if decide (trd = trd') then [mnt] else []).
Proof.
  unfold tokens_of, od_append. rewrite od_lookup_alter.
  destruct (decide (trd = trd')) as [->|]; [done | by rewrite app_nil_r].
Qed.

Lemma tokens_of_iter trd' trd mnt n susp :
  tokens_of trd' (Nat.iter n (od_append trd mnt) susp)
  = tokens_of trd' susp ++ (if decide (trd = trd') then replicate n mnt else []).
Proof.
  induction n as [|n IH].
  - simpl. destruct (decide (trd = trd')); by rewrite app_nil_r.
  - rewrite Nat.iter_succ, tokens_of_append, IH.
    destruct (decide (trd = trd')).
    + by rewrite replicate_S_end, app_assoc.
    + by rewrite !app_nil_r.
Qed.

(** The outer loop appends the mint once for each buy at which the inner
    loop finds a sell. *)
Lemma scan_actions_iter mh trd mnt actions susp :
  scan_actions mh trd mnt actions susp
  = Nat.iter (round_trips mh actions) (od_append trd mnt) susp.
Proof.
  revert susp. induction actions as [|[ts_i type_i] later IH]; intros susp;
    [done|].
  cbn [scan_actions round_trips].
  destruct (bool_decide (type_i = "buy")); cbn [negb andb];
    [|by rewrite IH].
  destruct (first_sell_within mh ts_i later); [|by rewrite IH].
  rewrite IH. change (1 + ?n)%nat with (S n). by rewrite Nat.iter_succ_r.
Qed.

Lemma round_trips_le_buys mh actions :
  (round_trips mh actions <= length (buys actions))%nat.
Proof.
  unfold buys. induction actions as [|[ts_i type_i] later IH]; [done|].
  cbn [round_trips]. rewrite filter_cons.
  case_decide as Hbuy; simpl in Hbuy.
  - destruct (bool_decide (type_i = "buy") && first_sell_within mh ts_i later);
      cbv iota; cbn [length].
    + apply le_n_S, IH.
    + apply Nat.le_le_succ_r, IH.
  - rewrite bool_decide_eq_false_2 by done. exact IH.
Qed.

Lemma iter_append_NoDup trd mnt n (susp : list (string * list string)) :
  NoDup susp.*1 -> NoDup (Nat.iter n (od_append trd mnt) susp).*1.
Proof.
  intros Hnd. induction n as [|n IH]; [done|].
  rewrite Nat.iter_succ. by apply od_alter_NoDup.
Qed.

Lemma scan_mints_NoDup mh trd mint_dict susp :
  NoDup susp.*1 -> NoDup (scan_mints mh trd mint_dict susp).*1.
Proof.
  unfold scan_mints. revert susp.
  induction mint_dict as [|[mnt actions] rest IH]; intros susp Hnd; [done|].
  simpl. apply IH. rewrite scan_actions_iter. by apply iter_append_NoDup.
Qed.

Lemma scan_trades_NoDup mh trades : NoDup (scan_trades mh trades).*1.
Proof.
  unfold scan_trades.
  assert (H : forall susp : list (string * list string), NoDup susp.*1 ->
    NoDup (foldl (fun s '(trd, md) => scan_mints mh trd md s) susp trades).*1).
  { induction trades as [|[trd md] rest IH]; intros susp Hnd; [done|].
    simpl. apply IH. by apply scan_mints_NoDup. }
  apply H. constructor.
Qed.

(** The tokens recorded against a trader after the mints of one trader
    were scanned. *)
Lemma scan_mints_tokens mh trd mint_dict susp trd' x :
  x ∈ tokens_of trd' (scan_mints mh trd mint_dict susp) <->
  x ∈ tokens_of trd' susp \/
  (trd = trd' /\ exists actions,
      (x, actions) ∈ mint_dict /\
      (0 < round_trips mh (merge_sort action_le actions))%nat).
Proof.
  unfold scan_mints. revert susp.
  induction mint_dict as [|[mnt actions] rest IH]; intros susp.
  - simpl. split; [by left|].
    intros [?|(_ & a & Ha & _)]; [done | by apply elem_of_nil in Ha].
  - simpl. rewrite IH, scan_actions_iter, tokens_of_iter, elem_of_app.
    split.
    + intros [[Hx|Hx]|(Ht & a & Ha & Hpos)].
      * by left.
      * destruct (decide (trd = trd')) as [Ht|];
          [|by apply elem_of_nil in Hx].
        apply elem_of_replicate in Hx as [-> Hn].
        right. split; [done|]. exists actions.
        split; [apply list_elem_of_here | lia].
      * right. split; [done|]. exists a.
        split; [by apply list_elem_of_further | done].
    + intros [Hx|(Ht & a & Ha & Hpos)]; [by left; left|].
      apply elem_of_cons in Ha as [[= -> ->]|Ha].
      * left; right. rewrite decide_True by done.
        apply elem_of_replicate. split; [done|lia].
      * right. split; [done|]. by exists a.
Qed.

Lemma scan_trades_tokens mh trades trd' x :
  x ∈ tokens_of trd' (scan_trades mh trades) <->
  exists mint_dict actions,
    (trd', mint_dict) ∈ trades /\ (x, actions) ∈ mint_dict /\
    (0 < round_trips mh (merge_sort action_le actions))%nat.
Proof.
  unfold scan_trades.
  assert (H : forall susp : list (string * list string),
    x ∈ tokens_of trd'
          (foldl (fun s '(trd, md) => scan_mints mh trd md s) susp trades) <->
    x ∈ tokens_of trd' susp \/
    exists mint_dict actions,
      (trd', mint_dict) ∈ trades /\ (x, actions) ∈ mint_dict /\
      (0 < round_trips mh (merge_sort action_le actions))%nat).
  { induction trades as [|[trd md] rest IH]; intros susp.
    - simpl. split; [by left|].
      intros [?|(m & a & Hm & _)]; [done | by apply elem_of_nil in Hm].
    - simpl. rewrite IH, scan_mints_tokens. split.
      + intros [[Hx|(-> & a & Ha & Hpos)]|(m & a & Hm & Ha & Hpos)].
        * by left.
        * right. exists md, a. split_and!; [apply list_elem_of_here|done..].
        * right. exists m, a.
          split_and!; [by apply list_elem_of_further|done..].
      + intros [Hx|(m & a & Hm & Ha & Hpos)]; [by left; left|].
        apply elem_of_cons in Hm as [[= -> ->]|Hm].
        * left; right. split; [done|]. by exists a.
        * right. by exists m, a. }
  rewrite H. split; [|by right].
  intros [Hx|?]; [|done]. by apply elem_of_nil in Hx.
Qed.

End KillFollowScan.

Lemma size_two_distinct {A : Type} `{Countable A} (X : gset A) :
  (2 <= size X)%nat <-> exists m1 m2, m1 <> m2 /\ m1 ∈ X /\ m2 ∈ X.
Proof.
  split.
  - intros Hsize.
    destruct (set_choose_L X) as [m1 Hm1].
    { intros ->. rewrite size_empty in Hsize. lia. }
    destruct (set_choose_L (X ∖ {[m1]})) as [m2 Hm2].
    { intros Hempty.
      assert (Hsub : X ⊆ ({[m1]} : gset A)).
      { intros x Hx. apply elem_of_singleton.
        destruct (decide (x = m1)) as [|Hne]; [done|].
        assert (Hin : x ∈ X ∖ {[m1]}).
        { apply elem_of_difference. split; [done|].
          by rewrite elem_of_singleton. }
        rewrite Hempty in Hin. by apply not_elem_of_empty in Hin. }
      apply subseteq_size in Hsub. rewrite size_singleton in Hsub. lia. }
    apply elem_of_difference in Hm2 as [Hm2 Hne].
    rewrite elem_of_singleton in Hne.
    exists m1, m2. split_and!; [congruence|done|done].
  - intros (m1 & m2 & Hne & H1 & H2).
    assert (Hsub : ({[m1]} ∪ {[m2]} : gset A) ⊆ X).
    { intros x [Hx|Hx]%elem_of_union; apply elem_of_singleton in Hx;
        by subst x. }
    apply subseteq_size in Hsub.
    rewrite size_union, !size_singleton in Hsub; [lia|].
    apply disjoint_singleton_l. by rewrite elem_of_singleton.
Qed.

Module KillFollowTheory.
Import KillFollow KillFollowSpec KillFollowFacts KillFollowScan.

Lemma action_le_total : Total action_le.
Proof.
  intros [t1 s1] [t2 s2]. unfold action_le. simpl.
  destruct (Z.lt_trichotomy t1 t2) as [?|[->|?]]; [by left; left| |by right; left].
  destruct (total String.le s1 s2); [left|right]; by right.
Qed.

Lemma action_le_ts (a b : action) : action_le a b -> fst a <= fst b.
Proof. unfold action_le. lia. Qed.

Lemma merge_sort_actions_Sorted actions :
  Sorted action_le (merge_sort action_le actions).
Proof. apply (@Sorted_merge_sort _ action_le _ action_le_total). Qed.

Lemma elem_of_merge_sort_actions (a : action) actions :
  a ∈ merge_sort action_le actions <-> a ∈ actions.
Proof. by rewrite merge_sort_Permutation. Qed.

(** The inner loop succeeds exactly when a later sell lies within the
    holding time. *)
Lemma first_sell_within_true mh ts_i later :
  first_sell_within mh ts_i later = true <->
  exists ts_j, (ts_j, "sell") ∈ later /\ 0 < ts_j - ts_i <= Time.seconds mh.
Proof.
  induction later as [|[ts_j type_j] rest IH]; simpl.
  - split; [done|]. by intros (t & Ht%elem_of_nil & _).
  - case_bool_decide as Hsell; simpl.
    + subst type_j.
      destruct ((0 <? ts_j - ts_i) && (ts_j - ts_i <=? Time.seconds mh))
        eqn:Hwin.
      * apply andb_true_iff in Hwin as [Hlo%Z.ltb_lt Hhi%Z.leb_le].
        split; [|done]. intros _. exists ts_j.
        split; [apply list_elem_of_here | lia].
      * rewrite IH. split.
        -- intros (t & Ht & Hd). exists t.
           split; [by apply list_elem_of_further | done].
        -- intros (t & Ht & Hd).
           apply elem_of_cons in Ht as [[= ->]|Ht]; [|by exists t].
           apply andb_false_iff in Hwin as [?%Z.ltb_ge|?%Z.leb_gt]; lia.
    + rewrite IH. split.
      * intros (t & Ht & Hd). exists t.
        split; [by apply list_elem_of_further | done].
      * intros (t & Ht & Hd).
        apply elem_of_cons in Ht as [[= -> <-]|Ht]; [done | by exists t].
Qed.

Lemma round_trips_pos mh actions :
  (0 < round_trips mh actions)%nat <->
  exists before ts_i later,
    actions = before ++ (ts_i, "buy") :: later /\
    first_sell_within mh ts_i later = true.
Proof.
  induction actions as [|[ts_i type_i] rest IH]; cbn [round_trips].
  - split; [lia|]. intros (b & t & l & Heq & _). by destruct b.
  - split.
    + intros Hpos.
      destruct (bool_decide (type_i = "buy") && first_sell_within mh ts_i rest)
        eqn:Hhere.
      * apply andb_true_iff in Hhere as [->%bool_decide_eq_true Hf].
        by exists [], ts_i, rest.
      * destruct (proj1 IH) as (b & t & l & -> & Hf); [simpl in Hpos; lia|].
        by exists ((ts_i, type_i) :: b), t, l.
    + intros (b & t & l & Heq & Hf). destruct b as [|a b]; simpl in Heq.
      * injection Heq as -> -> ->.
        rewrite bool_decide_eq_true_2, Hf by done. simpl. lia.
      * injection Heq as <- ->.
        assert (0 < round_trips mh (b ++ (t, "buy") :: l))%nat
          by (apply IH; by exists b, t, l).
        lia.
Qed.

(** In the sorted list of a trader's actions on a mint, the inner loop
    started at a buy succeeds iff the list holds a sell [k] after the
    buy with [0 < k <= max_hold_time_sec]: sells standing before the buy
    are not later than it. *)
Lemma flagged_iff mh (l before later : list action) ts_i :
  Sorted action_le l -> l = before ++ (ts_i, "buy") :: later ->
  first_sell_within mh ts_i later = true <->
  exists k, 0 < k <= Time.seconds mh /\ (ts_i + k, "sell") ∈ l.
Proof.
  intros Hs Heq.
  destruct (sorted_by_key_split action_le fst l before later (ts_i, "buy")
              action_le_ts Hs Heq) as [Hbefore _].
  rewrite first_sell_within_true. subst l. split.
  - intros (ts_j & Hin & Hd). exists (ts_j - ts_i). split; [lia|].
    replace (ts_i + (ts_j - ts_i)) with ts_j by lia.
    apply elem_of_app. right. by apply list_elem_of_further.
  - intros (k & Hk & Hin). exists (ts_i + k). split; [|lia].
    apply elem_of_app in Hin as [Hin|Hin].
    + pose proof (proj1 (Forall_forall _ _) Hbefore _ Hin) as Hle.
      simpl in Hle. lia.
    + by apply elem_of_cons in Hin as [[=]|Hin].
Qed.

(** A mint is recorded against a trader iff the trader made a round
    trip on it. *)
Lemma round_trips_round_trip mh rows trd mnt :
  (0 < round_trips mh (merge_sort action_le (actions_of rows trd mnt)))%nat
  <-> round_trip mh rows trd mnt.
Proof.
  pose proof (merge_sort_actions_Sorted (actions_of rows trd mnt)) as Hs.
  rewrite round_trips_pos. unfold round_trip. split.
  - intros (b & t & l & Heq & Hf).
    apply (flagged_iff mh _ b l t Hs Heq) in Hf as (k & Hk & Hin).
    exists t, k. split_and!; [| |lia..].
    + apply elem_of_merge_sort_actions. rewrite Heq.
      apply elem_of_app. right. apply list_elem_of_here.
    + by apply elem_of_merge_sort_actions.
  - intros (t0 & k & Hbuy & Hsell & Hk).
    apply elem_of_merge_sort_actions in Hbuy, Hsell.
    destruct (list_elem_of_split _ _ Hbuy) as (b & l & Heq).
    exists b, t0, l. split; [done|].
    apply (flagged_iff mh _ b l t0 Hs Heq). by exists k.
Qed.

Lemma tokens_round_trip mh rows trd mnt :
  mnt ∈ tokens_of trd (scan_trades mh (collect_trades rows)) <->
  round_trip mh rows trd mnt.
Proof.
  rewrite scan_trades_tokens, <- round_trips_round_trip. split.
  - intros (md & actions & Hmd & Ha & Hpos).
    by rewrite <- (collect_trades_entry rows trd md mnt actions).
  - intros Hpos.
    destruct (collect_trades_has_entry rows trd mnt) as (md & Hmd & Ha).
    { intros Hnil. rewrite Hnil in Hpos. simpl in Hpos. lia. }
    by exists md, (actions_of rows trd mnt).
Qed.

(** A trader is a key of the result iff two distinct mints are recorded
    against it. *)
Lemma detect_leader_keys mh rows w :
  w ∈ (detect_leader mh rows).*1 <->
  (2 <= size (list_to_set
                (tokens_of w (scan_trades mh (collect_trades rows)))
              : gset string))%nat.
Proof.
  unfold detect_leader.
  set (susp := scan_trades mh (collect_trades rows)).
  pose proof (scan_trades_NoDup mh (collect_trades rows)) as Hnd.
  fold susp in Hnd. rewrite list_elem_of_fmap. split.
  - intros ([w' toks] & -> & Hin). simpl.
    apply list_elem_of_omap in Hin as ([addr tokens] & Hin & Hsome).
    case_bool_decide as Hsize; [|done]. injection Hsome as <- <-.
    unfold tokens_of. by rewrite (od_elem_lookup _ _ _ Hnd Hin).
  - intros Hsize. unfold tokens_of in Hsize.
    destruct (od_lookup w susp) as [tokens|] eqn:Hl.
    + simpl in Hsize.
      exists (w, elements (list_to_set tokens : gset string)).
      split; [done|]. apply list_elem_of_omap. exists (w, tokens).
      split; [by apply od_lookup_Some_elem|].
      by rewrite bool_decide_eq_true_2.
    + exfalso. revert Hsize.
      change ((2 <= size (∅ : gset string))%nat -> False).
      rewrite size_empty. lia.
Qed.

(** C3.  For the sorted actions of a wallet on a token:
    - a buy at [t0] is flagged (the inner loop reaches its [append]) iff
      the wallet has a sell on the token at [t0 + k] with
      [0 < k <= max_hold_time_sec];
    - each buy records the token at most once: scanning the actions
      appends the token once per flagged buy and nothing else;
    - a wallet is a key of the returned dict iff it made such a round
      trip on at least 2 distinct tokens, and the value returned with it
      lists exactly the tokens of its round trips. *)
Theorem kill_follow_round_trips (max_hold_time_sec : Z) (rows : list row) :
  (forall trd mnt before t0 later,
     merge_sort action_le (actions_of rows trd mnt)
     = before ++ (t0, "buy") :: later ->
     first_sell_within max_hold_time_sec t0 later = true <->
     exists k,
       0 < k <= Time.seconds max_hold_time_sec /\
       (t0 + k, "sell") ∈ actions_of rows trd mnt)
  /\
  (forall trd mnt actions suspicious,
     tokens_of trd (scan_actions max_hold_time_sec trd mnt actions suspicious)
     = tokens_of trd suspicious
       ++ replicate (round_trips max_hold_time_sec actions) mnt /\
     (round_trips max_hold_time_sec actions <= length (buys actions))%nat)
  /\
  (forall w,
     w ∈ (detect_leader max_hold_time_sec rows).*1 <->
     exists m1 m2,
       m1 <> m2 /\ round_trip max_hold_time_sec rows w m1 /\
       round_trip max_hold_time_sec rows w m2)
  /\
  (forall w tokens,
     (w, tokens) ∈ detect_leader max_hold_time_sec rows ->
     forall m, m ∈ tokens <-> round_trip max_hold_time_sec rows w m).
Proof.
  split_and!.
  - intros trd mnt before t0 later Heq.
    rewrite (flagged_iff max_hold_time_sec _ before later t0
               (merge_sort_actions_Sorted _) Heq).
    split; intros (k & Hk & Hin); exists k; (split; [done|]);
      by apply elem_of_merge_sort_actions.
  - intros trd mnt actions suspicious. split.
    + rewrite scan_actions_iter, tokens_of_iter. by rewrite decide_True.
    + apply round_trips_le_buys.
  - intros w. rewrite detect_leader_keys, size_two_distinct.
    split; intros (m1 & m2 & Hne & H1 & H2); exists m1, m2;
      (split_and!; [done| |]).
    + apply tokens_round_trip. by apply elem_of_list_to_set in H1.
    + apply tokens_round_trip. by apply elem_of_list_to_set in H2.
    + apply elem_of_list_to_set. by apply tokens_round_trip.
    + apply elem_of_list_to_set. by apply tokens_round_trip.
  - intros w tokens Hin m. unfold detect_leader in Hin.
    apply list_elem_of_omap in Hin as ([addr toks] & Hin & Hsome).
    case_bool_decide as Hsize; [|done]. injection Hsome as -> <-.
    rewrite elem_of_elements, elem_of_list_to_set, <- tokens_round_trip.
    unfold tokens_of.
    by rewrite (od_elem_lookup _ _ _ (scan_trades_NoDup _ _) Hin).
Qed.

Lemma kill_follow_round_trips_witness :
  (first_sell_within 30 0 [(Time.seconds 20, "sell")] = true <->
   exists k,
     0 < k <= Time.seconds 30 /\
     (0 + k, "sell") ∈ actions_of sample_rows "X" "MintY") /\
  "X" ∈ (detect_leader 30 sample_rows).*1.
Proof.
  split.
  - apply (proj1 (kill_follow_round_trips 30 sample_rows)
             "X" "MintY" [] 0 [(Time.seconds 20, "sell")]).
    reflexivity.
  - apply (proj1 (proj2 (proj2 (kill_follow_round_trips 30 sample_rows)))).
    exists "MintY", "MintZ". split_and!; [done| |].
    + exists 0, (Time.seconds 20).
      split_and!; [apply list_elem_of_In; vm_compute; tauto..| |];
        by_evaluation.
    + exists (Time.seconds 40), (Time.seconds 5).
      split_and!; [apply list_elem_of_In; vm_compute; tauto..| |];
        by_evaluation.
Defined.

End KillFollowTheory.

(** ** clickhouseDB/sequenceStrategy.py: clusters *)

Section OrderedDictAppend.
Context {K : Type} `{EqDecision K} {V : Type}.

Lemma od_append_lookup (k k' : K) (v : V) (d : list (K * list V)) :
  default [] (od_lookup k' (od_append k v d))
  = default [] (od_lookup k' d) ++ (if decide (k = k') then [v] else []).
Proof.
  unfold od_append. rewrite od_lookup_alter.
  destruct (decide (k = k')) as [->|]; [done | by rewrite app_nil_r].
Qed.

Lemma od_append_NoDup (k : K) (v : V) (d : list (K * list V)) :
  NoDup d.*1 -> NoDup (od_append k v d).*1.
Proof. apply od_alter_NoDup. Qed.
End OrderedDictAppend.

Module SequenceClusters.
Import Sequence SequenceSpec.

Lemma event_le_total : Total event_le.
Proof.
  intros a b. unfold event_le.
  destruct (Z.lt_trichotomy (ev_ts a) (ev_ts b)) as [?|[Hts|?]];
    [by left; left| |by right; left].
  destruct (decide (ev_trader a = ev_trader b)) as [Htr|Htr].
  - destruct (Z.le_ge_cases (ev_amount a) (ev_amount b));
      [left|right]; right; (split; [done|]); right; split; done || lia.
  - destruct (total String.le (ev_trader a) (ev_trader b));
      [left|right]; right; (split; [done|]); left; split; done.
Qed.

Lemma event_le_ts (a b : event) : event_le a b -> ev_ts a <= ev_ts b.
Proof. unfold event_le. lia. Qed.

Lemma merge_sort_events_Sorted events :
  Sorted event_le (merge_sort event_le events).
Proof. apply (@Sorted_merge_sort _ event_le _ event_le_total). Qed.

Lemma collect_events_snoc rows r :
  collect_events (rows ++ [r])
  = od_append (mint r) (mkEvent (ts r) (trader r) (amount r))
              (collect_events rows).
Proof. unfold collect_events. by rewrite foldl_snoc. Qed.

(** [mint_clusters[mnt]] is the list of the buys of the mint. *)
Lemma collect_events_lookup rows mnt :
  default [] (od_lookup mnt (collect_events rows)) = events_of rows mnt.
Proof.
  induction rows as [|r rows IH] using rev_ind; [done|].
  rewrite collect_events_snoc, od_append_lookup, IH.
  unfold events_of. rewrite filter_app, map_app. f_equal.
  destruct (decide (mint r = mnt)).
  - by rewrite filter_cons_True.
  - by rewrite filter_cons_False.
Qed.

Lemma collect_events_NoDup rows : NoDup (collect_events rows).*1.
Proof.
  induction rows as [|r rows IH] using rev_ind; [constructor|].
  rewrite collect_events_snoc. by apply od_append_NoDup.
Qed.

Lemma collect_events_entry rows mnt events :
  (mnt, events) ∈ collect_events rows -> events = events_of rows mnt.
Proof.
  intros Hin. rewrite <- collect_events_lookup.
  by rewrite (od_elem_lookup _ _ _ (collect_events_NoDup rows) Hin).
Qed.

Lemma collect_events_has_entry rows mnt :
  events_of rows mnt <> [] -> (mnt, events_of rows mnt) ∈ collect_events rows.
Proof.
  rewrite <- collect_events_lookup.
  destruct (od_lookup mnt (collect_events rows)) as [evs|] eqn:Hl; [|done].
  intros _. by apply od_lookup_Some_elem.
Qed.

(** On events in time order the scan, which stops at the first event
    past the window, collects exactly the later events that are within
    the window of the seed and differ from it in amount. *)
Lemma extend_cluster_filter tw (seed : event) (later : list event) :
  StronglySorted (fun a b => ev_ts a <= ev_ts b) later ->
  extend_cluster tw (ev_ts seed) (ev_amount seed) later
  = filter (joins tw seed) later.
Proof.
  unfold joins. induction later as [|e2 rest IH]; intros Hs; [done|].
  apply StronglySorted_inv in Hs as [Hs Hall]. simpl.
  destruct (Z.leb_spec (ev_ts e2 - ev_ts seed) (Time.seconds tw)) as [Hin|Hout].
  - rewrite (IH Hs). destruct (Z.eqb_spec (ev_amount seed) (ev_amount e2)); simpl.
    + rewrite filter_cons_False; [done|]. intros [_ ?]. congruence.
    + rewrite filter_cons_True; [done|]. split; [done|congruence].
  - rewrite filter_cons_False by (intros [? _]; lia).
    rewrite filter_none; [done|].
    eapply Forall_impl; [exact Hall|]. simpl. intros a Ha [? _]. lia.
Qed.

End SequenceClusters.

Lemma sorted_suffix_by_key {A : Type} (R : relation A) (key : A -> Z)
    (before later : list A) (x : A) :
  (forall a b, R a b -> key a <= key b) ->
  Sorted R (before ++ x :: later) ->
  StronglySorted (fun a b => key a <= key b) later.
Proof.
  intros HR Hs.
  assert (Hlater : Sorted R later).
  { induction before as [|b before IH]; simpl in Hs.
    - by apply Sorted_inv in Hs as [? _].
    - apply IH. by apply Sorted_inv in Hs as [? _]. }
  apply Sorted_StronglySorted.
  - intros a b c ? ?. lia.
  - rewrite <- (list_fmap_id later).
    by apply (Sorted_fmap id R (fun a b => key a <= key b)).
Qed.

Module SequenceRetained.
Import Sequence SequenceSpec SequenceClusters.

Lemma scan_seeds_clusters tw mnt events ct key mc :
  mc ∈ clusters_of key (scan_seeds tw mnt events ct) <->
  mc ∈ clusters_of key ct \/
  exists before seed later,
    events = before ++ seed :: later /\
    mc = (mnt, cluster_at tw seed later) /\
    (3 <= length (cluster_at tw seed later))%nat /\
    key = participants_key (cluster_at tw seed later).
Proof.
  revert ct. induction events as [|seed later IH]; intros ct.
  - simpl. split; [by left|].
    intros [?|(b & s & l & Heq & _)]; [done | by destruct b].
  - cbn [scan_seeds]. rewrite IH. clear IH. split.
    + intros [Hin|(b & s & l & -> & Hrest)].
      * case_bool_decide as Hlen; [|by left].
        unfold clusters_of in Hin. rewrite od_append_lookup in Hin.
        apply elem_of_app in Hin as [Hin|Hin]; [by left|].
        destruct (decide (participants_key (cluster_at tw seed later) = key))
          as [<-|]; [|by apply elem_of_nil in Hin].
        apply list_elem_of_singleton in Hin as ->.
        right. by exists [], seed, later.
      * right. by exists (seed :: b), s, l.
    + intros [Hin|(b & s & l & Heq & Hmc & Hlen & Hkey)].
      * left. case_bool_decide; [|done].
        unfold clusters_of. rewrite od_append_lookup.
        apply elem_of_app. by left.
      * destruct b as [|b0 b]; simpl in Heq.
        -- injection Heq as -> ->. left.
           rewrite bool_decide_eq_true_2 by done.
           unfold clusters_of. rewrite od_append_lookup.
           apply elem_of_app. right. rewrite decide_True by done.
           by apply list_elem_of_singleton.
        -- injection Heq as -> ->. right. by exists b, s, l.
Qed.

Lemma find_clusters_clusters rows tw key mc :
  mc ∈ clusters_of key (find_clusters rows tw) <->
  exists mnt events before seed later,
    (mnt, events) ∈ collect_events rows /\
    merge_sort event_le events = before ++ seed :: later /\
    mc = (mnt, cluster_at tw seed later) /\
    (3 <= length (cluster_at tw seed later))%nat /\
    key = participants_key (cluster_at tw seed later).
Proof.
  unfold find_clusters. generalize (collect_events rows). intros mint_clusters.
  assert (H : forall ct : list (list string * list mint_cluster),
    mc ∈ clusters_of key
           (foldl (fun c '(mnt, events) =>
                     scan_seeds tw mnt (merge_sort event_le events) c)
                  ct mint_clusters) <->
    mc ∈ clusters_of key ct \/
    exists mnt events before seed later,
      (mnt, events) ∈ mint_clusters /\
      merge_sort event_le events = before ++ seed :: later /\
      mc = (mnt, cluster_at tw seed later) /\
      (3 <= length (cluster_at tw seed later))%nat /\
      key = participants_key (cluster_at tw seed later)).
  { induction mint_clusters as [|[mnt events] rest IH]; intros ct.
    - simpl. split; [by left|].
      intros [?|(m & e & b & s & l & Hin & _)];
        [done | by apply elem_of_nil in Hin].
    - simpl. rewrite IH, scan_seeds_clusters. split.
      + intros [[Hin|(b & s & l & Hrest)]|(m & e & b & s & l & Hin & Hrest)].
        * by left.
        * right. exists mnt, events, b, s, l.
          split; [apply list_elem_of_here | done].
        * right. exists m, e, b, s, l.
          split; [by apply list_elem_of_further | done].
      + intros [Hin|(m & e & b & s & l & Hin & Hrest)]; [by left; left|].
        apply elem_of_cons in Hin as [[= -> ->]|Hin].
        * left; right. by exists b, s, l.
        * right. by exists m, e, b, s, l. }
  rewrite H. split; [|by right].
  intros [Hin|?]; [by apply elem_of_nil in Hin | done].
Qed.

(** The wallets of a retained cluster need not be distinct: a wallet
    buying three times is a cluster on its own. *)
Lemma cluster_of_one_wallet : ~ clusters_have_distinct_wallets.
Proof.
  intros Hclaim.
  specialize (Hclaim one_wallet_rows 10 ["A"; "A"; "A"] "MintX"
                [ mkEvent 0 "A" 100; mkEvent (Time.seconds 1) "A" 200;
                  mkEvent (Time.seconds 2) "A" 300 ]).
  simpl in Hclaim. apply NoDup_cons in Hclaim as [Hnin _].
  - apply Hnin. apply list_elem_of_here.
  - apply list_elem_of_In. vm_compute. tauto.
Qed.

(** C7, as the code has it.  A cluster is retained under a key for a
    token iff, in the token's events sorted by time, it is a seed followed
    by exactly the later events within [time_window_sec] of the seed's
    timestamp whose amount differs from the seed's, it has at least 3
    members, and the key is the sorted tuple of its wallets.  The sorted
    events are the token's events in non-decreasing time order (so that
    stopping the scan at the first event past the window loses nothing),
    and the key is the wallets of the cluster in order, repeated wallets
    included: nothing makes the wallets of a cluster distinct. *)
Theorem find_clusters_retains rows time_window_sec :
  (forall key mnt cluster,
     (mnt, cluster) ∈ clusters_of key (find_clusters rows time_window_sec) <->
     exists before seed later,
       merge_sort event_le (events_of rows mnt) = before ++ seed :: later /\
       cluster = seed :: filter (joins time_window_sec seed) later /\
       (3 <= length cluster)%nat /\
       key = merge_sort String.le (map ev_trader cluster))
  /\
  (forall mnt,
     StronglySorted (fun a b => ev_ts a <= ev_ts b)
                    (merge_sort event_le (events_of rows mnt)) /\
     merge_sort event_le (events_of rows mnt) ≡ₚ events_of rows mnt)
  /\
  (forall cluster,
     Sorted String.le (participants_key cluster) /\
     participants_key cluster ≡ₚ map ev_trader cluster).
Proof.
  split_and!.
  - intros key mnt cluster. rewrite find_clusters_clusters. split.
    + intros (m & evs & b & s & l & Hin & Hsort & [= <- ->] & Hlen & ->).
      apply collect_events_entry in Hin as ->.
      exists b, s, l. unfold cluster_at in *.
      rewrite extend_cluster_filter in *; try done;
        apply (sorted_suffix_by_key event_le ev_ts b l s event_le_ts);
        rewrite <- Hsort; apply merge_sort_events_Sorted.
    + intros (b & s & l & Hsort & -> & Hlen & ->).
      assert (Hl : StronglySorted (fun a b => ev_ts a <= ev_ts b) l).
      { apply (sorted_suffix_by_key event_le ev_ts b l s event_le_ts).
        rewrite <- Hsort. apply merge_sort_events_Sorted. }
      exists mnt, (events_of rows mnt), b, s, l. unfold cluster_at.
      rewrite extend_cluster_filter by done. split_and!; try done.
      apply collect_events_has_entry. intros Hnil.
      rewrite Hnil in Hsort. by destruct b.
  - intros mnt. split; [|apply merge_sort_Permutation].
    apply Sorted_StronglySorted; [intros a b c ? ?; lia|].
    rewrite <- (list_fmap_id (merge_sort _ _)).
    apply (Sorted_fmap id event_le (fun a b => ev_ts a <= ev_ts b));
      [apply event_le_ts | apply merge_sort_events_Sorted].
  - intros cluster. unfold participants_key.
    split; [apply Sorted_merge_sort, _ | apply merge_sort_Permutation].
Qed.

Lemma find_clusters_retains_witness :
  ("MintX", [ mkEvent 0 "A" 100; mkEvent (Time.seconds 1) "B" 200;
              mkEvent (Time.seconds 2) "C" 300 ])
  ∈ clusters_of ["A"; "B"; "C"] (find_clusters three_wallet_rows 10).
Proof.
  apply (proj1 (find_clusters_retains three_wallet_rows 10)).
  exists [], (mkEvent 0 "A" 100),
    [mkEvent (Time.seconds 1) "B" 200; mkEvent (Time.seconds 2) "C" 300].
  split_and!; [reflexivity|reflexivity|by_evaluation|reflexivity].
Defined.

End SequenceRetained.

(** ** clickhouseDB/sequenceStrategy.py: following patterns *)

Module SequencePatterns.
Import Sequence SequenceSpec.

(** [len(set(seqs)) > 1] says that the sequences are not all identical. *)
Lemma several_sequences (seqs : list (list string)) :
  (1 < size (list_to_set seqs : gset (list string)))%nat <->
  ~ all_identical seqs.
Proof.
  unfold all_identical. split.
  - intros Hsize Hall.
    apply (proj1 (size_two_distinct _)) in Hsize as (s1 & s2 & Hne & H1 & H2).
    apply elem_of_list_to_set in H1, H2. by apply Hne, Hall.
  - intros Hnot.
    destruct (decide (1 < size (list_to_set seqs : gset (list string)))%nat)
      as [|Hsmall]; [done|].
    exfalso. apply Hnot. intros s1 s2 H1 H2.
    destruct (decide (s1 = s2)) as [|Hne]; [done|]. exfalso. apply Hsmall.
    apply (proj2 (size_two_distinct _)). exists s1, s2.
    split_and!; [done|by apply elem_of_list_to_set..].
Qed.

(** The most common first wallet: no wallet occurs more often among the
    first positions. *)
Lemma most_common_first_spec (firsts : list string) :
  firsts <> [] ->
  exists leader,
    most_common_first firsts = Some leader /\ leader ∈ firsts /\
    forall w, votes_for w firsts <= votes_for leader firsts.
Proof.
  intros Hne. unfold most_common_first.
  destruct (max_by_count_is_Some (tally firsts)) as [[k n] Hmax].
  { destruct firsts as [|v rest]; [done|]. intros Hnil.
    assert (Hv : (v, votes_for v (v :: rest)) ∈ tally (v :: rest)).
    { apply tally_elem. split; [done|]. unfold votes_for.
      rewrite filter_cons_True by done. simpl. lia. }
    rewrite Hnil in Hv. by apply elem_of_nil in Hv. }
  rewrite Hmax. simpl. exists k.
  apply max_by_count_Some in Hmax as [Hin Hall].
  apply tally_elem in Hin as [-> Hpos]. split_and!; [done| |].
  - unfold votes_for in Hpos.
    destruct (filter (fun v => v = k) firsts) as [|v rest] eqn:Hf;
      [simpl in Hpos; lia|].
    assert (Hv : v ∈ filter (fun v => v = k) firsts)
      by (rewrite Hf; apply list_elem_of_here).
    by apply list_elem_of_filter in Hv as [-> ?].
  - intros w. pose proof (votes_for_nonneg w firsts).
    destruct (decide (votes_for w firsts = 0)) as [->|Hnz]; [lia|].
    assert (Hw : (w, votes_for w firsts) ∈ tally firsts)
      by (apply tally_elem; split; [done|lia]).
    by apply (proj1 (Forall_forall _ _) Hall _ Hw).
Qed.

Lemma candidates_append w ev lc :
  candidates (od_append w ev lc) ≡ₚ (w, ev) :: candidates lc.
Proof.
  unfold candidates, od_append.
  induction lc as [|[k0 evs] rest IH]; simpl; [done|].
  destruct (decide (k0 = w)) as [->|Hne]; simpl.
  - rewrite map_app. simpl. rewrite <- app_assoc. simpl.
    by rewrite <- Permutation_middle.
  - rewrite IH. by rewrite <- Permutation_middle.
Qed.

(** What one iteration of the loop does, for clusters with a member. *)
Lemma analyze_combo_spec combo mint_clusters lc :
  Forall (fun mc : mint_cluster => snd mc <> []) mint_clusters ->
  exists lc',
    analyze_combo combo mint_clusters lc = Some lc' /\
    candidates lc' ≡ₚ candidate_of (combo, mint_clusters) ++ candidates lc.
Proof.
  intros Hne. unfold analyze_combo, candidate_of.
  case_bool_decide as Hlen.
  - rewrite (bool_decide_eq_false_2 (2 <= length mint_clusters)%nat) by lia.
    by exists lc.
  - rewrite (bool_decide_eq_true_2 (2 <= length mint_clusters)%nat) by lia.
    simpl. case_bool_decide as Hsize; [|by exists lc].
    destruct (mapM_is_Some_2 head (sequences_of mint_clusters))
      as [firsts Hfirsts].
    { unfold sequences_of. apply Forall_fmap.
      eapply Forall_impl; [exact Hne|]. simpl. intros [m cl] Hcl. simpl in *.
      destruct cl; [done|]. simpl. eauto. }
    rewrite Hfirsts. simpl.
    destruct (most_common_first_spec firsts) as (leader & Hl & _).
    { apply length_mapM in Hfirsts. unfold sequences_of in Hfirsts.
      rewrite length_map in Hfirsts.
      destruct firsts; [|done].
      intros _. simpl in Hfirsts. unfold mint_cluster in *. lia. }
    rewrite Hl. simpl. eexists. split; [reflexivity|].
    apply candidates_append.
Qed.

Lemma analyze_combos_spec ct lc :
  clusters_nonempty ct ->
  exists lc',
    analyze_combos ct lc = Some lc' /\
    candidates lc' ≡ₚ flat_map candidate_of ct ++ candidates lc.
Proof.
  unfold clusters_nonempty. revert lc.
  induction ct as [|[combo mcs] rest IH]; intros lc Hne.
  - by exists lc.
  - apply Forall_cons in Hne as [Hmcs Hrest]. simpl in Hmcs.
    destruct (analyze_combo_spec combo mcs lc Hmcs) as (lc1 & Hrun1 & Hperm1).
    destruct (IH lc1 Hrest) as (lc2 & Hrun2 & Hperm2).
    exists lc2. split.
    + cbn [analyze_combos]. rewrite Hrun1. simpl. exact Hrun2.
    + rewrite Hperm2, Hperm1. cbn [flat_map].
      rewrite <- !app_assoc. apply Permutation_app_swap_app.
Qed.

Lemma candidate_of_participants entry c :
  c ∈ candidate_of entry -> participants (snd c) = fst entry.
Proof.
  destruct entry as [combo mcs]. unfold candidate_of.
  destruct (_ && _); [|by intros ?%elem_of_nil].
  destruct (mapM head (sequences_of mcs) ≫= most_common_first);
    [|by intros ?%elem_of_nil].
  by intros ->%list_elem_of_singleton.
Qed.

(** Among the contributions of a tracker whose keys are distinct, those
    naming a key are the contribution of that key. *)
Lemma filter_candidates_of ct combo mcs :
  NoDup ct.*1 -> (combo, mcs) ∈ ct ->
  filter (fun c => participants (snd c) = combo) (flat_map candidate_of ct)
  = candidate_of (combo, mcs).
Proof.
  assert (Hall : forall entry : list string * list mint_cluster,
    fst entry = combo ->
    filter (fun c => participants (snd c) = combo) (candidate_of entry)
    = candidate_of entry).
  { intros entry Hk. apply filter_all. apply Forall_forall. intros c Hc.
    by rewrite (candidate_of_participants entry c Hc). }
  assert (Hnone : forall entry : list string * list mint_cluster,
    fst entry <> combo ->
    filter (fun c => participants (snd c) = combo) (candidate_of entry) = []).
  { intros entry Hk. apply filter_none. apply Forall_forall. intros c Hc.
    by rewrite (candidate_of_participants entry c Hc). }
  induction ct as [|[k0 m0] rest IH]; intros Hnd Hin;
    [by apply elem_of_nil in Hin|].
  csimpl in Hnd. apply NoDup_cons in Hnd as [Hk0 Hnd].
  cbn [flat_map]. rewrite filter_app.
  apply elem_of_cons in Hin as [[= <- <-]|Hin].
  - rewrite (Hall (combo, mcs)) by done.
    rewrite filter_none; [by rewrite app_nil_r|].
    apply Forall_forall. intros c Hc.
    apply list_elem_of_In, in_flat_map in Hc as (entry & Hentry & Hc).
    apply list_elem_of_In in Hentry, Hc.
    rewrite (candidate_of_participants entry c Hc). intros Heq.
    apply Hk0. apply list_elem_of_fmap. by exists entry.
  - rewrite (Hnone (k0, m0)), (IH Hnd Hin); [done|]. simpl. intros ->.
    apply Hk0. apply list_elem_of_fmap. by exists (combo, mcs).
Qed.

Lemma first_wallets mcs :
  Forall (fun mc : mint_cluster => snd mc <> []) mcs ->
  is_Some (mapM head (sequences_of mcs)).
Proof.
  intros Hne. apply mapM_is_Some_2. unfold sequences_of. apply Forall_fmap.
  eapply Forall_impl; [exact Hne|]. simpl. intros [m cl] Hcl. simpl in *.
  destruct cl; [done|]. simpl. eauto.
Qed.

(** C8.  For a tracker (a dict: its keys are distinct) of clusters with
    at least one member, [detect_following_patterns] returns, and in what
    it returns:
    - a participant key with at least 2 clusters whose wallet sequences
      are not all identical has exactly one candidate: it is filed under a
      wallet that no wallet beats in number of first positions across the
      sequences, and carries the mints, the key and the sequences;
    - a participant key with fewer than 2 clusters, or whose sequences are
      all identical, has no candidate. *)
Theorem following_patterns_candidates
    (combo_tracker : list (list string * list mint_cluster)) :
  NoDup combo_tracker.*1 -> clusters_nonempty combo_tracker ->
  exists lc,
    detect_following_patterns combo_tracker = Some lc /\
    forall combo mcs,
      (combo, mcs) ∈ combo_tracker ->
      ((2 <= length mcs)%nat -> ~ all_identical (sequences_of mcs) ->
       exists leader firsts,
         mapM head (sequences_of mcs) = Some firsts /\
         leader ∈ firsts /\
         (forall w, votes_for w firsts <= votes_for leader firsts) /\
         candidates_for combo lc
         = [(leader, mkEvidence (map fst mcs) combo (sequences_of mcs))])
      /\
      ((length mcs < 2)%nat \/ all_identical (sequences_of mcs) ->
       candidates_for combo lc = []).
Proof.
  intros Hnd Hne.
  destruct (analyze_combos_spec combo_tracker [] Hne) as (lc & Hrun & Hperm).
  exists lc. split; [exact Hrun|]. intros combo mcs Hin.
  assert (Hfor : candidates_for combo lc ≡ₚ candidate_of (combo, mcs)).
  { unfold candidates_for. rewrite Hperm, app_nil_r.
    by rewrite (filter_candidates_of combo_tracker combo mcs). }
  pose proof (proj1 (Forall_forall _ _) Hne _ Hin) as Hmcs. simpl in Hmcs.
  split.
  - intros Hlen Hseqs. apply several_sequences in Hseqs.
    destruct (first_wallets mcs Hmcs) as [firsts Hfirsts].
    destruct (most_common_first_spec firsts) as (leader & Hl & Hin' & Hmax).
    { apply length_mapM in Hfirsts. unfold sequences_of in Hfirsts.
      rewrite length_map in Hfirsts. destruct firsts; [|done].
      intros _. simpl in Hfirsts. unfold mint_cluster in *. lia. }
    exists leader, firsts. split_and!; [done..|].
    apply Permutation_singleton_r. rewrite Hfor. unfold candidate_of.
    rewrite !bool_decide_eq_true_2 by done. simpl.
    by rewrite Hfirsts; simpl; rewrite Hl.
  - intros Hno. apply Permutation_nil_r. rewrite Hfor. unfold candidate_of.
    destruct Hno as [Hlen|Hsame].
    + by rewrite (bool_decide_eq_false_2 (2 <= length mcs)%nat) by lia.
    + rewrite (bool_decide_eq_false_2 (1 < size _)%nat);
        [by rewrite andb_false_r|].
      by intros ?%several_sequences.
Qed.

Lemma following_patterns_candidates_witness :
  exists lc,
    detect_following_patterns sample_tracker = Some lc /\
    (exists leader firsts,
       mapM head (sequences_of abc_clusters) = Some firsts /\
       leader ∈ firsts /\
       (forall w, votes_for w firsts <= votes_for leader firsts) /\
       candidates_for ["A"; "B"; "C"] lc
       = [(leader,
           mkEvidence (map fst abc_clusters) ["A"; "B"; "C"]
                      (sequences_of abc_clusters))]) /\
    candidates_for ["D"; "E"; "F"] lc = [] /\
    candidates_for ["G"; "H"; "I"] lc = [].
Proof.
  destruct (following_patterns_candidates sample_tracker)
    as (lc & Hrun & Hkeys).
  - apply (bool_decide_unpack _). by vm_compute.
  - unfold clusters_nonempty, sample_tracker, abc_clusters, def_clusters,
      ghi_clusters.
    repeat (constructor; try done).
  - exists lc. split; [exact Hrun|]. split_and!.
    + apply (proj1 (Hkeys ["A"; "B"; "C"] abc_clusters
                      (list_elem_of_here _ _))).
      * simpl. lia.
      * intros Hsame.
        specialize (Hsame ["A"; "B"; "C"] ["B"; "A"; "C"]).
        discriminate Hsame;
          [apply list_elem_of_here
          |apply list_elem_of_further, list_elem_of_here].
    + apply (proj2 (Hkeys ["D"; "E"; "F"] def_clusters
                      (list_elem_of_further _ _ _ (list_elem_of_here _ _)))).
      right. intros s1 s2 H1 H2.
      apply list_elem_of_In in H1, H2. simpl in H1, H2.
      destruct H1 as [<-|[<-|[]]], H2 as [<-|[<-|[]]]; reflexivity.
    + apply (proj2 (Hkeys ["G"; "H"; "I"] ghi_clusters
                      (list_elem_of_further _ _ _
                         (list_elem_of_further _ _ _ (list_elem_of_here _ _))))).
      left. simpl. lia.
Defined.

End SequencePatterns.

Module SequenceWellFormed.
Import Sequence SequenceSpec SequenceClusters SequenceRetained.

Lemma scan_seeds_NoDup tw mnt events (ct : list (list string * list mint_cluster)) :
  NoDup ct.*1 -> NoDup (scan_seeds tw mnt events ct).*1.
Proof.
  revert ct. induction events as [|seed later IH]; intros ct Hnd; [done|].
  cbn [scan_seeds]. apply IH. case_bool_decide; [|done].
  by apply od_append_NoDup.
Qed.

Lemma find_clusters_NoDup rows tw : NoDup (find_clusters rows tw).*1.
Proof.
  unfold find_clusters. generalize (collect_events rows). intros mcs.
  assert (H : forall ct : list (list string * list mint_cluster),
    NoDup ct.*1 ->
    NoDup (foldl (fun c '(mnt, events) =>
                    scan_seeds tw mnt (merge_sort event_le events) c)
                 ct mcs).*1).
  { induction mcs as [|[mnt events] rest IH]; intros ct Hnd; [done|].
    simpl. apply IH. by apply scan_seeds_NoDup. }
  apply H. constructor.
Qed.

(** The tracker [find_clusters] returns is one that
    [detect_following_patterns] handles: its keys are distinct and its
    clusters have members. *)
Lemma find_clusters_well_formed rows tw :
  NoDup (find_clusters rows tw).*1 /\ clusters_nonempty (find_clusters rows tw).
Proof.
  split; [apply find_clusters_NoDup|].
  unfold clusters_nonempty. apply Forall_forall. intros [key mcs] Hin.
  apply Forall_forall. intros mc Hmc. simpl in *.
  assert (Hmc' : mc ∈ clusters_of key (find_clusters rows tw)).
  { unfold clusters_of.
    by rewrite (od_elem_lookup _ _ _ (find_clusters_NoDup rows tw) Hin). }
  apply find_clusters_clusters in Hmc'
    as (m & e & b & s & l & _ & _ & -> & _). done.
Qed.

Lemma detect_leader_returns rows : is_Some (detect_leader rows).
Proof.
  unfold detect_leader.
  destruct (find_clusters_well_formed rows 10) as [Hnd Hne].
  destruct (SequencePatterns.analyze_combos_spec (find_clusters rows 10) [] Hne)
    as (lc & Hrun & _).
  by exists lc.
Qed.
End SequenceWellFormed.

(** * Further properties of the code *)

(** ** Transaction decoding *)

Module DecodeFacts.
Import Decode DecodeSpec.

Lemma last_amount_snoc o mt bs b :
  last_amount o mt (bs ++ [b])
  = if decide (owner b = o /\ mint b = mt) then Some (amount b)
    else last_amount o mt bs.
Proof. unfold last_amount. by rewrite foldl_snoc. Qed.

Lemma change_of_alter (f : Z * Z -> Z * Z) changes b o mt :
  change_of (od_alter (od_alter f (0, 0) (mint b)) [] (owner b) changes) o mt
  = if decide (owner b = o /\ mint b = mt)
    then Some (f (default (0, 0) (change_of changes o mt)))
    else change_of changes o mt.
Proof.
  unfold change_of. rewrite od_lookup_alter.
  destruct (decide (owner b = o)) as [<-|Ho].
  - change (default [] (Some ?x)) with x. rewrite od_lookup_alter.
    destruct (decide (mint b = mt)) as [<-|Hm].
    + by rewrite decide_True.
    + rewrite decide_False; [done|]. by intros [_ ?].
  - rewrite decide_False; [done|]. by intros [? _].
Qed.

Lemma parse_pre_lookup pre o mt :
  change_of (foldl set_pre [] pre) o mt
  = (fun a => (a, 0)) <$> last_amount o mt pre.
Proof.
  induction pre as [|b pre IH] using rev_ind; [done|].
  rewrite foldl_snoc, last_amount_snoc. unfold set_pre at 1.
  rewrite change_of_alter. by destruct (decide (owner b = o /\ mint b = mt)).
Qed.

Lemma parse_post_lookup changes post o mt :
  change_of (foldl set_post changes post) o mt
  = match last_amount o mt post with
    | Some a => Some (fst (default (0, 0) (change_of changes o mt)), a)
    | None => change_of changes o mt
    end.
Proof.
  induction post as [|b post IH] using rev_ind; [done|].
  rewrite foldl_snoc, last_amount_snoc. unfold set_post at 1.
  rewrite change_of_alter.
  destruct (decide (owner b = o /\ mint b = mt)); [|done].
  rewrite IH. by destruct (last_amount o mt post).
Qed.

(** X1.  [parse_balance_changes] records, for an owner and a mint, the
    amount of the last pre-balance entry and the amount of the last
    post-balance entry of the pair, 0 standing for a missing side; a pair
    with no entry at all is absent from the result. *)
Theorem parse_balance_changes_lookup (m : meta) (o mt : string) :
  change_of (parse_balance_changes m) o mt
  = match last_amount o mt (pre_token_balances m),
          last_amount o mt (post_token_balances m) with
    | None, None => None
    | pre, post => Some (default 0 pre, default 0 post)
    end.
Proof.
  unfold parse_balance_changes. rewrite parse_post_lookup, parse_pre_lookup.
  destruct (last_amount o mt (pre_token_balances m)),
    (last_amount o mt (post_token_balances m)); done.
Qed.

Lemma parse_well_keyed (m : meta) : well_keyed (parse_balance_changes m).
Proof.
  assert (Hstep : forall (f : Z * Z -> Z * Z) b changes,
    well_keyed changes ->
    well_keyed (od_alter (od_alter f (0, 0) (mint b)) [] (owner b) changes)).
  { intros f b changes [Hnd Hall]. split; [by apply od_alter_NoDup|].
    apply (od_alter_Forall (fun tokens : list (string * (Z * Z)) =>
                              NoDup tokens.*1)); [| |done].
    - apply NoDup_singleton.
    - intros tokens Ht. by apply od_alter_NoDup. }
  assert (Hpre : forall pre, well_keyed (foldl set_pre [] pre)).
  { induction pre as [|b pre IH] using rev_ind; [by split; constructor|].
    rewrite foldl_snoc. by apply Hstep. }
  unfold parse_balance_changes.
  induction (post_token_balances m) as [|b post IH] using rev_ind;
    [apply Hpre|].
  rewrite foldl_snoc. by apply Hstep.
Qed.

Lemma change_of_entry changes o mt p :
  well_keyed changes ->
  change_of changes o mt = Some p <->
  exists tokens, (o, tokens) ∈ changes /\ (mt, p) ∈ tokens.
Proof.
  intros [Hnd Hall]. unfold change_of. split.
  - destruct (od_lookup o changes) as [tokens|] eqn:Ho; [|done].
    simpl. intros Hm. exists tokens.
    split; by apply od_lookup_Some_elem.
  - intros (tokens & Ho & Hm).
    pose proof (proj1 (Forall_forall _ _) Hall _ Ho) as Hnd'. simpl in Hnd'.
    rewrite (od_elem_lookup _ _ _ Hnd Ho). simpl.
    by apply od_elem_lookup.
Qed.

Lemma quote_spent_true tokens q :
  quote_spent tokens q = true <->
  exists pre post, od_lookup q tokens = Some (pre, post) /\ post < pre.
Proof.
  unfold quote_spent. destruct (od_lookup q tokens) as [[pre post]|].
  - rewrite Z.ltb_lt. split; [by exists pre, post|].
    by intros (? & ? & [= <- <-] & ?).
  - split; [done|]. by intros (? & ? & ? & _).
Qed.

(** What the rows of [detect_buyers] are, entry by entry. *)
Lemma detect_buyers_elem changes o mt amt :
  (o, mt, amt) ∈ detect_buyers changes <->
  exists tokens pre post,
    (o, tokens) ∈ changes /\ (mt, (pre, post)) ∈ tokens /\
    pre < post /\ mt <> WSOL_MINT /\ amt = post - pre /\
    (quote_spent tokens WSOL_MINT = true \/
     quote_spent tokens USDC_MINT = true).
Proof.
  unfold detect_buyers. rewrite list_elem_of_In, in_flat_map. split.
  - intros ([o' tokens] & Ho & Hin). apply in_flat_map in Hin
      as ([mt' [pre post]] & Hm & Hin).
    apply list_elem_of_In in Ho, Hm.
    destruct (Z.gtb_spec post pre) as [Hgt|]; [|done].
    case_bool_decide as Hw; [done|]. simpl in Hin.
    destruct (quote_spent tokens WSOL_MINT) eqn:Hq1.
    + destruct Hin as [ [= <- <- <-] | [] ].
      exists tokens, pre, post. split_and!; [done..|lia|done|done|by left].
    + destruct (quote_spent tokens USDC_MINT) eqn:Hq2; [|done].
      destruct Hin as [ [= <- <- <-] | [] ].
      exists tokens, pre, post. split_and!; [done..|lia|done|done|by right].
  - intros (tokens & pre & post & Ho & Hm & Hlt & Hw & -> & Hq).
    exists (o, tokens). split; [by apply list_elem_of_In|].
    apply in_flat_map. exists (mt, (pre, post)).
    split; [by apply list_elem_of_In|].
    rewrite (proj2 (Z.gtb_gt _ _)) by lia.
    rewrite bool_decide_eq_false_2 by done. simpl.
    destruct (quote_spent tokens WSOL_MINT); [by left|].
    destruct Hq as [Hq|Hq]; [done|]. rewrite Hq. by left.
Qed.

(** X2.  On the balance changes of a transaction, [detect_buyers] reports
    [(owner, mint, amount)] exactly when the owner's balance of the mint
    rose by [amount], the mint is not wrapped SOL, and the owner's balance
    of wrapped SOL or of USDC fell. *)
Theorem detect_buyers_reports (m : meta) (o mt : string) (amt : Z) :
  (o, mt, amt) ∈ detect_buyers (parse_balance_changes m) <->
  exists pre post,
    change_of (parse_balance_changes m) o mt = Some (pre, post) /\
    pre < post /\ amt = post - pre /\ mt <> WSOL_MINT /\
    (spent (parse_balance_changes m) o WSOL_MINT \/
     spent (parse_balance_changes m) o USDC_MINT).
Proof.
  pose proof (parse_well_keyed m) as Hwk.
  set (changes := parse_balance_changes m) in *.
  rewrite detect_buyers_elem. unfold spent. split.
  - intros (tokens & pre & post & Ho & Hm & Hlt & Hw & -> & Hq).
    exists pre, post. split_and!; [|done..|].
    + apply change_of_entry; [done|]. by exists tokens.
    + destruct Hwk as [Hnd _]. unfold change_of.
      rewrite (od_elem_lookup _ _ _ Hnd Ho). simpl.
      destruct Hq as [Hq|Hq]; [left|right]; by apply quote_spent_true.
  - intros (pre & post & Hch & Hlt & -> & Hw & Hq).
    apply change_of_entry in Hch as (tokens & Ho & Hm); [|done].
    exists tokens, pre, post. split_and!; [done..|].
    destruct Hwk as [Hnd _]. unfold change_of in Hq.
    rewrite (od_elem_lookup _ _ _ Hnd Ho) in Hq. simpl in Hq.
    destruct Hq as [Hq|Hq]; [left|right]; by apply quote_spent_true.
Qed.

(** X3.  [detect_buyers] never reports wrapped SOL as the token bought,
    every amount it reports is positive, it reports a single amount for an
    owner and a mint, and it reports USDC as bought only for an owner whose
    wrapped SOL fell. *)
Theorem detect_buyers_rows (m : meta) :
  let rows := detect_buyers (parse_balance_changes m) in
  (forall o mt amt, (o, mt, amt) ∈ rows -> mt <> WSOL_MINT /\ 0 < amt) /\
  (forall o mt amt1 amt2,
     (o, mt, amt1) ∈ rows -> (o, mt, amt2) ∈ rows -> amt1 = amt2) /\
  (forall o amt,
     (o, USDC_MINT, amt) ∈ rows -> spent (parse_balance_changes m) o WSOL_MINT).
Proof.
  pose proof (parse_well_keyed m) as Hwk.
  set (changes := parse_balance_changes m) in *. simpl.
  assert (Hrow : forall o mt amt, (o, mt, amt) ∈ detect_buyers changes ->
    exists pre post,
      change_of changes o mt = Some (pre, post) /\ pre < post /\
      amt = post - pre /\ mt <> WSOL_MINT /\
      (spent changes o WSOL_MINT \/ spent changes o USDC_MINT)).
  { intros o mt amt (tokens & pre & post & Ho & Hm & Hlt & Hw & -> & Hq)
      %detect_buyers_elem.
    exists pre, post. split_and!; [|done..|].
    - apply change_of_entry; [done|]. by exists tokens.
    - destruct Hwk as [Hnd _]. unfold spent, change_of.
      rewrite (od_elem_lookup _ _ _ Hnd Ho). simpl.
      destruct Hq as [Hq|Hq]; [left|right]; by apply quote_spent_true. }
  split_and!.
  - intros o mt amt (pre & post & _ & Hlt & -> & Hw & _)%Hrow.
    split; [done|lia].
  - intros o mt amt1 amt2 (pre1 & post1 & Hc1 & _ & -> & _)%Hrow
      (pre2 & post2 & Hc2 & _ & -> & _)%Hrow.
    rewrite Hc1 in Hc2. by injection Hc2 as -> ->.
  - intros o amt (pre & post & Hc & Hlt & _ & _ & [Hq|Hq])%Hrow; [done|].
    destruct Hq as (pre' & post' & Hc' & Hlt'). rewrite Hc in Hc'.
    injection Hc' as -> ->. lia.
Qed.

End DecodeFacts.

Module DecodeMore.
Import Decode DecodeSpec DecodeFacts.

Lemma detect_buyers_rows_witness :
  "T" <> WSOL_MINT /\ 0 < 1000.
Proof.
  apply (proj1 (detect_buyers_rows swap_meta) "W" "T" 1000).
  apply list_elem_of_In. vm_compute. tauto.
Defined.

Lemma detect_buys_sells_elem changes o mt amt sell :
  (o, mt, amt, sell) ∈ detect_buys_sells changes <->
  exists tokens pre post,
    (o, tokens) ∈ changes /\ (mt, (pre, post)) ∈ tokens /\
    mt <> WSOL_MINT /\
    ((sell = false /\ pre < post /\ amt = post - pre) \/
     (sell = true /\ post < pre /\ amt = pre - post)).
Proof.
  unfold detect_buys_sells. rewrite list_elem_of_In, in_flat_map. split.
  - intros ([o' tokens] & Ho & Hin). apply in_flat_map in Hin
      as ([mt' [pre post]] & Hm & Hin).
    apply list_elem_of_In in Ho, Hm.
    case_bool_decide as Hw; [done|].
    destruct (Z.gtb_spec post pre) as [Hgt|Hle].
    + destruct Hin as [ [= <- <- <- <-] | [] ].
      exists tokens, pre, post. split_and!; [done..|]. left. lia.
    + destruct (Z.gtb_spec pre post) as [Hgt|]; [|done].
      destruct Hin as [ [= <- <- <- <-] | [] ].
      exists tokens, pre, post. split_and!; [done..|]. right. lia.
  - intros (tokens & pre & post & Ho & Hm & Hw & Hcase).
    exists (o, tokens). split; [by apply list_elem_of_In|].
    apply in_flat_map. exists (mt, (pre, post)).
    split; [by apply list_elem_of_In|].
    rewrite bool_decide_eq_false_2 by done.
    destruct Hcase as [(-> & Hlt & ->)|(-> & Hlt & ->)].
    + rewrite (proj2 (Z.gtb_gt _ _)) by lia. by left.
    + destruct (Z.gtb_spec post pre); [lia|].
      rewrite (proj2 (Z.gtb_gt _ _)) by lia. by left.
Qed.

(** X4.  On the balance changes of a transaction, [detect_buys_sells]
    reports a buy of [amount] when an owner's balance of a mint other than
    wrapped SOL rose by [amount], a sell of [amount] when it fell by
    [amount], and nothing else: every amount is positive, and an unchanged
    balance or a change of wrapped SOL is never reported. *)
Theorem detect_buys_sells_reports (m : meta) (o mt : string) (amt : Z)
    (sell : bool) :
  (o, mt, amt, sell) ∈ detect_buys_sells (parse_balance_changes m) <->
  exists pre post,
    change_of (parse_balance_changes m) o mt = Some (pre, post) /\
    mt <> WSOL_MINT /\ 0 < amt /\
    amt = (if sell then pre - post else post - pre).
Proof.
  pose proof (parse_well_keyed m) as Hwk.
  rewrite detect_buys_sells_elem. split.
  - intros (tokens & pre & post & Ho & Hm & Hw & Hcase).
    exists pre, post. split_and!; [|done| |].
    + apply change_of_entry; [done|]. by exists tokens.
    + destruct Hcase as [(_ & ? & ->)|(_ & ? & ->)]; lia.
    + by destruct Hcase as [(-> & _ & ->)|(-> & _ & ->)].
  - intros (pre & post & Hch & Hw & Hpos & Hamt).
    apply change_of_entry in Hch as (tokens & Ho & Hm); [|done].
    exists tokens, pre, post. split_and!; [done..|].
    destruct sell; [right|left]; split_and!; [done|lia|done|done|lia|done].
Qed.

(** The scan answers with a DEX only for an instruction that names it, and
    with ["Unknown"] when it runs out of instructions. *)
Lemma scan_instructions_first pubkeys instructions :
  (scan_instructions pubkeys instructions = "Unknown" /\
   Forall (fun inst => ~ names_dex pubkeys inst) instructions) \/
  (exists before idx after,
     instructions = before ++ Some idx :: after /\
     Forall (fun inst => ~ names_dex pubkeys inst) before /\
     ((pubkeys !! idx = Some PUMP_FUN_PROGRAM_ID /\
       scan_instructions pubkeys instructions = "PumpFun") \/
      (pubkeys !! idx = Some RAYDIUM_AMM_V4_PROGRAM_ID /\
       scan_instructions pubkeys instructions = "Raydium"))).
Proof.
  induction instructions as [|inst rest IH].
  - left. by split.
  - assert (Hskip : ~ names_dex pubkeys inst ->
      scan_instructions pubkeys (inst :: rest) = scan_instructions pubkeys rest ->
      (scan_instructions pubkeys (inst :: rest) = "Unknown" /\
       Forall (fun inst => ~ names_dex pubkeys inst) (inst :: rest)) \/
      (exists before idx after,
         inst :: rest = before ++ Some idx :: after /\
         Forall (fun inst => ~ names_dex pubkeys inst) before /\
         ((pubkeys !! idx = Some PUMP_FUN_PROGRAM_ID /\
           scan_instructions pubkeys (inst :: rest) = "PumpFun") \/
          (pubkeys !! idx = Some RAYDIUM_AMM_V4_PROGRAM_ID /\
           scan_instructions pubkeys (inst :: rest) = "Raydium")))).
    { intros Hno Heq. rewrite Heq.
      destruct IH as [[Hu Hall]|(b & i & a & -> & Hall & Hcase)].
      - left. split; [done|]. by constructor.
      - right. exists (inst :: b), i, a. split_and!; [done|by constructor|done]. }
    destruct inst as [idx|].
    + destruct (pubkeys !! idx) as [program_id|] eqn:Hidx.
      * destruct (decide (program_id = PUMP_FUN_PROGRAM_ID)) as [->|Hp].
        { right. exists [], idx, rest.
          split_and!; [done|constructor|]. left. split; [done|].
          simpl. rewrite Hidx. by rewrite bool_decide_eq_true_2. }
        destruct (decide (program_id = RAYDIUM_AMM_V4_PROGRAM_ID)) as [->|Hr].
        { right. exists [], idx, rest.
          split_and!; [done|constructor|]. right. split; [done|].
          simpl. rewrite Hidx. rewrite bool_decide_eq_false_2 by done.
          by rewrite bool_decide_eq_true_2. }
        apply Hskip.
        -- intros (i & [= <-] & [Hi|Hi]); rewrite Hidx in Hi; congruence.
        -- simpl. rewrite Hidx. by rewrite !bool_decide_eq_false_2.
      * apply Hskip.
        -- intros (i & [= <-] & [Hi|Hi]); rewrite Hidx in Hi; congruence.
        -- simpl. by rewrite Hidx.
    + apply Hskip; [|done]. by intros (i & [=] & _).
Qed.

(** X5.  [find_market] answers ["PumpFun"] or ["Raydium"] according to the
    first instruction whose program id index falls on one of the two DEX
    program ids among the account keys; instructions without the attribute,
    with an index out of range, or naming another program are skipped; with
    no such instruction, or when an account key cannot be decoded, the
    answer is ["Unknown"]. *)
Theorem find_market_first_dex (account_keys : list (option string))
    (instructions : list (option nat)) :
  match mapM id account_keys with
  | None => find_market account_keys instructions = "Unknown"
  | Some pubkeys =>
      (find_market account_keys instructions = "Unknown" /\
       Forall (fun inst => ~ names_dex pubkeys inst) instructions) \/
      (exists before idx after,
         instructions = before ++ Some idx :: after /\
         Forall (fun inst => ~ names_dex pubkeys inst) before /\
         ((pubkeys !! idx = Some PUMP_FUN_PROGRAM_ID /\
           find_market account_keys instructions = "PumpFun") \/
          (pubkeys !! idx = Some RAYDIUM_AMM_V4_PROGRAM_ID /\
           find_market account_keys instructions = "Raydium")))
  end.
Proof.
  unfold find_market. destruct (mapM id account_keys) as [pubkeys|]; [|done].
  apply scan_instructions_first.
Qed.

End DecodeMore.

(** ** smart_money_detector.py: the loop of [run] *)

Lemma tally_nonempty (votes : list string) : votes <> [] -> tally votes <> [].
Proof.
  destruct votes as [|v votes _] using rev_ind; [done|]. intros _.
  rewrite tally_snoc. destruct (tally votes) as [|[k n] rest]; simpl; [done|].
  by destruct (decide (k = v)).
Qed.

Module SmartMoneyLoop.
Import SmartMoney SmartMoneySpec SmartMoneyRun SmartMoneyRunSpec.

(** With a vote on record, the evaluation of a group finds a maximum. *)
Lemma analyze_group_returns clock group st :
  first_buyers_of st group <> [] -> is_Some (analyze_group clock group st).
Proof.
  intros Hne. unfold analyze_group.
  destruct (dd_get group (group_sightings st)) as [sightings gs].
  case_bool_decide; [|done].
  destruct (dd_get group (group_first_buyer st)) as [first_buyers gf] eqn:Hgf.
  assert (first_buyers = first_buyers_of st group) as ->.
  { unfold first_buyers_of. by rewrite <- dd_get_fst, Hgf. }
  destruct (max_by_count_is_Some (tally (first_buyers_of st group)))
    as [[ldr votes] ->]; [by apply tally_nonempty|].
  destruct (2 * votes >? _); [|done].
  destruct (last_logged_leader st !! ldr); [|done].
  by destruct (_ >? _).
Qed.

Lemma find_groups_returns clock now ev st :
  is_Some (find_groups clock now ev st).
Proof.
  unfold find_groups. case_bool_decide; [|done].
  apply analyze_group_returns. unfold first_buyers_of. simpl.
  rewrite dd_append_lookup. simpl. by intros [_ [=]]%app_eq_nil.
Qed.

Lemma process_buy_returns now clock b mint amt mkt st :
  is_Some (process_buy now clock b mint amt mkt st).
Proof. apply find_groups_returns. Qed.

(** X6.  The loop of [run] never raises in [find_groups] or
    [analyze_group]: whatever the stores hold, [find_groups] records a
    vote for the group before [analyze_group] takes the maximum of the
    votes.  [analyze_group] on its own does raise ([max] of an empty
    sequence) for a group with sightings on two tokens and no vote. *)
Theorem run_buys_never_raises (arrivals : list arrival) (st : state) :
  is_Some (run_buys arrivals st) /\
  analyze_group 0 sample_group (sample_state [] ∅) = None.
Proof.
  split; [|by vm_compute].
  revert st. induction arrivals as [|a rest IH]; intros st; simpl; [done|].
  destruct (process_buy_returns (arr_now a) (arr_clock a) (arr_buyer a)
              (arr_mint a) (arr_amount a) (arr_market a) st) as [[st1 out] ->].
  destruct (IH st1) as [[st2 outs] ->]. done.
Qed.

End SmartMoneyLoop.

Module SmartMoneyAlerts.
Import SmartMoney SmartMoneySpec SmartMoneyRun SmartMoneyRunSpec.

(** An alert is the one the stores determine. *)
Lemma analyze_group_alert clock group st a :
  emitted (analyze_group clock group st) = Some a ->
  a = alert_for clock group (leader a) st /\
  qualifying_promotion st group (leader a).
Proof.
  intros Ha.
  destruct (SmartMoneyVoting.analyze_group_emitted _ _ _ _ Ha) as [Hq Hc].
  split; [|done].
  rewrite (SmartMoneyVoting.analyze_group_majority _ _ _ _ Hq) in Ha.
  unfold cooldown_elapsed in Hc.
  destruct (last_logged_leader st !! leader a) as [last|]; simpl in Ha.
  - rewrite (proj2 (Z.gtb_gt _ _)) in Ha by lia. simpl in Ha. congruence.
  - congruence.
Qed.

Lemma find_groups_formed clock now ev st a :
  emitted (find_groups clock now ev st) = Some a ->
  let group : gset string :=
    list_to_set (matched_buyers now ev (recent_buys st) ++ [buyer ev]) in
  let st' :=
    mkState (recent_buys st)
            (dd_append group (token_mint ev) (group_sightings st))
            (dd_append group (buyer ev) (group_first_buyer st))
            (last_logged_leader st) in
  (2 <= length (matched_buyers now ev (recent_buys st)))%nat /\
  a = alert_for clock group (leader a) st' /\
  qualifying_promotion st' group (leader a).
Proof.
  unfold find_groups. case_bool_decide as Hn; [|done]. intros Ha.
  split; [unfold MIN_GROUP_SIZE in Hn; lia|]. by apply analyze_group_alert.
Qed.

Lemma matched_buyers_sound now ev buys w :
  w ∈ matched_buyers now ev buys -> window_buy now ev buys w.
Proof.
  unfold matched_buyers. intros Hw.
  apply SmartMoneyGroups.scan_recent_sound in Hw as (e & He & Hrest).
  exists e. split; [|done].
  apply list_elem_of_In, in_rev. by apply list_elem_of_In.
Qed.

Lemma group_elem now ev buys w :
  w ∈ (list_to_set (matched_buyers now ev buys ++ [buyer ev]) : gset string)
  <-> w ∈ matched_buyers now ev buys \/ w = buyer ev.
Proof.
  rewrite elem_of_list_to_set, elem_of_app, elem_of_cons, elem_of_nil.
  tauto.
Qed.

(** X7.  An alert logged by [find_groups] names a group that holds the
    buyer of the triggering event and otherwise only wallets with a buy on
    the same mint, in the buffer, no older than the window; the group has at
    least two members and was seen on at least two tokens; the leader's
    votes are more than half of the votes, of which there is one per
    formation of the group, this one included; the alert carries the clock
    read by [analyze_group]. *)
Theorem find_groups_alert clock now ev st a :
  emitted (find_groups clock now ev st) = Some a ->
  buyer ev ∈ members a /\
  (forall w, w ∈ members a ->
     w = buyer ev \/ window_buy now ev (recent_buys st) w) /\
  (2 <= size (members a))%nat /\
  (2 <= tokens_seen_count a)%nat /\
  2 * leader_votes a > total_votes a /\
  total_votes a = Z.of_nat (length (first_buyers_of st (members a))) + 1 /\
  logged_at a = clock.
Proof.
  intros (Hlen & Heq & [Hseen Hmaj])%find_groups_formed.
  set (group := list_to_set _ : gset string) in *.
  pose proof (f_equal members Heq) as Hm.
  pose proof (f_equal tokens_seen_count Heq) as Ht.
  pose proof (f_equal leader_votes Heq) as Hv.
  pose proof (f_equal total_votes Heq) as Htot.
  pose proof (f_equal logged_at Heq) as Hl.
  unfold alert_for in Hm, Ht, Hv, Htot, Hl.
  cbn [members tokens_seen_count leader_votes total_votes logged_at]
    in Hm, Ht, Hv, Htot, Hl.
  rewrite Hm, Ht, Hv, Htot, Hl. clear Heq Hm Ht Hv Htot Hl.
  split_and!.
  - apply group_elem. by right.
  - intros w [Hw| ->]%group_elem; [right|by left].
    by apply matched_buyers_sound.
  - apply size_two_distinct.
    assert (Hex : exists w, w ∈ matched_buyers now ev (recent_buys st)).
    { clear -Hlen.
      destruct (matched_buyers now ev (recent_buys st)) as [|w rest];
        [simpl in Hlen; lia|].
      exists w. apply list_elem_of_here. }
    destruct Hex as [w Hw].
    exists w, (buyer ev). split_and!.
    + apply matched_buyers_sound in Hw as (e & _ & <- & _ & Hne & _). done.
    + apply group_elem. by left.
    + apply group_elem. by right.
  - unfold reached_min_sightings, MIN_GROUP_SIGHTINGS in Hseen. lia.
  - done.
  - unfold first_buyers_of. cbn [group_first_buyer].
    rewrite dd_append_lookup. simpl. rewrite length_app. simpl. lia.
  - done.
Qed.

Lemma find_groups_alert_witness :
  let buys := [ mkBuyEvent (Time.seconds 60) "A" "MintY" 10 "Raydium";
                mkBuyEvent (Time.seconds 65) "B" "MintY" 10 "Raydium";
                mkBuyEvent (Time.seconds 68) "C" "MintY" 10 "Raydium" ] in
  let st := mkState buys {[ sample_group := ["MintX"] ]}
                    {[ sample_group := ["C"] ]} ∅ in
  let ev := mkBuyEvent (Time.seconds 68) "C" "MintY" 10 "Raydium" in
  let a := mkAlert "C" sample_group 2 2 2 (Time.seconds 68) in
  emitted (find_groups (Time.seconds 68) (Time.seconds 68) ev st) = Some a /\
  "C" ∈ members a /\ (2 <= size (members a))%nat.
Proof.
  intros buys st ev a.
  assert (Ha : emitted (find_groups (Time.seconds 68) (Time.seconds 68) ev st)
               = Some a) by (vm_compute; reflexivity).
  split; [exact Ha|].
  destruct (find_groups_alert _ _ _ _ _ Ha) as (H1 & _ & H2 & _).
  split; [exact H1 | exact H2].
Defined.

Lemma votes_for_pos_elem (w : string) (votes : list string) :
  0 < votes_for w votes -> w ∈ votes.
Proof.
  unfold votes_for. intros Hpos.
  destruct (filter (fun v => v = w) votes) as [|v rest] eqn:Hf;
    [simpl in Hpos; lia|].
  assert (Hv : v ∈ filter (fun v => v = w) votes)
    by (rewrite Hf; apply list_elem_of_here).
  by apply list_elem_of_filter in Hv as [-> Hv].
Qed.

Lemma members_vote_append group b first_buyer :
  members_vote first_buyer -> b ∈ group ->
  members_vote (dd_append group b first_buyer).
Proof.
  intros Hinv Hb g votes. unfold dd_append.
  destruct (decide (group = g)) as [<-|Hne].
  - rewrite lookup_insert_eq. intros [= <-]. apply Forall_app.
    split; [|by repeat constructor].
    destruct (first_buyer !! group) as [l|] eqn:E; simpl;
      [by apply (Hinv group)|constructor].
  - rewrite lookup_insert_ne by done. apply Hinv.
Qed.

Lemma members_vote_get group first_buyer :
  members_vote first_buyer -> members_vote (snd (dd_get group first_buyer)).
Proof.
  unfold dd_get. destruct (first_buyer !! group) eqn:E; simpl; [done|].
  intros Hinv g votes. destruct (decide (group = g)) as [<-|Hne].
  - rewrite lookup_insert_eq. intros [= <-]. constructor.
  - rewrite lookup_insert_ne by done. apply Hinv.
Qed.

Lemma analyze_group_first_buyer clock group st st' out :
  analyze_group clock group st = Some (st', out) ->
  group_first_buyer st' = group_first_buyer st \/
  group_first_buyer st' = snd (dd_get group (group_first_buyer st)).
Proof.
  unfold analyze_group.
  destruct (dd_get group (group_sightings st)) as [sightings gs].
  case_bool_decide; [|intros [= <- <-]; by left].
  destruct (dd_get group (group_first_buyer st)) as [first_buyers gf].
  destruct (max_by_count _) as [[ldr votes]|]; [|done].
  destruct (2 * votes >? _); [|intros [= <- <-]; by right].
  destruct (last_logged_leader st !! ldr); [|intros [= <- <-]; by right].
  destruct (_ >? _); intros [= <- <-]; by right.
Qed.

Lemma find_groups_members_vote clock now ev st st' out :
  members_vote (group_first_buyer st) ->
  find_groups clock now ev st = Some (st', out) ->
  members_vote (group_first_buyer st').
Proof.
  intros Hinv. unfold find_groups.
  case_bool_decide; [|by intros [= <- <-]].
  intros Hrun. apply analyze_group_first_buyer in Hrun as [-> | ->]; simpl.
  - apply members_vote_append; [done|]. apply group_elem. by right.
  - apply members_vote_get, members_vote_append; [done|].
    apply group_elem. by right.
Qed.

Lemma find_groups_leader clock now ev st a :
  members_vote (group_first_buyer st) ->
  emitted (find_groups clock now ev st) = Some a ->
  leader a ∈ members a.
Proof.
  intros Hinv (_ & Heq & [_ Hmaj])%find_groups_formed.
  set (group := list_to_set _ : gset string) in *.
  pose proof (f_equal members Heq) as Hm.
  unfold alert_for in Hm. cbn [members] in Hm. rewrite Hm.
  assert (Hin : leader a ∈ first_buyers_of
            (mkState (recent_buys st)
               (dd_append group (token_mint ev) (group_sightings st))
               (dd_append group (buyer ev) (group_first_buyer st))
               (last_logged_leader st)) group).
  { apply votes_for_pos_elem. lia. }
  unfold first_buyers_of in Hin. cbn [group_first_buyer] in Hin.
  destruct (dd_append group (buyer ev) (group_first_buyer st) !! group)
    as [votes|] eqn:Hvotes; simpl in Hin; [|by apply elem_of_nil in Hin].
  assert (Hall : members_vote (dd_append group (buyer ev) (group_first_buyer st))).
  { apply members_vote_append; [done|]. apply group_elem. by right. }
  specialize (Hall group votes Hvotes).
  rewrite Forall_forall in Hall. by apply Hall.
Qed.

Lemma run_buys_leaders (arrivals : list arrival) (st : state) (a : alert) :
  members_vote (group_first_buyer st) ->
  a ∈ alerts_of arrivals st -> leader a ∈ members a.
Proof.
  revert st. induction arrivals as [|x rest IH]; intros st Hinv;
    unfold alerts_of; simpl; [by intros ?%elem_of_nil|].
  destruct (process_buy _ _ _ _ _ _ st) as [[st1 out]|] eqn:Hp;
    [|by intros ?%elem_of_nil].
  unfold process_buy in Hp.
  assert (Hinv1 : members_vote (group_first_buyer st1))
    by (eapply find_groups_members_vote; [|exact Hp]; done).
  assert (Hrest : a ∈ alerts_of rest st1 -> leader a ∈ members a)
    by (by apply IH).
  unfold alerts_of in Hrest.
  destruct (run_buys rest st1) as [[st2 outs]|]; simpl in *;
    [|by intros ?%elem_of_nil].
  destruct out as [x0|]; [|done].
  intros [->|Hin]%elem_of_cons; [|by apply Hrest].
  eapply find_groups_leader; [|by rewrite Hp]. done.
Qed.

(** X8.  Over a run of the loop from empty stores, the leader named in an
    alert is a member of the group of that alert: the only votes ever
    recorded for a group are the buyers of the events that formed it. *)
Theorem run_leader_is_member (arrivals : list arrival) (a : alert) :
  a ∈ alerts_of arrivals initial -> leader a ∈ members a.
Proof.
  apply run_buys_leaders. intros group votes Hl.
  unfold initial in Hl. cbn [group_first_buyer] in Hl.
  by rewrite lookup_empty in Hl.
Qed.

Lemma run_leader_is_member_witness :
  let a := mkAlert "C" sample_group 2 2 2 (Time.seconds 68) in
  a ∈ alerts_of sample_run initial /\ "C" ∈ sample_group.
Proof.
  intros a.
  assert (Ha : a ∈ alerts_of sample_run initial).
  { assert (Hrun : alerts_of sample_run initial = [a])
      by (vm_compute; reflexivity).
    rewrite Hrun. apply list_elem_of_here. }
  split; [exact Ha|]. exact (run_leader_is_member sample_run a Ha).
Defined.

End SmartMoneyAlerts.

(** ** strategy2.py: the loop of [run] *)

Module FastSellLoop.
Import FastSell FastSellSpec FastSellRunSpec.

Lemma process_event_histories net now b m amt sell st :
  buyer_histories (fst (process_event net now b m amt sell st))
  = dd_append b (mkEvent now b m amt sell) (buyer_histories st).
Proof.
  unfold process_event. destruct sell; [|done].
  unfold analyze_fast_traders. cbn [buyer buyer_histories].
  rewrite dd_get_dd_append. case_bool_decide; [done|].
  by destruct (scan_history _ _ _ _).
Qed.

Lemma process_event_recent net now b m amt sell st :
  recent_events (fst (process_event net now b m amt sell st))
  = prune_old_events now (recent_events st ++ [mkEvent now b m amt sell]).
Proof.
  unfold process_event. destruct sell; [|done].
  unfold analyze_fast_traders. cbn [buyer buyer_histories].
  rewrite dd_get_dd_append. case_bool_decide; [done|].
  by destruct (scan_history _ _ _ _).
Qed.

Lemma run_events_cons_fst net a rest st :
  fst (run_events net (a :: rest) st)
  = fst (run_events net rest
           (fst (process_event net (arr_now a) (arr_buyer a) (arr_mint a)
                               (arr_amount a) (arr_is_sell a) st))).
Proof.
  simpl. destruct (process_event _ _ _ _ _ _ _) as [st1 out]. simpl.
  by destruct (run_events net rest st1).
Qed.

(** X9.  The history the detector keeps for a wallet is never pruned:
    after a run of the loop it is the history before the run followed by
    every event of the wallet that arrived, buys and sells, in arrival
    order, whatever their age. *)
Theorem histories_never_pruned net (arrivals : list arrival) (st : state)
    (w : string) :
  history_of (fst (run_events net arrivals st)) w
  = history_of st w
    ++ map to_event (filter (fun a => arr_buyer a = w) arrivals).
Proof.
  revert st. induction arrivals as [|a rest IH]; intros st.
  - simpl. by rewrite app_nil_r.
  - rewrite run_events_cons_fst, IH. unfold history_of at 1.
    rewrite process_event_histories. unfold dd_append.
    destruct (decide (arr_buyer a = w)) as [<-|Hne].
    + rewrite lookup_insert_eq, filter_cons_True by done. simpl.
      by rewrite <- app_assoc.
    + rewrite lookup_insert_ne, filter_cons_False by done. done.
Qed.

(** What the scan logs, it logs for a buy of the list that the sell
    follows within the window, with the market cap the filter saw. *)
Lemma scan_history_alert net event relevant caps a :
  snd (scan_history net event relevant caps) = Some a ->
  is_sell event = true /\
  alert_buyer a = buyer event /\ alert_mint a = mint event /\
  alert_cap a = market_cap_seen net (mint event) caps /\
  Qle_bool (alert_cap a) MARKET_CAP_THRESHOLD = true /\
  exists past,
    past ∈ relevant /\ is_sell past = false /\
    0 < timestamp event - timestamp past <= Time.seconds TIME_WINDOW_SECONDS /\
    alert_time_diff a = timestamp event - timestamp past.
Proof.
  induction relevant as [|e rest IH]; simpl; [done|].
  assert (Hrec : snd (scan_history net event rest caps) = Some a ->
    is_sell event = true /\
    alert_buyer a = buyer event /\ alert_mint a = mint event /\
    alert_cap a = market_cap_seen net (mint event) caps /\
    Qle_bool (alert_cap a) MARKET_CAP_THRESHOLD = true /\
    exists past,
      past ∈ e :: rest /\ is_sell past = false /\
      0 < timestamp event - timestamp past <= Time.seconds TIME_WINDOW_SECONDS /\
      alert_time_diff a = timestamp event - timestamp past).
  { intros (H1 & H2 & H3 & H4 & H5 & past & Hin & Hrest)%IH.
    split_and!; [done..|]. exists past.
    split; [by apply list_elem_of_further | done]. }
  destruct (is_sell e) eqn:He; simpl; [exact Hrec|].
  destruct (is_sell event) eqn:Hev; simpl; [|exact Hrec].
  destruct (Z.ltb_spec 0 (timestamp event - timestamp e)) as [Hlo|]; simpl;
    [|exact Hrec].
  destruct (Z.leb_spec (timestamp event - timestamp e)
              (Time.seconds TIME_WINDOW_SECONDS)) as [Hhi|]; simpl;
    [|exact Hrec].
  unfold market_cap_seen.
  destruct (Qeq_bool (default (0 : Q) (caps !! mint event)) 0); simpl.
  - match goal with
    | |- (if Qle_bool ?c _ then _ else _) = _ -> _ =>
        destruct (Qle_bool c MARKET_CAP_THRESHOLD) eqn:Hcap; [|done]
    end.
    intros [= <-]. simpl. split_and!; [done..|].
    exists e. split_and!; [apply list_elem_of_here|done..].
  - match goal with
    | |- (if Qle_bool ?c _ then _ else _) = _ -> _ =>
        destruct (Qle_bool c MARKET_CAP_THRESHOLD) eqn:Hcap; [|done]
    end.
    intros [= <-]. simpl. split_and!; [done..|].
    exists e. split_and!; [apply list_elem_of_here|done..].
Qed.

Lemma analyze_fast_traders_alert net now event st a :
  snd (analyze_fast_traders net now event st) = Some a ->
  snd (scan_history net event
         (filter (fun e => mint e = mint event)
                 (history_of st (buyer event)))
         (token_market_caps st)) = Some a.
Proof.
  unfold analyze_fast_traders, history_of.
  pose proof (dd_get_fst (buyer event) (buyer_histories st)) as Hfst.
  destruct (dd_get (buyer event) (buyer_histories st)) as [history histories].
  simpl in Hfst. subst history.
  case_bool_decide; [done|].
  by destruct (scan_history _ _ _ _).
Qed.

(** X10.  An alert is logged only for a sell, names the seller and the
    mint sold, and rests on a buy of that mint in the seller's earlier
    history that the sell follows by more than 0 and at most
    [TIME_WINDOW_SECONDS] seconds; the time reported is that delay, and the
    market cap reported is the cached or fetched one, at most
    [MARKET_CAP_THRESHOLD]. *)
Theorem fast_sell_alert_sound net now b m amt sell st a :
  snd (process_event net now b m amt sell st) = Some a ->
  sell = true /\ alert_buyer a = b /\ alert_mint a = m /\
  alert_cap a = market_cap_seen net m (token_market_caps st) /\
  Qle_bool (alert_cap a) MARKET_CAP_THRESHOLD = true /\
  exists past,
    past ∈ history_of st b /\ mint past = m /\ is_sell past = false /\
    0 < now - timestamp past <= Time.seconds TIME_WINDOW_SECONDS /\
    alert_time_diff a = now - timestamp past.
Proof.
  unfold process_event. destruct sell; [|done].
  intros Ha%analyze_fast_traders_alert.
  apply scan_history_alert in Ha
    as (_ & H2 & H3 & H4 & H5 & past & Hin & Hbuy & Hwin & Hdiff).
  cbn [buyer mint timestamp token_market_caps] in *.
  split; [reflexivity|]. split; [exact H2|]. split; [exact H3|].
  split; [exact H4|]. split; [exact H5|]. exists past.
  apply list_elem_of_filter in Hin as [Hmint Hin]. cbn [mint] in Hmint.
  unfold history_of in Hin. cbn [buyer_histories] in Hin.
  rewrite dd_append_lookup in Hin. simpl in Hin.
  apply elem_of_app in Hin as [Hin|Hin].
  - split; [exact Hin|]. split; [exact Hmint|]. split; [exact Hbuy|].
    split; [exact Hwin | exact Hdiff].
  - apply elem_of_cons in Hin as [->|Hin]; [done|by apply elem_of_nil in Hin].
Qed.

Lemma fast_sell_alert_sound_witness :
  let a := mkAlert "X" "MintY" (Time.seconds 20) (100000 # 1) in
  snd (process_event small_cap_net (Time.seconds 20) "X" "MintY" 100 true
         after_first_buy) = Some a /\
  alert_buyer a = "X" /\ Qle_bool (alert_cap a) MARKET_CAP_THRESHOLD = true.
Proof.
  intros a.
  assert (Ha : snd (process_event small_cap_net (Time.seconds 20) "X" "MintY"
                      100 true after_first_buy) = Some a)
    by (vm_compute; reflexivity).
  split; [exact Ha|].
  destruct (fast_sell_alert_sound _ _ _ _ _ _ _ _ Ha) as (_ & H2 & _ & _ & H5 & _).
  split; [exact H2 | exact H5].
Defined.

(** The scan leaves a cached non-zero market cap as it is. *)
Lemma scan_history_keeps net event relevant caps m c :
  caps !! m = Some c -> Qeq_bool c 0 = false ->
  fst (scan_history net event relevant caps) !! m = Some c.
Proof.
  intros Hc Hnz. induction relevant as [|e rest IH]; simpl; [done|].
  destruct (negb (is_sell e) && is_sell event); [|exact IH].
  destruct ((0 <? _) && (_ <=? _)); [|exact IH].
  destruct (Qeq_bool (default (0 : Q) (caps !! mint event)) 0) eqn:Hz;
    simpl; [|done].
  destruct (decide (mint event = m)) as [Heq|Hne].
  - rewrite Heq, Hc in Hz. simpl in Hz. congruence.
  - by rewrite lookup_insert_ne.
Qed.

Lemma process_event_keeps net now b m' amt sell st m c :
  token_market_caps st !! m = Some c -> Qeq_bool c 0 = false ->
  token_market_caps (fst (process_event net now b m' amt sell st)) !! m
  = Some c.
Proof.
  intros Hc Hnz. unfold process_event. destruct sell; [|done].
  unfold analyze_fast_traders. cbn [buyer buyer_histories token_market_caps].
  destruct (dd_get b _) as [history histories].
  case_bool_decide; [done|].
  match goal with
  | |- context [scan_history ?n ?e ?r ?cs] =>
      pose proof (scan_history_keeps n e r cs m c Hc Hnz) as Hkeep;
      destruct (scan_history n e r cs) as [caps out]
  end.
  exact Hkeep.
Qed.

Lemma process_event_cached net now b m amt sell st c a :
  token_market_caps st !! m = Some c -> Qeq_bool c 0 = false ->
  snd (process_event net now b m amt sell st) = Some a ->
  alert_mint a = m /\ alert_cap a = c.
Proof.
  intros Hc Hnz. unfold process_event. destruct sell; [|done].
  intros Ha%analyze_fast_traders_alert.
  apply scan_history_alert in Ha as (_ & _ & H3 & H4 & _).
  cbn [mint token_market_caps] in *. split; [done|].
  rewrite H4. unfold market_cap_seen. rewrite Hc. simpl. by rewrite Hnz.
Qed.

Lemma process_event_mint net now b m amt sell st a :
  snd (process_event net now b m amt sell st) = Some a -> alert_mint a = m.
Proof.
  unfold process_event. destruct sell; [|done].
  intros Ha%analyze_fast_traders_alert.
  by apply scan_history_alert in Ha as (_ & _ & H3 & _).
Qed.

(** X11.  A non-zero market cap once cached for a mint is never fetched
    again nor replaced: it stays in the cache over any run of the loop,
    whatever the network answers, and every alert for the mint reports
    it. *)
Theorem cached_cap_never_refreshed net (arrivals : list arrival) (st : state)
    (m : string) (c : Q) :
  token_market_caps st !! m = Some c -> Qeq_bool c 0 = false ->
  token_market_caps (fst (run_events net arrivals st)) !! m = Some c /\
  forall a, a ∈ snd (run_events net arrivals st) ->
            alert_mint a = m -> alert_cap a = c.
Proof.
  intros Hc Hnz. revert st Hc.
  induction arrivals as [|x rest IH]; intros st Hc.
  - split; [done|]. by intros a ?%elem_of_nil.
  - simpl.
    pose proof (process_event_keeps net (arr_now x) (arr_buyer x) (arr_mint x)
                  (arr_amount x) (arr_is_sell x) st m c Hc Hnz) as Hkeep.
    pose proof (process_event_cached net (arr_now x) (arr_buyer x) m
                  (arr_amount x) (arr_is_sell x) st c) as Hcached.
    pose proof (process_event_mint net (arr_now x) (arr_buyer x) (arr_mint x)
                  (arr_amount x) (arr_is_sell x) st) as Hmint.
    destruct (process_event net (arr_now x) (arr_buyer x) (arr_mint x)
                (arr_amount x) (arr_is_sell x) st) as [st1 out] eqn:Hp.
    simpl in Hkeep, Hmint.
    destruct (IH st1 Hkeep) as [IH1 IH2].
    destruct (run_events net rest st1) as [st2 outs]. simpl in *.
    split; [done|]. intros a Ha Hm.
    destruct out as [a0|]; [|by apply IH2].
    apply elem_of_cons in Ha as [->|Ha]; [|by apply IH2].
    assert (Hx : arr_mint x = m) by (by rewrite <- (Hmint a0)).
    rewrite Hx in Hp. specialize (Hcached a0 Hc Hnz).
    rewrite Hp in Hcached. by apply Hcached.
Qed.

Lemma cached_cap_never_refreshed_witness :
  let r := run_events (fun _ => request_exception)
             [mkArrival (Time.seconds 20) "X" "MintY" 100 true]
             after_first_buy_cached in
  token_market_caps (fst r) !! "MintY" = Some (100000 # 1) /\
  forall a, a ∈ snd r -> alert_mint a = "MintY" -> alert_cap a = 100000 # 1.
Proof.
  apply (cached_cap_never_refreshed (fun _ => request_exception)
           [mkArrival (Time.seconds 20) "X" "MintY" 100 true]
           after_first_buy_cached "MintY" (100000 # 1)).
  - reflexivity.
  - reflexivity.
Defined.

(** One step of the loop reads the buffer [recent_events] only to append
    to it and prune it. *)
Lemma process_event_ignores_recent net now b m amt sell events1 events2
    histories caps :
  exists events1' events2' histories' caps' out,
    process_event net now b m amt sell (mkState events1 histories caps)
    = (mkState events1' histories' caps', out) /\
    process_event net now b m amt sell (mkState events2 histories caps)
    = (mkState events2' histories' caps', out).
Proof.
  unfold process_event. cbn [recent_events buyer_histories token_market_caps].
  destruct sell; [|by do 5 eexists].
  unfold analyze_fast_traders.
  cbn [recent_events buyer_histories token_market_caps buyer].
  destruct (dd_get b _) as [history hs].
  case_bool_decide; [by do 5 eexists|].
  destruct (scan_history _ _ _ _) as [caps' out]. by do 5 eexists.
Qed.

Lemma run_events_ignores_recent net arrivals :
  forall events1 events2 histories caps,
  exists events1' events2' histories' caps' outs,
    run_events net arrivals (mkState events1 histories caps)
    = (mkState events1' histories' caps', outs) /\
    run_events net arrivals (mkState events2 histories caps)
    = (mkState events2' histories' caps', outs).
Proof.
  induction arrivals as [|x rest IH]; intros events1 events2 histories caps.
  - by do 5 eexists.
  - simpl.
    destruct (process_event_ignores_recent net (arr_now x) (arr_buyer x)
                (arr_mint x) (arr_amount x) (arr_is_sell x) events1 events2
                histories caps) as (e1 & e2 & h & c & out & -> & ->).
    destruct (IH e1 e2 h c) as (e1' & e2' & h' & c' & outs & -> & ->).
    by do 5 eexists.
Qed.

(** X12.  The buffer [recent_events] is only appended to and pruned: the
    alerts of a run, the histories and the market-cap cache are the same
    whatever the buffer holds. *)
Theorem recent_events_never_read net (arrivals : list arrival)
    (events : list BuySellEvent) (histories : gmap string (list BuySellEvent))
    (caps : gmap string Q) :
  let r1 := run_events net arrivals (mkState events histories caps) in
  let r2 := run_events net arrivals (mkState [] histories caps) in
  snd r1 = snd r2 /\
  buyer_histories (fst r1) = buyer_histories (fst r2) /\
  token_market_caps (fst r1) = token_market_caps (fst r2).
Proof.
  destruct (run_events_ignores_recent net arrivals events [] histories caps)
    as (e1 & e2 & h & c & outs & H1 & H2).
  simpl. by rewrite H1, H2.
Qed.

End FastSellLoop.

(** ** clickhouseDB/killFollowStrategy.py: the result of [detect_leader] *)

(** A filter that keeps keys keeps them distinct. *)
Lemma omap_keys_NoDup {K V W : Type} (f : K * V -> option (K * W))
    (l : list (K * V)) :
  (forall kv kw, f kv = Some kw -> fst kw = fst kv) ->
  NoDup l.*1 -> NoDup (omap f l).*1.
Proof.
  intros Hkey. induction l as [|kv rest IH]; csimpl; [done|].
  intros [Hnotin Hnd]%NoDup_cons. specialize (IH Hnd).
  destruct (f kv) as [kw|] eqn:Hf; csimpl; [|done].
  apply NoDup_cons. split; [|done].
  rewrite (Hkey _ _ Hf). intros Hin. apply Hnotin.
  apply list_elem_of_fmap in Hin as (kw' & -> & Hin).
  apply list_elem_of_omap in Hin as (kv' & Hin & Hf').
  rewrite (Hkey _ _ Hf'). apply list_elem_of_fmap. by exists kv'.
Qed.

Module KillFollowResult.
Import KillFollow KillFollowSpec.

(** The entries of the result, read off the appended mints. *)
Lemma detect_leader_entry mh rows w tokens :
  (w, tokens) ∈ detect_leader mh rows <->
  let distinct : gset string :=
    list_to_set (tokens_of w (scan_trades mh (collect_trades rows))) in
  tokens = elements distinct /\ (2 <= size distinct)%nat.
Proof.
  unfold detect_leader.
  set (susp := scan_trades mh (collect_trades rows)).
  pose proof (KillFollowScan.scan_trades_NoDup mh (collect_trades rows)) as Hnd.
  fold susp in Hnd. rewrite list_elem_of_omap. split.
  - intros ([addr toks] & Hin & Hsome).
    case_bool_decide as Hsize; [|done]. injection Hsome as -> <-.
    unfold tokens_of. by rewrite (od_elem_lookup _ _ _ Hnd Hin).
  - simpl. intros [-> Hsize]. unfold tokens_of in *.
    destruct (od_lookup w susp) as [toks|] eqn:Hl.
    + exists (w, toks). split; [by apply od_lookup_Some_elem|].
      simpl in *. by rewrite bool_decide_eq_true_2.
    + exfalso. revert Hsize. simpl.
      change ((2 <= size (∅ : gset string))%nat -> False).
      rewrite size_empty. lia.
Qed.

Lemma round_trip_mono mh1 mh2 rows trd mnt :
  mh1 <= mh2 -> round_trip mh1 rows trd mnt -> round_trip mh2 rows trd mnt.
Proof.
  intros Hle (t0 & k & Hb & Hs & Hk). exists t0, k.
  split_and!; [done..|lia|]. unfold Time.seconds in *. lia.
Qed.

Lemma distinct_tokens_elem mh rows w m :
  m ∈ (list_to_set (tokens_of w (scan_trades mh (collect_trades rows)))
       : gset string)
  <-> round_trip mh rows w m.
Proof. rewrite elem_of_list_to_set. apply KillFollowTheory.tokens_round_trip. Qed.

(** X13.  In the result of [detect_leader] every address occurs once, and
    its token list has no repetition and at least two tokens. *)
Theorem detect_leader_well_formed (max_hold_time_sec : Z) (rows : list row) :
  NoDup (detect_leader max_hold_time_sec rows).*1 /\
  Forall (fun entry => NoDup (snd entry) /\ (2 <= length (snd entry))%nat)
         (detect_leader max_hold_time_sec rows).
Proof.
  split.
  - unfold detect_leader. apply omap_keys_NoDup.
    + intros [addr tokens] kw. case_bool_decide; [|done]. by intros [= <-].
    + apply KillFollowScan.scan_trades_NoDup.
  - apply Forall_forall. intros [w tokens] [-> Hsize]%detect_leader_entry.
    simpl. split; [apply NoDup_elements | exact Hsize].
Qed.

(** X14.  A longer maximal hold time only adds to the result: an address
    reported with some tokens is still reported, with at least these
    tokens, under any larger [max_hold_time_sec]. *)
Theorem detect_leader_monotone (mh1 mh2 : Z) (rows : list row) :
  mh1 <= mh2 ->
  forall w tokens1,
    (w, tokens1) ∈ detect_leader mh1 rows ->
    exists tokens2,
      (w, tokens2) ∈ detect_leader mh2 rows /\ tokens1 ⊆ tokens2.
Proof.
  intros Hle w tokens1 [-> Hsize]%detect_leader_entry.
  assert (Hsub : forall m,
    m ∈ (list_to_set (tokens_of w (scan_trades mh1 (collect_trades rows)))
         : gset string) ->
    m ∈ (list_to_set (tokens_of w (scan_trades mh2 (collect_trades rows)))
         : gset string)).
  { intros m Hm. apply distinct_tokens_elem.
    apply (round_trip_mono mh1); [done|]. by apply distinct_tokens_elem. }
  eexists. split.
  - apply detect_leader_entry. split; [reflexivity|].
    apply size_two_distinct. apply size_two_distinct in Hsize
      as (m1 & m2 & Hne & H1 & H2).
    exists m1, m2. split_and!; [done|by apply Hsub..].
  - intros m Hm%elem_of_elements. apply elem_of_elements. by apply Hsub.
Qed.

Lemma detect_leader_monotone_witness :
  exists tokens2,
    ("X", elements ({[ "MintY"; "MintZ" ]} : gset string))
      ∈ detect_leader 30 sample_rows /\
    ("X", tokens2) ∈ detect_leader 40 sample_rows /\
    elements ({[ "MintY"; "MintZ" ]} : gset string) ⊆ tokens2.
Proof.
  assert (Hin : ("X", elements ({[ "MintY"; "MintZ" ]} : gset string))
                  ∈ detect_leader 30 sample_rows).
  { apply list_elem_of_In. vm_compute. tauto. }
  destruct (detect_leader_monotone 30 40 sample_rows ltac:(lia) _ _ Hin)
    as (tokens2 & H2 & Hsub).
  exists tokens2. split; [exact Hin|]. split; [exact H2 | exact Hsub].
Defined.

(** X15.  With a maximal hold time of zero or less nothing is reported,
    whatever the rows. *)
Theorem detect_leader_needs_positive_hold (max_hold_time_sec : Z)
    (rows : list row) :
  max_hold_time_sec <= 0 -> detect_leader max_hold_time_sec rows = [].
Proof.
  intros Hle.
  destruct (detect_leader max_hold_time_sec rows) as [|[w tokens] rest] eqn:Hd;
    [done|].
  assert (Hin : (w, tokens) ∈ detect_leader max_hold_time_sec rows)
    by (rewrite Hd; apply list_elem_of_here).
  apply detect_leader_entry in Hin as [_ Hsize].
  apply size_two_distinct in Hsize as (m1 & _ & _ & H1 & _).
  apply distinct_tokens_elem in H1 as (t0 & k & _ & _ & Hk).
  unfold Time.seconds in Hk. lia.
Qed.

Lemma detect_leader_needs_positive_hold_witness :
  detect_leader 0 sample_rows = [].
Proof. apply detect_leader_needs_positive_hold. lia. Defined.

Lemma actions_of_rev rows trd mnt a :
  a ∈ actions_of (rev rows) trd mnt <-> a ∈ actions_of rows trd mnt.
Proof.
  unfold actions_of. rewrite !list_elem_of_In, !in_map_iff.
  split; intros (r & Hr & Hin); exists r; (split; [done|]);
    apply list_elem_of_In; apply list_elem_of_In in Hin;
    apply list_elem_of_filter in Hin as [HP Hin];
    apply list_elem_of_filter; (split; [done|]);
    apply list_elem_of_In; apply list_elem_of_In in Hin.
  - by apply in_rev.
  - by apply in_rev in Hin.
Qed.

(** X16.  The result depends on the rows only through the set of
    [(ts, txType)] entries of each trader and mint: the order of the rows,
    repeated rows and the market-cap column do not change which addresses
    are reported, nor the tokens reported for an address.  The tokens are
    compared as sets: the order of [list(set(tokens))] is not fixed by the
    code, and the two lists are equal up to a permutation. *)
Theorem detect_leader_depends_on_trades (max_hold_time_sec : Z)
    (rows rows' : list row) :
  (forall trd mnt a,
     a ∈ actions_of rows trd mnt <-> a ∈ actions_of rows' trd mnt) ->
  forall w,
    (w ∈ (detect_leader max_hold_time_sec rows).*1 <->
     w ∈ (detect_leader max_hold_time_sec rows').*1) /\
    (forall tokens tokens',
       (w, tokens) ∈ detect_leader max_hold_time_sec rows ->
       (w, tokens') ∈ detect_leader max_hold_time_sec rows' ->
       tokens ≡ₚ tokens').
Proof.
  intros Hsame.
  assert (Hrt : forall w m, round_trip max_hold_time_sec rows w m <->
                            round_trip max_hold_time_sec rows' w m).
  { intros w m. unfold round_trip.
    split; intros (t0 & k & Hb & Hs & Hk); exists t0, k;
      (split_and!; [by apply Hsame|by apply Hsame|lia..]). }
  intros w.
  assert (Hset : forall m,
    m ∈ (list_to_set (tokens_of w (scan_trades max_hold_time_sec
                                     (collect_trades rows))) : gset string)
    <-> m ∈ (list_to_set (tokens_of w (scan_trades max_hold_time_sec
                                         (collect_trades rows')))
             : gset string)).
  { intros m. rewrite !distinct_tokens_elem. apply Hrt. }
  split.
  - rewrite !KillFollowTheory.detect_leader_keys, !size_two_distinct.
    split; intros (m1 & m2 & Hne & H1 & H2); exists m1, m2;
      (split_and!; [done|by apply Hset..]).
  - intros tokens tokens' [-> _]%detect_leader_entry
           [-> _]%detect_leader_entry. simpl.
    apply NoDup_Permutation; [apply NoDup_elements..|].
    intros m. rewrite !elem_of_elements. apply Hset.
Qed.

Lemma detect_leader_depends_on_trades_witness :
  ("X" ∈ (detect_leader 30 sample_rows).*1 <->
   "X" ∈ (detect_leader 30 (rev sample_rows)).*1) /\
  elements ({[ "MintY"; "MintZ" ]} : gset string)
  ≡ₚ elements ({[ "MintZ"; "MintY" ]} : gset string).
Proof.
  destruct (detect_leader_depends_on_trades 30 sample_rows (rev sample_rows)
              (fun trd mnt a => iff_sym (actions_of_rev sample_rows trd mnt a))
              "X") as [Hkeys Htokens].
  split; [exact Hkeys|].
  apply Htokens.
  - apply list_elem_of_In. vm_compute. tauto.
  - apply list_elem_of_In. vm_compute. tauto.
Defined.

End KillFollowResult.

(** ** clickhouseDB/sequenceStrategy.py: the leaders reported *)

Module SequenceLeaders.
Import Sequence SequenceSpec SequenceRunSpec.

(** X17.  [detect_following_patterns] never raises on the tracker that
    [find_clusters] builds, for any rows and any time window: every cluster
    filed there has a first buyer.  On a tracker with an empty cluster it
    does raise ([seq[0]] on an empty sequence). *)
Theorem detect_leader_never_raises (rows : list row) (time_window_sec : Z) :
  is_Some (detect_following_patterns (find_clusters rows time_window_sec)) /\
  detect_following_patterns
    [(["A"], [("Mint1", []); ("Mint2", [mkEvent 0 "A" 1])])] = None.
Proof.
  split; [|by vm_compute].
  destruct (SequenceWellFormed.find_clusters_well_formed rows time_window_sec)
    as [_ Hne].
  destruct (SequencePatterns.analyze_combos_spec _ [] Hne) as (lc & Hlc & _).
  unfold detect_following_patterns. by rewrite Hlc.
Qed.

(** The traders of a cluster filed under a key are the key, reordered. *)
Lemma cluster_traders rows tw key mcs mc :
  (key, mcs) ∈ find_clusters rows tw -> mc ∈ mcs ->
  map ev_trader (snd mc) ≡ₚ key /\ (3 <= length (snd mc))%nat.
Proof.
  intros Hentry Hmc.
  assert (Hin : mc ∈ clusters_of key (find_clusters rows tw)).
  { unfold clusters_of.
    rewrite (od_elem_lookup _ _ _
               (SequenceWellFormed.find_clusters_NoDup rows tw) Hentry).
    done. }
  apply SequenceRetained.find_clusters_clusters in Hin
    as (mnt & events & before & seed & later & _ & _ & -> & Hlen & ->).
  split; [|done]. simpl. unfold participants_key.
  symmetry. apply merge_sort_Permutation.
Qed.

Lemma head_elem {A : Type} (l : list A) (x : A) : head l = Some x -> x ∈ l.
Proof. destruct l as [|y l']; [done|]. intros [= ->]. apply list_elem_of_here. Qed.

Lemma candidate_of_elem entry leader ev :
  (leader, ev) ∈ candidate_of entry ->
  (2 <= length (snd entry))%nat /\
  ev = mkEvidence (map fst (snd entry)) (fst entry) (sequences_of (snd entry)) /\
  ~ all_identical (sequences_of (snd entry)) /\
  exists mc, mc ∈ snd entry /\ leader ∈ map ev_trader (snd mc).
Proof.
  destruct entry as [combo mcs]. unfold candidate_of. simpl.
  case_bool_decide as Hlen; simpl; [|by intros ?%elem_of_nil].
  case_bool_decide as Hsize; simpl; [|by intros ?%elem_of_nil].
  destruct (mapM head (sequences_of mcs)) as [firsts|] eqn:Hfirsts; simpl;
    [|by intros ?%elem_of_nil].
  destruct (most_common_first firsts) as [l|] eqn:Hl;
    [|by intros ?%elem_of_nil].
  intros Hin. apply elem_of_cons in Hin as [[= -> ->]|Hin];
    [|by apply elem_of_nil in Hin].
  split_and!; [done|done|by apply SequencePatterns.several_sequences|].
  assert (Hne : firsts <> []).
  { intros ->. apply length_mapM in Hfirsts. unfold sequences_of in Hfirsts.
    rewrite length_map in Hfirsts. simpl in Hfirsts.
    unfold mint_cluster in *. lia. }
  destruct (SequencePatterns.most_common_first_spec firsts Hne)
    as (l' & Hl' & Hin & _).
  rewrite Hl in Hl'. injection Hl' as <-.
  apply mapM_Some in Hfirsts.
  apply list_elem_of_lookup in Hin as [i Hi].
  destruct (Forall2_lookup_r _ _ _ _ _ Hfirsts Hi) as (s & Hs & Hhead).
  unfold sequences_of in Hs. apply list_lookup_fmap_Some in Hs
    as (mc & -> & Hmc).
  exists mc. split; [by eapply list_elem_of_lookup_2|].
  by apply head_elem.
Qed.

(** X18.  Every leader that [detect_following_patterns] reports from the
    clusters of [find_clusters] is one of the participants of its evidence.
    The evidence has one mint entry and one sequence per cluster, at least
    two of them, the sequences not all alike and each of them the
    participants in some order, and at least three participant entries.
    The entries are counted with their repetitions; they need not be
    distinct wallets or distinct tokens: when A buys MintX three times and
    B once, A is reported with the mints (MintX, MintX) and the
    participants (A, A, B). *)
Theorem candidates_are_participants (rows : list row) (time_window_sec : Z) :
  (forall lc leader ev,
     detect_following_patterns (find_clusters rows time_window_sec) = Some lc ->
     (leader, ev) ∈ candidates lc ->
     leader ∈ participants ev /\
     (3 <= length (participants ev))%nat /\
     (2 <= length (mints ev))%nat /\
     length (sequences ev) = length (mints ev) /\
     Forall (fun s => s ≡ₚ participants ev) (sequences ev) /\
     ~ all_identical (sequences ev)) /\
  detect_following_patterns (find_clusters one_mint_rows 10)
  = Some [("A", [one_mint_evidence])].
Proof.
  split; [|by vm_compute].
  intros lc leader ev Hrun Hin.
  set (ct := find_clusters rows time_window_sec) in *.
  destruct (SequenceWellFormed.find_clusters_well_formed rows time_window_sec)
    as [Hnd Hne]. fold ct in Hnd, Hne.
  destruct (SequencePatterns.analyze_combos_spec ct [] Hne) as (lc' & Hlc & Hperm).
  unfold detect_following_patterns in Hrun. rewrite Hrun in Hlc.
  injection Hlc as <-. rewrite app_nil_r in Hperm.
  rewrite Hperm in Hin.
  apply list_elem_of_In, in_flat_map in Hin as ([combo mcs] & Hentry & Hin).
  apply list_elem_of_In in Hentry, Hin.
  apply candidate_of_elem in Hin as (Hlen & -> & Hdiff & mc & Hmc & Hleader).
  simpl in *.
  assert (Hall : forall mc', mc' ∈ mcs ->
            map ev_trader (snd mc') ≡ₚ combo /\ (3 <= length (snd mc'))%nat)
    by (intros mc' Hmc'; by apply (cluster_traders rows time_window_sec combo mcs)).
  destruct (Hall mc Hmc) as [Hp Hl3].
  split_and!.
  - by rewrite <- Hp.
  - rewrite <- Hp, length_map. done.
  - by rewrite length_map.
  - unfold sequences_of. by rewrite !length_map.
  - apply Forall_forall. intros s Hs. unfold sequences_of in Hs.
    apply list_elem_of_In, in_map_iff in Hs as (mc' & <- & Hmc').
    apply list_elem_of_In in Hmc'. by apply Hall.
  - done.
Qed.

Lemma candidates_are_participants_witness :
  detect_following_patterns (find_clusters two_mint_rows 10)
  = Some [("A", [two_mint_evidence])] /\
  "A" ∈ participants two_mint_evidence /\
  (3 <= length (participants two_mint_evidence))%nat /\
  ~ all_identical (sequences two_mint_evidence).
Proof.
  assert (Hrun : detect_following_patterns (find_clusters two_mint_rows 10)
                 = Some [("A", [two_mint_evidence])])
    by (vm_compute; reflexivity).
  split; [exact Hrun|].
  assert (Hin : ("A", two_mint_evidence)
                  ∈ candidates [("A", [two_mint_evidence])])
    by apply list_elem_of_here.
  destruct (proj1 (candidates_are_participants two_mint_rows 10) _ "A"
              two_mint_evidence Hrun Hin) as (H1 & H2 & _ & _ & _ & H6).
  split; [exact H1|]. split; [exact H2 | exact H6].
Defined.

End SequenceLeaders.

(** ** The streaming loops: what is kept and what is read *)

(** The event just appended outlives the prune that follows. *)
Lemma popleft_snoc_keeps {T : Type} (ts : T -> Z) (cutoff : Z)
    (buf : list T) (e : T) :
  cutoff <= ts e ->
  exists older,
    popleft_while_older ts cutoff (buf ++ [e]) = older ++ [e] /\
    older `suffix_of` buf.
Proof.
  intros Hle. induction buf as [|x rest IH]; simpl.
  - rewrite (proj2 (Z.ltb_ge _ _)) by lia. by exists [].
  - destruct (ts x <? cutoff).
    + destruct IH as (older & -> & Hsuf). exists older.
      split; [done|]. by apply suffix_cons_r.
    + by exists (x :: rest).
Qed.

Module LoopBuffers.

Lemma analyze_group_recent clock group st st' out :
  SmartMoney.analyze_group clock group st = Some (st', out) ->
  SmartMoney.recent_buys st' = SmartMoney.recent_buys st.
Proof.
  unfold SmartMoney.analyze_group.
  destruct (dd_get group (SmartMoney.group_sightings st)) as [sightings gs].
  case_bool_decide; [|by intros [= <- <-]].
  destruct (dd_get group (SmartMoney.group_first_buyer st))
    as [first_buyers gf].
  destruct (max_by_count _) as [[ldr votes]|]; [|done].
  destruct (2 * votes >? _); [|by intros [= <- <-]].
  destruct (SmartMoney.last_logged_leader st !! ldr); [|by intros [= <- <-]].
  destruct (_ >? _); by intros [= <- <-].
Qed.

Lemma find_groups_recent clock now ev st st' out :
  SmartMoney.find_groups clock now ev st = Some (st', out) ->
  SmartMoney.recent_buys st' = SmartMoney.recent_buys st.
Proof.
  unfold SmartMoney.find_groups. case_bool_decide; [|by intros [= <- <-]].
  by intros ->%analyze_group_recent.
Qed.

(** X19.  In both streaming files the event just appended is never pruned
    by the [prune_old_events] that follows: after a step of the loop the
    buffer is what is left of the old buffer, a suffix of it, followed by
    the new event. *)
Theorem appended_event_is_kept :
  (forall now clock b mint amt mkt st,
     exists st' out older,
       SmartMoney.process_buy now clock b mint amt mkt st = Some (st', out) /\
       SmartMoney.recent_buys st'
       = older ++ [SmartMoney.mkBuyEvent now b mint amt mkt] /\
       older `suffix_of` SmartMoney.recent_buys st) /\
  (forall net now b m amt sell st,
     exists older,
       FastSell.recent_events
         (fst (FastSell.process_event net now b m amt sell st))
       = older ++ [FastSell.mkEvent now b m amt sell] /\
       older `suffix_of` FastSell.recent_events st).
Proof.
  split.
  - intros now clock b mint amt mkt st.
    destruct (SmartMoneyLoop.process_buy_returns now clock b mint amt mkt st)
      as [[st' out] Hrun].
    destruct (popleft_snoc_keeps SmartMoney.timestamp
                (now - Time.minutes SmartMoney.HISTORY_MINUTES)
                (SmartMoney.recent_buys st)
                (SmartMoney.mkBuyEvent now b mint amt mkt))
      as (older & Hkeep & Hsuf).
    { simpl. unfold Time.minutes, SmartMoney.HISTORY_MINUTES. lia. }
    exists st', out, older. split; [done|]. split; [|done].
    unfold SmartMoney.process_buy in Hrun.
    apply find_groups_recent in Hrun. rewrite Hrun. exact Hkeep.
  - intros net now b m amt sell st.
    rewrite FastSellLoop.process_event_recent.
    apply popleft_snoc_keeps. simpl.
    unfold Time.minutes, FastSell.HISTORY_MINUTES. lia.
Qed.

End LoopBuffers.

Lemma dd_get_lookup_default {K : Type} `{Countable K} {V : Type} (k k' : K)
    (d : gmap K (list V)) :
  default [] (snd (dd_get k d) !! k') = default [] (d !! k').
Proof.
  unfold dd_get. destruct (d !! k) eqn:E; simpl; [done|].
  destruct (decide (k = k')) as [<-|Hne].
  - by rewrite lookup_insert_eq, E.
  - by rewrite lookup_insert_ne.
Qed.

Lemma dd_append_lookup_default {K : Type} `{Countable K} {V : Type} (k k' : K)
    (v : V) (d : gmap K (list V)) :
  default [] (dd_append k v d !! k')
  = default [] (d !! k') ++ (if decide (k = k') then [v] else []).
Proof.
  unfold dd_append. destruct (decide (k = k')) as [<-|Hne].
  - by rewrite lookup_insert_eq.
  - by rewrite lookup_insert_ne, app_nil_r.
Qed.

Lemma Forall2_rev_both {A B : Type} (P : A -> B -> Prop) l1 l2 :
  Forall2 P l1 l2 -> Forall2 P (rev l1) (rev l2).
Proof.
  induction 1; simpl; [constructor|].
  apply Forall2_app; [done|by constructor].
Qed.

Module SmartMoneyStores.
Import SmartMoney SmartMoneySpec SmartMoneyRun SmartMoneyRunSpec.
Import SmartMoneyStoresSpec.

Lemma run_buys_is_Some arrivals st : is_Some (run_buys arrivals st).
Proof.
  revert st. induction arrivals as [|a rest IH]; intros st; simpl; [done|].
  destruct (SmartMoneyLoop.process_buy_returns (arr_now a) (arr_clock a)
              (arr_buyer a) (arr_mint a) (arr_amount a) (arr_market a) st)
    as [[st1 out] ->].
  destruct (IH st1) as [[st2 outs] ->]. done.
Qed.

Lemma analyze_group_stores clock group st st' out g :
  analyze_group clock group st = Some (st', out) ->
  sightings_of st' g = sightings_of st g /\
  first_buyers_of st' g = first_buyers_of st g /\
  dom (last_logged_leader st) ⊆ dom (last_logged_leader st').
Proof.
  unfold analyze_group, sightings_of, first_buyers_of.
  pose proof (dd_get_lookup_default group g (group_sightings st)) as Hgs.
  pose proof (dd_get_lookup_default group g (group_first_buyer st)) as Hgf.
  destruct (dd_get group (group_sightings st)) as [sightings gs].
  destruct (dd_get group (group_first_buyer st)) as [first_buyers gf].
  simpl in Hgs, Hgf.
  case_bool_decide; [|by intros [= <- <-]].
  destruct (max_by_count _) as [[ldr votes]|]; [|done].
  assert (Hdom : dom (last_logged_leader st)
                 ⊆ dom (<[ldr := clock]> (last_logged_leader st))).
  { rewrite dom_insert. apply union_subseteq_r. }
  destruct (2 * votes >? _); [|by intros [= <- <-]].
  destruct (last_logged_leader st !! ldr); [|by intros [= <- <-]].
  destruct (_ >? _); by intros [= <- <-].
Qed.

Lemma find_groups_stores clock now ev st st' out g :
  find_groups clock now ev st = Some (st', out) ->
  sightings_of st g `prefix_of` sightings_of st' g /\
  first_buyers_of st g `prefix_of` first_buyers_of st' g /\
  dom (last_logged_leader st) ⊆ dom (last_logged_leader st').
Proof.
  unfold find_groups. case_bool_decide; [|by intros [= <- <-]].
  intros (H1 & H2 & H3)%(fun H => analyze_group_stores _ _ _ _ _ g H).
  rewrite H1, H2. unfold sightings_of, first_buyers_of.
  cbn [group_sightings group_first_buyer last_logged_leader] in *.
  rewrite !dd_append_lookup_default.
  split_and!; [by apply prefix_app_r..|done].
Qed.

Lemma final_state_cons a rest st :
  exists st1 out,
    process_buy (arr_now a) (arr_clock a) (arr_buyer a) (arr_mint a)
                (arr_amount a) (arr_market a) st = Some (st1, out) /\
    final_state (a :: rest) st = final_state rest st1.
Proof.
  destruct (SmartMoneyLoop.process_buy_returns (arr_now a) (arr_clock a)
              (arr_buyer a) (arr_mint a) (arr_amount a) (arr_market a) st)
    as [[st1 out] Hp].
  exists st1, out. split; [done|]. unfold final_state. simpl. rewrite Hp.
  by destruct (run_buys_is_Some rest st1) as [[st2 outs] ->].
Qed.

(** X20.  Nothing is ever removed from [group_sightings],
    [group_first_buyer] and [last_logged_leader]: over a run of the loop a
    group keeps its sightings and votes, new ones being added at the end,
    and a logged leader stays logged.  [HISTORY_MINUTES] prunes the buffer
    of buys only. *)
Theorem group_stores_only_grow (arrivals : list arrival) (st : state)
    (group : gset string) :
  let st' := final_state arrivals st in
  sightings_of st group `prefix_of` sightings_of st' group /\
  first_buyers_of st group `prefix_of` first_buyers_of st' group /\
  dom (last_logged_leader st) ⊆ dom (last_logged_leader st').
Proof.
  simpl. revert st. induction arrivals as [|a rest IH]; intros st.
  - unfold final_state. simpl. done.
  - destruct (final_state_cons a rest st) as (st1 & out & Hp & ->).
    unfold process_buy in Hp.
    apply (find_groups_stores _ _ _ _ _ _ group) in Hp as (H1 & H2 & H3).
    cbn [group_sightings group_first_buyer last_logged_leader] in *.
    destruct (IH st1) as (I1 & I2 & I3).
    split_and!; [by etrans..|]. by etrans.
Qed.

Lemma analyze_group_with_buys clock group buys st :
  analyze_group clock group (with_buys buys st)
  = (fun r => (with_buys buys (fst r), snd r)) <$> analyze_group clock group st.
Proof.
  unfold analyze_group, with_buys.
  cbn [recent_buys group_sightings group_first_buyer last_logged_leader].
  destruct (dd_get group (group_sightings st)) as [sightings gs].
  case_bool_decide; [|done].
  destruct (dd_get group (group_first_buyer st)) as [first_buyers gf].
  destruct (max_by_count _) as [[ldr votes]|]; [|done].
  destruct (2 * votes >? _); [|done].
  destruct (last_logged_leader st !! ldr); [|done].
  by destruct (_ >? _).
Qed.

Lemma scan_recent_same ws e1 e2 l1 l2 :
  same_trade e1 e2 -> Forall2 same_trade l1 l2 ->
  scan_recent ws e1 l1 = scan_recent ws e2 l2.
Proof.
  intros (_ & Hb & Hm) Hall.
  induction Hall as [|x y l1 l2 (Ht & Hxb & Hxm) _ IH]; simpl; [done|].
  by rewrite Ht, Hxb, Hxm, Hb, Hm, IH.
Qed.

Lemma popleft_same cutoff l1 l2 :
  Forall2 same_trade l1 l2 ->
  Forall2 same_trade (popleft_while_older timestamp cutoff l1)
                     (popleft_while_older timestamp cutoff l2).
Proof.
  induction 1 as [|x y l1 l2 Hxy Hall IH]; simpl; [constructor|].
  pose proof Hxy as (Ht & _). rewrite Ht.
  destruct (timestamp y <? cutoff); [exact IH | by constructor].
Qed.

Lemma find_groups_with_buys clock now e1 e2 buys2 st :
  same_trade e1 e2 -> Forall2 same_trade (recent_buys st) buys2 ->
  find_groups clock now e2 (with_buys buys2 st)
  = (fun r => (with_buys buys2 (fst r), snd r)) <$> find_groups clock now e1 st.
Proof.
  intros He Hall. unfold find_groups.
  assert (Hm : matched_buyers now e2 (recent_buys (with_buys buys2 st))
               = matched_buyers now e1 (recent_buys st)).
  { unfold matched_buyers, with_buys. cbn [recent_buys]. symmetry.
    apply scan_recent_same; [done|by apply Forall2_rev_both]. }
  rewrite Hm. destruct He as (_ & Hb & Hmint). rewrite <- Hb, <- Hmint.
  case_bool_decide; [|done].
  exact (analyze_group_with_buys clock _ buys2
           (mkState (recent_buys st) _ _ (last_logged_leader st))).
Qed.

Lemma process_buy_with_buys now clock b mint amt1 mkt1 amt2 mkt2 buys2 st :
  Forall2 same_trade (recent_buys st) buys2 ->
  process_buy now clock b mint amt2 mkt2 (with_buys buys2 st)
  = (fun r =>
       (with_buys (prune_old_events now
                     (buys2 ++ [mkBuyEvent now b mint amt2 mkt2])) (fst r),
        snd r))
    <$> process_buy now clock b mint amt1 mkt1 st.
Proof.
  intros Hall. unfold process_buy.
  rewrite <- (find_groups_with_buys clock now
                (mkBuyEvent now b mint amt1 mkt1)
                (mkBuyEvent now b mint amt2 mkt2)
                (prune_old_events now
                   (buys2 ++ [mkBuyEvent now b mint amt2 mkt2]))
                (mkState (prune_old_events now
                            (recent_buys st ++ [mkBuyEvent now b mint amt1 mkt1]))
                         (group_sightings st) (group_first_buyer st)
                         (last_logged_leader st))).
  - reflexivity.
  - done.
  - cbn [recent_buys]. apply popleft_same, Forall2_app; [done|].
    by repeat constructor.
Qed.

Lemma run_buys_relabel amt mkt arrivals :
  forall st buys2,
    Forall2 same_trade (recent_buys st) buys2 ->
    alerts_of (map (relabel amt mkt) arrivals) (with_buys buys2 st)
    = alerts_of arrivals st.
Proof.
  induction arrivals as [|a rest IH]; intros st buys2 Hall; [done|].
  unfold alerts_of. simpl.
  rewrite (process_buy_with_buys _ _ _ _ (arr_amount a) (arr_market a)
             _ _ _ _ Hall).
  destruct (process_buy (arr_now a) (arr_clock a) (arr_buyer a) (arr_mint a)
              (arr_amount a) (arr_market a) st) as [[st1 out]|] eqn:Hp;
    simpl; [|done].
  assert (Hall1 : Forall2 same_trade (recent_buys st1)
            (prune_old_events (arr_now a)
               (buys2 ++ [mkBuyEvent (arr_now a) (arr_buyer a) (arr_mint a)
                                     (amt a) (mkt a)]))).
  { unfold process_buy in Hp. apply LoopBuffers.find_groups_recent in Hp.
    rewrite Hp. cbn [recent_buys].
    apply popleft_same, Forall2_app; [done|]. by repeat constructor. }
  specialize (IH st1 _ Hall1). unfold alerts_of in IH.
  destruct (run_buys_is_Some (map (relabel amt mkt) rest)
              (with_buys (prune_old_events (arr_now a)
                 (buys2 ++ [mkBuyEvent (arr_now a) (arr_buyer a) (arr_mint a)
                                       (amt a) (mkt a)])) st1))
    as [[s2 o2] H2].
  destruct (run_buys_is_Some rest st1) as [[s3 o3] H3].
  rewrite H2, H3 in IH. rewrite H2, H3. simpl in *. by rewrite IH.
Qed.

(** X21.  The amount of a buy and the market [find_market] gave it have
    no influence on the alerts: a run of the loop logs the same alerts
    whatever the amounts and the markets of the buys. *)
Theorem amount_and_market_never_read (amt : arrival -> Z)
    (mkt : arrival -> string) (arrivals : list arrival) :
  alerts_of (map (relabel amt mkt) arrivals) initial
  = alerts_of arrivals initial.
Proof. apply (run_buys_relabel amt mkt arrivals initial []). constructor. Qed.

End SmartMoneyStores.
